(** * Health-record API: owner scoping, pagination, transitions and summaries

    A shallow embedding of the Express/Sequelize back end
    ([backend/models/*.js], [backend/routes/*.js], [backend/middleware/auth.js])
    together with the properties the specification states about it.

    Conventions of the embedding.
    - The relational store is a record of three tables, each a list of rows in
      insertion order, with one auto-increment counter per resource table and
      the rank the engine gives to rows that an ORDER BY leaves tied.
      Every handler is a pure function from the store (and, where the source
      calls [new Date()], the current time in milliseconds) to a response and
      the next store.
    - JSON objects ([metadata], [preferences], the grouped maps of the summary
      endpoints) are [gmap string _]; object spread [{...a, ...b}] is the
      left-biased union [b ∪ a].
    - Strings are UTF-8 texts; the sanitizer [trim] and the validator
      [isLength] work on their characters. Strings that the source treats as
      enumerations stay strings; the request validators ([isIn]) are part of
      the handlers.
    - Integer request parameters ([page], [limit], [:id], [days]) are the
      integers their text denotes; JSON numbers are integers. The routes
      compute with them in double precision, which is exact up to 2^53 - 1,
      and the embedding with the integers themselves: a property that reads
      a page number or a period is stated for the range in which the two
      agree ([exact_offset], [exact_days]).
    - Calendar dates (the DATEONLY column) are day numbers, timestamps are
      milliseconds, the server's clock is in UTC; a date is compared with a
      timestamp at its midnight, and a [Date] that is compared with a date
      counts as its calendar day.
    - The [updatedAt] column that the ORM maintains on its own is left out:
      no handler writes it and no property below reads it.
    - Store failures (the [catch] branches of the routes answering 500) do
      not arise in a pure store and are not modelled; the 500 of the
      authentication middleware, which depends on the token alone, is. *)

From stdpp Require Import gmap strings list fin_maps sorting.
From Stdlib Require Import ZArith Ascii.

#[local] Set Warnings "-register-all".
#[local] Open Scope string_scope.
#[local] Open Scope Z_scope.

(** ** JSON values and JavaScript truthiness *)

Inductive jvalue :=
| JNull
| JBool (b : bool)
| JNum (n : Z)
| JStr (s : string)
| JArr (l : list jvalue)
| JObj (m : gmap string jvalue).

(** [if (v)] on a JSON value. *)
Definition truthy (v : jvalue) : bool :=
  match v with
  | JNull => false
  | JBool b => b
  | JNum n => negb (n =? 0)
  | JStr s => negb (String.eqb s "")
  | JArr _ => true
  | JObj _ => true
  end.

(** [if (s)] on an optional string: [undefined] and [''] are falsy. *)
Definition truthy_str (o : option string) : option string :=
  match o with
  | Some s => if String.eqb s "" then None else Some s
  | None => None
  end.

(** [if (v)] on an optional JSON value. *)
Definition truthy_json (o : option jvalue) : option jvalue :=
  match o with
  | Some v => if truthy v then Some v else None
  | None => None
  end.

(** [parseInt(x) || d]: [undefined] gives [NaN], and [NaN] and [0] are falsy.
    The value is the integer itself, which is what [parseInt] returns up to
    2^53; beyond, [parseInt] rounds to the nearest double. *)
Definition parseInt_or (x : option Z) (d : Z) : Z :=
  match x with
  | Some n => if n =? 0 then d else n
  | None => d
  end.

(** [x || d] on an optional string. *)
Definition str_or (x : option string) (d : string) : string :=
  match truthy_str x with Some s => s | None => d end.

(** [Math.ceil(n / d)] for a positive divisor. *)
Definition Math_ceil_div (n d : Z) : Z := - ((- n) / d).

Definition decimal_digit (i : nat) : string :=
  String (ascii_of_nat (48 + i)) EmptyString.

(** Own enumerable keys of an array or of a string are its indices. *)
Fixpoint index_key_fuel (fuel n : nat) (acc : string) : string :=
  match fuel with
  | O => acc
  | S fuel' =>
      let acc' := String.append (decimal_digit (n mod 10)) acc in
      match (n / 10)%nat with
      | O => acc'
      | q => index_key_fuel fuel' q acc'
      end
  end.

Definition index_key (n : nat) : string := index_key_fuel (S n) n "".

Fixpoint chars (s : string) : list jvalue :=
  match s with
  | EmptyString => []
  | String c r => JStr (String c EmptyString) :: chars r
  end.

Definition indexed (l : list jvalue) : gmap string jvalue :=
  list_to_map (imap (fun i v => (index_key i, v)) l).

(** What [{...v}] contributes: the own enumerable properties of [v]. *)
Definition spread (v : jvalue) : gmap string jvalue :=
  match v with
  | JObj m => m
  | JArr l => indexed l
  | JStr s => indexed (chars s)
  | _ => ∅
  end.

(** ** Request sanitizers and validators (express-validator) *)

(** A string holds the UTF-8 text of the JavaScript string. A character of
    it is a byte that is not a continuation byte together with the
    continuation bytes that follow. *)
Definition is_continuation (c : ascii) : bool :=
  let n := nat_of_ascii c in ((128 <=? n) && (n <? 192))%nat.

Definition utf8_step (c : ascii) (acc : list string) : list string :=
  match acc with
  | String d r :: rest =>
      if is_continuation d then String c (String d r) :: rest
      else String c EmptyString :: acc
  | _ => String c EmptyString :: acc
  end.

Definition characters (s : string) : list string :=
  foldr utf8_step [] (String.list_ascii_of_string s).

Definition utf8_bytes (ch : string) : list Z :=
  (fun c => Z.of_nat (nat_of_ascii c)) <$> String.list_ascii_of_string ch.

Definition join (l : list string) : string := foldr String.append "" l.

(** The white space of a JavaScript regular expression's [\s], which is
    what validator's [trim] strips: tab to carriage return, space, U+00A0,
    U+1680, U+2000 to U+200A, U+2028, U+2029, U+202F, U+205F, U+3000 and
    U+FEFF. *)
Definition is_space (ch : string) : bool :=
  match utf8_bytes ch with
  | [n] => (n =? 32) || ((9 <=? n) && (n <=? 13))
  | [a; b] => (a =? 194) && (b =? 160)
  | [a; b; c] =>
      ((a =? 225) && (b =? 154) && (c =? 128))
      || ((a =? 226) && (b =? 128)
          && (((128 <=? c) && (c <=? 138)) || (c =? 168) || (c =? 169)
              || (c =? 175)))
      || ((a =? 226) && (b =? 129) && (c =? 159))
      || ((a =? 227) && (b =? 128) && (c =? 128))
      || ((a =? 239) && (b =? 187) && (c =? 191))
  | _ => false
  end.

Fixpoint skip_spaces (l : list string) : list string :=
  match l with
  | ch :: rest => if is_space ch then skip_spaces rest else l
  | [] => []
  end.

Definition ltrim (s : string) : string := join (skip_spaces (characters s)).

Definition rtrim (s : string) : string :=
  join (rev (skip_spaces (rev (characters s)))).

Definition trim (s : string) : string := rtrim (ltrim s).

(** The variation selectors U+FE0E and U+FE0F. *)
Definition is_variation_selector (ch : string) : bool :=
  match utf8_bytes ch with
  | [a; b; c] => (a =? 239) && (b =? 184) && ((c =? 142) || (c =? 143))
  | _ => false
  end.

(** The length [isLength] compares: [str.length] less the surrogate pairs
    and the variation selectors, which is the number of characters that are
    not variation selectors. *)
Definition strlen (s : string) : Z :=
  Z.of_nat
    (List.length
       (List.filter (fun ch => negb (is_variation_selector ch))
          (characters s))).

Definition isLength (lo : Z) (hi : option Z) (s : string) : bool :=
  (lo <=? strlen s) && match hi with Some h => strlen s <=? h | None => true end.

Definition isIn (allowed : list string) (s : string) : bool :=
  bool_decide (s ∈ allowed).

Definition isInt (lo : Z) (hi : option Z) (n : Z) : bool :=
  (lo <=? n) && match hi with Some h => n <=? h | None => true end.

(** [isBoolean()] on a query string. *)
Definition isBoolean (s : string) : bool :=
  isIn ["true"; "false"; "1"; "0"] s.

(** [.optional()]: an absent field passes every check. *)
Definition optional {A} (check : A -> bool) (o : option A) : bool :=
  match o with Some x => check x | None => true end.

(** One entry of [validationResult(req).array()]. *)
Definition check (ok : bool) (msg : string) : list string :=
  if ok then [] else [msg].

(** ** Models ([backend/models]) *)

Module User.
Record t := mk {
  id : Z;
  name : string;
  email : string;
  password : string;
  preferences : jvalue;
  isActive : bool;
  lastLogin : option Z;
  createdAt : Z
}.

(** [user.update({ isActive })]. *)
Definition set_isActive (b : bool) (u : t) : t :=
  mk (id u) (name u) (email u) (password u) (preferences u) b
     (lastLogin u) (createdAt u).

(** [user.update({ preferences })]. *)
Definition set_preferences (p : jvalue) (u : t) : t :=
  mk (id u) (name u) (email u) (password u) p (isActive u)
     (lastLogin u) (createdAt u).

(** [user.update({ password })]; the hashing hook is the caller's [hash]. *)
Definition set_password (p : string) (u : t) : t :=
  mk (id u) (name u) (email u) p (preferences u) (isActive u)
     (lastLogin u) (createdAt u).

(** [user.update(updateData)] of the profile route: present fields only. *)
Definition update_profile (n e : option string) (u : t) : t :=
  mk (id u) (default (name u) n) (default (email u) e) (password u)
     (preferences u) (isActive u) (lastLogin u) (createdAt u).

(** The [attributes: ['id', 'name', 'email']] projection of an include. *)
Record summary := mkSummary { s_id : Z; s_name : string; s_email : string }.

Definition summarize (u : t) : summary := mkSummary (id u) (name u) (email u).
End User.

Module Alert.
Record t := mk {
  id : Z;
  title : string;
  message : option string;
  status : string;
  priority : string;
  type : string;
  userId : Z;
  metadata : jvalue;
  acknowledgedAt : option Z;
  resolvedAt : option Z;
  createdAt : Z
}.

(** The ENUM declarations of the columns, in declaration order. *)
Definition status_enum : list string :=
  ["active"; "acknowledged"; "resolved"; "dismissed"].
Definition priority_enum : list string :=
  ["low"; "medium"; "high"; "critical"].
Definition type_values : list string :=
  ["general"; "health"; "system"; "diagnostic"; "reminder"].

(** [Alert.prototype.acknowledge], before [save()]. *)
Definition acknowledge (now : Z) (a : t) : t :=
  mk (id a) (title a) (message a) "acknowledged" (priority a) (type a)
     (userId a) (metadata a) (Some now) (resolvedAt a) (createdAt a).

(** [Alert.prototype.resolve], before [save()]. *)
Definition resolve (now : Z) (a : t) : t :=
  mk (id a) (title a) (message a) "resolved" (priority a) (type a)
     (userId a) (metadata a) (acknowledgedAt a) (Some now) (createdAt a).

(** [Alert.prototype.dismiss], before [save()]. *)
Definition dismiss (a : t) : t :=
  mk (id a) (title a) (message a) "dismissed" (priority a) (type a)
     (userId a) (metadata a) (acknowledgedAt a) (resolvedAt a) (createdAt a).

(** The [updateData] object of [PUT /api/alerts/:id]: a key is present
    when its field is [Some]. *)
Record updateData := mkUpdate {
  d_title : option string;
  d_message : option string;
  d_status : option string;
  d_acknowledgedAt : option Z;
  d_resolvedAt : option Z;
  d_priority : option string;
  d_type : option string;
  d_metadata : option jvalue
}.

(** [alert.update(updateData)]: the present keys overwrite their columns. *)
Definition update (d : updateData) (a : t) : t :=
  mk (id a)
     (default (title a) (d_title d))
     (match d_message d with Some m => Some m | None => message a end)
     (default (status a) (d_status d))
     (default (priority a) (d_priority d))
     (default (type a) (d_type d))
     (userId a)
     (default (metadata a) (d_metadata d))
     (match d_acknowledgedAt d with Some x => Some x | None => acknowledgedAt a end)
     (match d_resolvedAt d with Some x => Some x | None => resolvedAt a end)
     (createdAt a).
End Alert.

Module DiagnosticTest.
Record t := mk {
  id : Z;
  name : string;
  result : string;
  date : Z;
  testType : string;
  status : string;
  normalRange : option string;
  units : option string;
  notes : option string;
  userId : Z;
  doctorName : option string;
  labName : option string;
  isAbnormal : bool;
  attachments : list jvalue;
  createdAt : Z
}.

Definition testType_values : list string :=
  ["blood"; "urine"; "imaging"; "cardiac"; "neurological"; "genetic"; "general"].
Definition status_enum : list string :=
  ["pending"; "completed"; "reviewed"; "cancelled"].

Definition set_status (s : string) (x : t) : t :=
  mk (id x) (name x) (result x) (date x) (testType x) s (normalRange x)
     (units x) (notes x) (userId x) (doctorName x) (labName x)
     (isAbnormal x) (attachments x) (createdAt x).

(** [DiagnosticTest.prototype.markAsReviewed], before [save()]. *)
Definition markAsReviewed (x : t) : t := set_status "reviewed" x.

(** [DiagnosticTest.prototype.cancel], before [save()]. *)
Definition cancel (x : t) : t := set_status "cancelled" x.

(** The [updateData] object of [PUT /api/diagnostic-tests/:id]. *)
Record updateData := mkUpdate {
  d_name : option string;
  d_result : option string;
  d_date : option Z;
  d_testType : option string;
  d_status : option string;
  d_normalRange : option string;
  d_units : option string;
  d_notes : option string;
  d_doctorName : option string;
  d_labName : option string;
  d_isAbnormal : option bool;
  d_attachments : option (list jvalue)
}.

Definition over {A} (old : option A) (new : option A) : option A :=
  match new with Some v => Some v | None => old end.

(** [test.update(updateData)]. *)
Definition update (d : updateData) (x : t) : t :=
  mk (id x)
     (default (name x) (d_name d))
     (default (result x) (d_result d))
     (default (date x) (d_date d))
     (default (testType x) (d_testType d))
     (default (status x) (d_status d))
     (over (normalRange x) (d_normalRange d))
     (over (units x) (d_units d))
     (over (notes x) (d_notes d))
     (userId x)
     (over (doctorName x) (d_doctorName d))
     (over (labName x) (d_labName d))
     (default (isAbnormal x) (d_isAbnormal d))
     (default (attachments x) (d_attachments d))
     (createdAt x).
End DiagnosticTest.

(** ** The store and the queries Sequelize runs on it *)

(** The database: the three tables, the auto-increment counters, and the
    engine's way with ties. An [ORDER BY] that leaves two rows tied lets the
    engine return them in either order: [ties id] is the rank the engine
    gives the row with primary key [id] among its ties when it runs the next
    statement. No route writes it, and nothing keeps the engine from deciding
    differently for the statement after: a property of several list requests
    takes one store per request, equal in everything but [ties]. *)
Record Store := mkStore {
  users : list User.t;
  alerts : list Alert.t;
  tests : list DiagnosticTest.t;
  alert_seq : Z;
  test_seq : Z;
  ties : Z -> Z
}.

Definition with_users (f : list User.t -> list User.t) (s : Store) : Store :=
  mkStore (f (users s)) (alerts s) (tests s) (alert_seq s) (test_seq s)
    (ties s).

Definition with_alerts (f : list Alert.t -> list Alert.t) (s : Store) : Store :=
  mkStore (users s) (f (alerts s)) (tests s) (alert_seq s) (test_seq s)
    (ties s).

Definition with_tests
    (f : list DiagnosticTest.t -> list DiagnosticTest.t) (s : Store) : Store :=
  mkStore (users s) (alerts s) (f (tests s)) (alert_seq s) (test_seq s)
    (ties s).

(** The same database when the engine ranks its ties by [rank]. *)
Definition with_ties (rank : Z -> Z) (s : Store) : Store :=
  mkStore (users s) (alerts s) (tests s) (alert_seq s) (test_seq s) rank.

(** [Model.findOne({ where })] and [Model.count({ where })]: the first row, and
    the number of rows, that satisfy the where clause. *)
Definition findOne {A} (where_ : A -> bool) (rows : list A) : option A :=
  List.find where_ rows.

Definition count {A} (where_ : A -> bool) (rows : list A) : Z :=
  Z.of_nat (List.length (List.filter where_ rows)).

(** [instance.save()] / [instance.update()]: the row with the instance's
    primary key is replaced. *)
Definition save {A} (pk : A -> Z) (x : A) (rows : list A) : list A :=
  List.map (fun r => if pk r =? pk x then x else r) rows.

(** [instance.destroy()]. *)
Definition destroy {A} (pk : A -> Z) (x : A) (rows : list A) : list A :=
  List.filter (fun r => negb (pk r =? pk x)) rows.

(** [LIMIT limit OFFSET offset]. *)
Definition limit_offset {A} (limit offset : Z) (rows : list A) : list A :=
  take (Z.to_nat limit) (drop (Z.to_nat offset) rows).

(** Position of a value in an ENUM declaration (1-based; 0 when absent):
    the key an ENUM column is ordered by. *)
Fixpoint enum_index (decl : list string) (v : string) : Z :=
  match decl with
  | [] => 0
  | d :: rest =>
      if String.eqb d v then 1
      else match enum_index rest v with 0 => 0 | i => i + 1 end
  end.

(** ** Responses *)

Record AlertView := mkAlertView {
  v_alert : Alert.t;
  v_user : option User.summary
}.

Record TestView := mkTestView {
  v_test : DiagnosticTest.t;
  v_owner : option User.summary
}.

Record Pagination := mkPagination {
  currentPage : Z;
  totalPages : Z;
  totalItems : Z;
  itemsPerPage : Z;
  hasNextPage : bool;
  hasPrevPage : bool
}.

(** The JSON bodies the handlers send, one constructor per shape. *)
Inductive payload :=
| Message (message : string)
| ValidationFailed (errors : list string)
| AlertPage (alerts : list AlertView) (pagination : Pagination)
| AlertList (alerts : list Alert.t) (count : Z)
| OneAlert (alert : AlertView)
| MessageAlert (message : string) (alert : option AlertView)
| AlertSummary (total : Z) (byStatus byPriority : gmap string Z)
| TestPage (tests : list TestView) (pagination : Pagination)
| TestList (tests : list DiagnosticTest.t) (count : Z) (period : option Z)
| OneTest (test : TestView)
| MessageTest (message : string) (test : option TestView)
| TestSummary (total abnormal recent : Z) (byStatus byType : gmap string Z)
| Profile (id : Z) (name email : string) (preferences : jvalue)
    (isActive : bool) (lastLogin : option Z) (createdAt : Z)
| MessageProfile (message : string) (id : Z) (name email : string)
    (preferences : jvalue)
| MessagePreferences (message : string) (preferences : jvalue)
| Stats (totalAlerts activeAlerts totalTests memberSince : Z)
    (lastLogin : option Z).

Record Response := mkResponse { code : Z; body : payload }.

Definition json (p : payload) : Response := mkResponse 200 p.
Definition status_json (c : Z) (p : payload) : Response := mkResponse c p.

(** ** Authentication middleware ([backend/middleware/auth.js]) *)

(** What [jwt.verify] makes of the Authorization header: no token at all,
    a [JsonWebTokenError], a [TokenExpiredError], an error of any other name
    (jsonwebtoken raises [NotBeforeError] for a token that is not active
    yet), or the decoded payload with its [id]. *)
Inductive credential :=
| NoToken
| InvalidToken
| ExpiredToken
| NotBeforeToken
| Verified (id : Z).

Definition findUserByPk (s : Store) (id : Z) : option User.t :=
  findOne (fun u => User.id u =? id) (users s).

Definition auth (s : Store) (c : credential) : User.t + Response :=
  match c with
  | NoToken =>
      inr (status_json 401 (Message "Access denied. No token provided."))
  | InvalidToken =>
      inr (status_json 401 (Message "Access denied. Invalid token."))
  | ExpiredToken =>
      inr (status_json 401 (Message "Access denied. Token expired."))
  | NotBeforeToken =>
      inr (status_json 500
             (Message "Internal server error during authentication."))
  | Verified id =>
      match findUserByPk s id with
      | Some user =>
          if User.isActive user then inl user
          else inr (status_json 401
                      (Message "Access denied. Invalid token or user inactive."))
      | None =>
          inr (status_json 401
                 (Message "Access denied. Invalid token or user inactive."))
      end
  end.

(** A route behind [auth]: the handler runs only for a resolved user. *)
Definition authed (s : Store) (c : credential)
    (handler : User.t -> Response * Store) : Response * Store :=
  match auth s c with
  | inl user => handler user
  | inr denied => (denied, s)
  end.

(** [if (!errors.isEmpty()) return res.status(400)...]. *)
Definition validated (s : Store) (errors : list string)
    (handler : Response * Store) : Response * Store :=
  match errors with
  | [] => handler
  | _ => (status_json 400 (ValidationFailed errors), s)
  end.

(** [include: [{ model: User, as: 'user', attributes: [...] }]]. *)
Definition include_user (s : Store) (userId : Z) : option User.summary :=
  User.summarize <$> findUserByPk s userId.

Definition alert_view (s : Store) (a : Alert.t) : AlertView :=
  mkAlertView a (include_user s (Alert.userId a)).

Definition test_view (s : Store) (x : DiagnosticTest.t) : TestView :=
  mkTestView x (include_user s (DiagnosticTest.userId x)).

(** [GROUP BY key] with [COUNT(id)]: one [(key, count)] item per key that
    occurs, in order of first occurrence. *)
Definition group_count {A} (key : A -> string) (rows : list A)
    : list (string * Z) :=
  (fun k => (k, count (fun r => String.eqb (key r) k) rows))
    <$> remove_dups (key <$> rows).

(** [items.reduce((acc, item) => { acc[item.key] = parseInt(item.count);
    return acc }, {})]. *)
Definition reduce_counts (items : list (string * Z)) : gmap string Z :=
  foldl (fun acc item => <[item.1 := item.2]> acc) ∅ items.

(** An object literal [{ k1: v1, ... }]. *)
Definition object {V} (fields : list (string * V)) : gmap string V :=
  foldl (fun acc item => <[item.1 := item.2]> acc) ∅ fields.

Definition page_info (page limit count_ : Z) : Pagination :=
  let totalPages := Math_ceil_div count_ limit in
  mkPagination page totalPages count_ limit (page <? totalPages) (1 <? page).

(** ** Alert routes (the router mounted at [/api/alerts]) *)

(** [order: [['priority', 'DESC'], ['created_at', 'DESC']]]: [a] may come
    before [b]. The priority column is an ENUM and is ordered by the index of
    its value in the declaration. *)
Definition priority_rank (a : Alert.t) : Z :=
  enum_index Alert.priority_enum (Alert.priority a).

Definition alert_order (a b : Alert.t) : Prop :=
  priority_rank b < priority_rank a
  ∨ (priority_rank a = priority_rank b ∧ Alert.createdAt b <= Alert.createdAt a).

#[global] Instance alert_order_dec a b : Decision (alert_order a b).
Proof. unfold alert_order. apply _. Defined.

Record AlertWhere := mkAlertWhere {
  w_userId : Z;
  w_status : option string;
  w_priority : option string;
  w_type : option string
}.

(** A column constraint of a where clause: an absent key constrains nothing. *)
Definition column_is (want : option string) (have : string) : bool :=
  match want with Some v => String.eqb have v | None => true end.

Definition alert_where (w : AlertWhere) (a : Alert.t) : bool :=
  (Alert.userId a =? w_userId w)
  && column_is (w_status w) (Alert.status a)
  && column_is (w_priority w) (Alert.priority a)
  && column_is (w_type w) (Alert.type a).

(** The order in which the engine returns the rows of one statement: the
    order clause, and among the rows it leaves tied the engine's own rank. *)
Definition alert_order_of (rank : Z -> Z) (a b : Alert.t) : Prop :=
  priority_rank b < priority_rank a
  ∨ (priority_rank a = priority_rank b
     ∧ (Alert.createdAt b < Alert.createdAt a
        ∨ (Alert.createdAt a = Alert.createdAt b
           ∧ rank (Alert.id a) <= rank (Alert.id b)))).

#[global] Instance alert_order_of_dec rank a b :
  Decision (alert_order_of rank a b).
Proof. unfold alert_order_of. apply _. Defined.

(** The rows [Alert.findAll] returns for a where clause under the
    priority-then-recency order. *)
Definition alerts_matching (s : Store) (w : AlertWhere) : list Alert.t :=
  merge_sort (alert_order_of (ties s))
    (List.filter (alert_where w) (alerts s)).

(** [Alert.findActiveByUser]. *)
Definition findActiveByUser (s : Store) (userId : Z) : list Alert.t :=
  alerts_matching s (mkAlertWhere userId (Some "active") None None).

(** The query string of [GET /api/alerts]; an absent parameter is [None]. *)
Record AlertQuery := mkAlertQuery {
  q_page : option Z;
  q_limit : option Z;
  q_status : option string;
  q_priority : option string;
  q_type : option string
}.

Definition alert_query_errors (q : AlertQuery) : list string :=
  check (optional (isInt 1 None) (q_page q)) "Page must be a positive integer"
  ++ check (optional (isInt 1 (Some 100)) (q_limit q))
       "Limit must be between 1 and 100"
  ++ check (optional (isIn Alert.status_enum) (q_status q))
       "Invalid status filter"
  ++ check (optional (isIn Alert.priority_enum) (q_priority q))
       "Invalid priority filter"
  ++ check (optional (isIn Alert.type_values) (q_type q))
       "Invalid type filter".

Definition alert_whereClause (user : User.t) (q : AlertQuery) : AlertWhere :=
  mkAlertWhere (User.id user) (truthy_str (q_status q))
    (truthy_str (q_priority q)) (truthy_str (q_type q)).

(** [GET /api/alerts]. *)
Definition get_alerts (s : Store) (c : credential) (q : AlertQuery)
    : Response * Store :=
  authed s c (fun user =>
  validated s (alert_query_errors q)
    (let page := parseInt_or (q_page q) 1 in
     let limit := parseInt_or (q_limit q) 10 in
     let offset := (page - 1) * limit in
     let whereClause := alert_whereClause user q in
     let count_ := count (alert_where whereClause) (alerts s) in
     let rows := limit_offset limit offset (alerts_matching s whereClause) in
     (json (AlertPage (alert_view s <$> rows) (page_info page limit count_)), s))).

(** [GET /api/alerts/active]. *)
Definition get_active_alerts (s : Store) (c : credential) : Response * Store :=
  authed s c (fun user =>
    let alerts_ := findActiveByUser s (User.id user) in
    (json (AlertList alerts_ (Z.of_nat (List.length alerts_))), s)).

(** [Alert.findOne({ where: { id, userId } })]. *)
Definition findAlert (s : Store) (id userId : Z) : option Alert.t :=
  findOne (fun a => (Alert.id a =? id) && (Alert.userId a =? userId)) (alerts s).

Definition findAlertByPk (s : Store) (id : Z) : option Alert.t :=
  findOne (fun a => Alert.id a =? id) (alerts s).

Definition alert_not_found : Response :=
  status_json 404 (Message "Alert not found").

(** [GET /api/alerts/:id]. *)
Definition get_alert (s : Store) (c : credential) (id : Z) : Response * Store :=
  authed s c (fun user =>
    match findAlert s id (User.id user) with
    | None => (alert_not_found, s)
    | Some alert => (json (OneAlert (alert_view s alert)), s)
    end).

(** The JSON body of [POST] and [PUT]. [b_userId] is whatever owner field a
    client may send along. *)
Record AlertBody := mkAlertBody {
  b_title : option string;
  b_message : option string;
  b_status : option string;
  b_priority : option string;
  b_type : option string;
  b_metadata : option jvalue;
  b_userId : option Z
}.

(** [isObject()]: an object, not an array and not null. *)
Definition isObject (v : jvalue) : bool :=
  match v with JObj _ => true | _ => false end.

Definition post_alert_errors (b : AlertBody) : list string :=
  check (isLength 1 (Some 255) (trim (default "" (b_title b))))
    "Title must be between 1 and 255 characters"
  ++ check (optional (fun m => isLength 0 (Some 1000) (trim m)) (b_message b))
       "Message must not exceed 1000 characters"
  ++ check (optional (isIn Alert.priority_enum) (b_priority b))
       "Priority must be low, medium, high, or critical"
  ++ check (optional (isIn Alert.type_values) (b_type b))
       "Type must be general, health, system, diagnostic, or reminder"
  ++ check (optional isObject (b_metadata b)) "Metadata must be an object".

(** [Alert.create({...})]: the next auto-increment id, the column defaults
    for what the literal leaves out, and the literal's values. *)
Definition create_alert (s : Store) (now : Z) (title : string)
    (message : option string) (priority type : string) (metadata : jvalue)
    (userId : Z) : Alert.t * Store :=
  let alert :=
    Alert.mk (alert_seq s) title message "active" priority type userId
      metadata None None now in
  (alert,
   mkStore (users s) (alerts s ++ [alert]) (tests s) (alert_seq s + 1)
     (test_seq s) (ties s)).

(** [POST /api/alerts]. *)
Definition post_alert (s : Store) (c : credential) (now : Z) (b : AlertBody)
    : Response * Store :=
  authed s c (fun user =>
  validated s (post_alert_errors b)
    (let title := trim (default "" (b_title b)) in
     let message := trim <$> b_message b in
     let '(alert, s') :=
       create_alert s now title message
         (str_or (b_priority b) "medium")
         (str_or (b_type b) "general")
         (default (JObj ∅) (truthy_json (b_metadata b)))
         (User.id user) in
     let createdAlert := alert_view s' <$> findAlertByPk s' (Alert.id alert) in
     (status_json 201 (MessageAlert "Alert created successfully" createdAlert),
      s'))).

Definition put_alert_errors (b : AlertBody) : list string :=
  check (optional (fun t => isLength 1 (Some 255) (trim t)) (b_title b))
    "Title must be between 1 and 255 characters"
  ++ check (optional (fun m => isLength 0 (Some 1000) (trim m)) (b_message b))
       "Message must not exceed 1000 characters"
  ++ check (optional (isIn Alert.status_enum) (b_status b))
       "Status must be active, acknowledged, resolved, or dismissed"
  ++ check (optional (isIn Alert.priority_enum) (b_priority b))
       "Priority must be low, medium, high, or critical"
  ++ check (optional (isIn Alert.type_values) (b_type b))
       "Type must be general, health, system, diagnostic, or reminder".

(** The [updateData] that [PUT /api/alerts/:id] builds from the sanitized
    body and the alert it found. *)
Definition alert_updateData (now : Z) (alert : Alert.t) (b : AlertBody)
    : Alert.updateData :=
  let title := trim <$> b_title b in
  let message := trim <$> b_message b in
  let status := truthy_str (b_status b) in
  Alert.mkUpdate
    (truthy_str title)
    message
    status
    (match status, Alert.acknowledgedAt alert with
     | Some st, None => if String.eqb st "acknowledged" then Some now else None
     | _, _ => None
     end)
    (match status, Alert.resolvedAt alert with
     | Some st, None => if String.eqb st "resolved" then Some now else None
     | _, _ => None
     end)
    (truthy_str (b_priority b))
    (truthy_str (b_type b))
    (match truthy_json (b_metadata b) with
     | Some metadata => Some (JObj (spread metadata ∪ spread (Alert.metadata alert)))
     | None => None
     end).

(** [PUT /api/alerts/:id]. *)
Definition put_alert (s : Store) (c : credential) (now : Z) (id : Z)
    (b : AlertBody) : Response * Store :=
  authed s c (fun user =>
  validated s (put_alert_errors b)
    match findAlert s id (User.id user) with
    | None => (alert_not_found, s)
    | Some alert =>
        let updated := Alert.update (alert_updateData now alert b) alert in
        let s' := with_alerts (save Alert.id updated) s in
        let updatedAlert := alert_view s' <$> findAlertByPk s' (Alert.id alert) in
        (json (MessageAlert "Alert updated successfully" updatedAlert), s')
    end).

(** [PUT /api/alerts/:id/acknowledge]. *)
Definition put_acknowledge (s : Store) (c : credential) (now : Z) (id : Z)
    : Response * Store :=
  authed s c (fun user =>
    match findAlert s id (User.id user) with
    | None => (alert_not_found, s)
    | Some alert =>
        let alert' := Alert.acknowledge now alert in
        (json (MessageAlert "Alert acknowledged successfully"
                 (Some (mkAlertView alert' None))),
         with_alerts (save Alert.id alert') s)
    end).

(** [PUT /api/alerts/:id/resolve]. *)
Definition put_resolve (s : Store) (c : credential) (now : Z) (id : Z)
    : Response * Store :=
  authed s c (fun user =>
    match findAlert s id (User.id user) with
    | None => (alert_not_found, s)
    | Some alert =>
        let alert' := Alert.resolve now alert in
        (json (MessageAlert "Alert resolved successfully"
                 (Some (mkAlertView alert' None))),
         with_alerts (save Alert.id alert') s)
    end).

(** [DELETE /api/alerts/:id]. *)
Definition delete_alert (s : Store) (c : credential) (id : Z)
    : Response * Store :=
  authed s c (fun user =>
    match findAlert s id (User.id user) with
    | None => (alert_not_found, s)
    | Some alert =>
        (json (Message "Alert deleted successfully"),
         with_alerts (destroy Alert.id alert) s)
    end).

(** [GET /api/alerts/stats/summary]. *)
Definition alerts_summary (s : Store) (c : credential) : Response * Store :=
  authed s c (fun user =>
    let uid := User.id user in
    let by_status st :=
      count (alert_where (mkAlertWhere uid (Some st) None None)) (alerts s) in
    let total := count (alert_where (mkAlertWhere uid None None None)) (alerts s) in
    let priorityStats :=
      group_count Alert.priority
        (List.filter (alert_where (mkAlertWhere uid None None None)) (alerts s)) in
    (json (AlertSummary total
             (object [("active", by_status "active");
                      ("acknowledged", by_status "acknowledged");
                      ("resolved", by_status "resolved");
                      ("dismissed", by_status "dismissed")])
             (reduce_counts priorityStats)),
     s)).

(** ** Diagnostic-test routes (the router mounted at [/api/diagnostic-tests]) *)

Definition day_ms : Z := 86400000.

(** The instant a DATEONLY value stands for when compared with a timestamp. *)
Definition midnight (date : Z) : Z := date * day_ms.

(** What Sequelize makes of a [Date] that is compared with a DATEONLY column:
    it is written as its calendar day ([YYYY-MM-DD]), the time of day is
    dropped. The server's clock is taken to be in UTC. *)
Definition DATEONLY (t : Z) : Z := t `div` day_ms.

(** [order: [['date', 'DESC']]]. *)
Definition test_order (a b : DiagnosticTest.t) : Prop :=
  DiagnosticTest.date b <= DiagnosticTest.date a.

#[global] Instance test_order_dec a b : Decision (test_order a b).
Proof. unfold test_order. apply _. Defined.

Record TestWhere := mkTestWhere {
  tw_userId : Z;
  tw_testType : option string;
  tw_status : option string;
  tw_isAbnormal : option bool;
  tw_date_gte : option Z;
  tw_date_lte : option Z
}.

Definition test_where (w : TestWhere) (x : DiagnosticTest.t) : bool :=
  (DiagnosticTest.userId x =? tw_userId w)
  && column_is (tw_testType w) (DiagnosticTest.testType x)
  && column_is (tw_status w) (DiagnosticTest.status x)
  && match tw_isAbnormal w with
     | Some b => Bool.eqb (DiagnosticTest.isAbnormal x) b
     | None => true
     end
  && match tw_date_gte w with
     | Some t => t <=? midnight (DiagnosticTest.date x)
     | None => true
     end
  && match tw_date_lte w with
     | Some t => midnight (DiagnosticTest.date x) <=? t
     | None => true
     end.

Definition test_order_of (rank : Z -> Z) (a b : DiagnosticTest.t) : Prop :=
  DiagnosticTest.date b < DiagnosticTest.date a
  ∨ (DiagnosticTest.date a = DiagnosticTest.date b
     ∧ rank (DiagnosticTest.id a) <= rank (DiagnosticTest.id b)).

#[global] Instance test_order_of_dec rank a b :
  Decision (test_order_of rank a b).
Proof. unfold test_order_of. apply _. Defined.

Definition tests_matching (s : Store) (w : TestWhere)
    : list DiagnosticTest.t :=
  merge_sort (test_order_of (ties s)) (List.filter (test_where w) (tests s)).

Definition owned_by (userId : Z) : TestWhere :=
  mkTestWhere userId None None None None None.

(** [DiagnosticTest.findAbnormalByUser]. *)
Definition findAbnormalByUser (s : Store) (userId : Z)
    : list DiagnosticTest.t :=
  tests_matching s (mkTestWhere userId None None (Some true) None None).

(** [DiagnosticTest.findRecentByUser]. [setDate(getDate() - days)] moves the
    instant by whole days; the where clause then compares the DATEONLY column
    with the calendar day of that instant. *)
Definition findRecentByUser (s : Store) (now : Z) (userId days : Z)
    : list DiagnosticTest.t :=
  let dateThreshold := now - days * day_ms in
  tests_matching s
    (mkTestWhere userId None None None
       (Some (midnight (DATEONLY dateThreshold))) None).

(** The query string of [GET /api/diagnostic-tests]. [tq_isAbnormal] is the
    text of the parameter; [tq_dateFrom] and [tq_dateTo] are the days their
    ISO 8601 texts denote, so the [isISO8601] checks have nothing to reject. *)
Record TestQuery := mkTestQuery {
  tq_page : option Z;
  tq_limit : option Z;
  tq_testType : option string;
  tq_status : option string;
  tq_isAbnormal : option string;
  tq_dateFrom : option Z;
  tq_dateTo : option Z
}.

Definition test_query_errors (q : TestQuery) : list string :=
  check (optional (isInt 1 None) (tq_page q)) "Page must be a positive integer"
  ++ check (optional (isInt 1 (Some 100)) (tq_limit q))
       "Limit must be between 1 and 100"
  ++ check (optional (isIn DiagnosticTest.testType_values) (tq_testType q))
       "Invalid test type filter"
  ++ check (optional (isIn DiagnosticTest.status_enum) (tq_status q))
       "Invalid status filter"
  ++ check (optional isBoolean (tq_isAbnormal q)) "isAbnormal must be a boolean".

Definition test_whereClause (user : User.t) (q : TestQuery) : TestWhere :=
  mkTestWhere (User.id user)
    (truthy_str (tq_testType q))
    (truthy_str (tq_status q))
    ((fun v => String.eqb v "true") <$> tq_isAbnormal q)
    (midnight <$> tq_dateFrom q)
    (midnight <$> tq_dateTo q).

(** [GET /api/diagnostic-tests]. *)
Definition get_tests (s : Store) (c : credential) (q : TestQuery)
    : Response * Store :=
  authed s c (fun user =>
  validated s (test_query_errors q)
    (let page := parseInt_or (tq_page q) 1 in
     let limit := parseInt_or (tq_limit q) 10 in
     let offset := (page - 1) * limit in
     let whereClause := test_whereClause user q in
     let count_ := count (test_where whereClause) (tests s) in
     let rows := limit_offset limit offset (tests_matching s whereClause) in
     (json (TestPage (test_view s <$> rows) (page_info page limit count_)), s))).

(** [GET /api/diagnostic-tests/recent]. *)
Definition get_recent_tests (s : Store) (c : credential) (now : Z)
    (days_ : option Z) : Response * Store :=
  authed s c (fun user =>
    let days := parseInt_or days_ 30 in
    let tests_ := findRecentByUser s now (User.id user) days in
    (json (TestList tests_ (Z.of_nat (List.length tests_)) (Some days)), s)).

(** [GET /api/diagnostic-tests/abnormal]. *)
Definition get_abnormal_tests (s : Store) (c : credential)
    : Response * Store :=
  authed s c (fun user =>
    let tests_ := findAbnormalByUser s (User.id user) in
    (json (TestList tests_ (Z.of_nat (List.length tests_)) None), s)).

(** [DiagnosticTest.findOne({ where: { id, userId } })]. *)
Definition findTest (s : Store) (id userId : Z) : option DiagnosticTest.t :=
  findOne (fun x => (DiagnosticTest.id x =? id)
                    && (DiagnosticTest.userId x =? userId)) (tests s).

Definition findTestByPk (s : Store) (id : Z) : option DiagnosticTest.t :=
  findOne (fun x => DiagnosticTest.id x =? id) (tests s).

Definition test_not_found : Response :=
  status_json 404 (Message "Diagnostic test not found").

(** [GET /api/diagnostic-tests/:id]. *)
Definition get_test (s : Store) (c : credential) (id : Z) : Response * Store :=
  authed s c (fun user =>
    match findTest s id (User.id user) with
    | None => (test_not_found, s)
    | Some test => (json (OneTest (test_view s test)), s)
    end).

(** The JSON body of [POST] and [PUT]. [tb_date] is the day its ISO 8601
    text denotes; [tb_userId] is whatever owner field a client may send. *)
Record TestBody := mkTestBody {
  tb_name : option string;
  tb_result : option string;
  tb_date : option Z;
  tb_testType : option string;
  tb_status : option string;
  tb_normalRange : option string;
  tb_units : option string;
  tb_notes : option string;
  tb_doctorName : option string;
  tb_labName : option string;
  tb_isAbnormal : option bool;
  tb_attachments : option (list jvalue);
  tb_userId : option Z
}.

Definition at_most (n : Z) (s : string) : bool := isLength 0 (Some n) (trim s).

(** The checks [POST] and [PUT] share on the optional fields. *)
Definition test_optional_errors (b : TestBody) : list string :=
  check (optional (isIn DiagnosticTest.testType_values) (tb_testType b))
    "Test type must be blood, urine, imaging, cardiac, neurological, genetic, or general"
  ++ check (optional (isIn DiagnosticTest.status_enum) (tb_status b))
       "Status must be pending, completed, reviewed, or cancelled"
  ++ check (optional (at_most 255) (tb_normalRange b))
       "Normal range must not exceed 255 characters"
  ++ check (optional (at_most 50) (tb_units b))
       "Units must not exceed 50 characters"
  ++ check (optional (at_most 1000) (tb_notes b))
       "Notes must not exceed 1000 characters"
  ++ check (optional (at_most 255) (tb_doctorName b))
       "Doctor name must not exceed 255 characters"
  ++ check (optional (at_most 255) (tb_labName b))
       "Lab name must not exceed 255 characters".

Definition post_test_errors (b : TestBody) : list string :=
  check (isLength 1 (Some 255) (trim (default "" (tb_name b))))
    "Name must be between 1 and 255 characters"
  ++ check (isLength 1 None (trim (default "" (tb_result b))))
       "Result is required"
  ++ check (bool_decide (is_Some (tb_date b))) "Date must be a valid date"
  ++ test_optional_errors b.

(** [DiagnosticTest.create({...})]. *)
Definition create_test (s : Store) (now : Z) (x : DiagnosticTest.t)
    : DiagnosticTest.t * Store :=
  let test :=
    DiagnosticTest.mk (test_seq s) (DiagnosticTest.name x)
      (DiagnosticTest.result x) (DiagnosticTest.date x)
      (DiagnosticTest.testType x) (DiagnosticTest.status x)
      (DiagnosticTest.normalRange x) (DiagnosticTest.units x)
      (DiagnosticTest.notes x) (DiagnosticTest.userId x)
      (DiagnosticTest.doctorName x) (DiagnosticTest.labName x)
      (DiagnosticTest.isAbnormal x) (DiagnosticTest.attachments x) now in
  (test,
   mkStore (users s) (alerts s) (tests s ++ [test]) (alert_seq s)
     (test_seq s + 1) (ties s)).

(** [POST /api/diagnostic-tests]. *)
Definition post_test (s : Store) (c : credential) (now : Z) (b : TestBody)
    : Response * Store :=
  authed s c (fun user =>
  validated s (post_test_errors b)
    (let '(test, s') :=
       create_test s now
         (DiagnosticTest.mk 0
            (trim (default "" (tb_name b)))
            (trim (default "" (tb_result b)))
            (default 0 (tb_date b))
            (str_or (tb_testType b) "general")
            (str_or (tb_status b) "completed")
            (trim <$> tb_normalRange b)
            (trim <$> tb_units b)
            (trim <$> tb_notes b)
            (User.id user)
            (trim <$> tb_doctorName b)
            (trim <$> tb_labName b)
            (default false (tb_isAbnormal b))
            (default [] (tb_attachments b))
            now) in
     let createdTest := test_view s' <$> findTestByPk s' (DiagnosticTest.id test) in
     (status_json 201
        (MessageTest "Diagnostic test created successfully" createdTest),
      s'))).

Definition put_test_errors (b : TestBody) : list string :=
  check (optional (fun n => isLength 1 (Some 255) (trim n)) (tb_name b))
    "Name must be between 1 and 255 characters"
  ++ check (optional (fun r => isLength 1 None (trim r)) (tb_result b))
       "Result cannot be empty"
  ++ test_optional_errors b.

Definition test_updateData (b : TestBody) : DiagnosticTest.updateData :=
  DiagnosticTest.mkUpdate
    (truthy_str (trim <$> tb_name b))
    (truthy_str (trim <$> tb_result b))
    (tb_date b)
    (truthy_str (tb_testType b))
    (truthy_str (tb_status b))
    (trim <$> tb_normalRange b)
    (trim <$> tb_units b)
    (trim <$> tb_notes b)
    (trim <$> tb_doctorName b)
    (trim <$> tb_labName b)
    (tb_isAbnormal b)
    (tb_attachments b).

(** [PUT /api/diagnostic-tests/:id]. *)
Definition put_test (s : Store) (c : credential) (id : Z) (b : TestBody)
    : Response * Store :=
  authed s c (fun user =>
  validated s (put_test_errors b)
    match findTest s id (User.id user) with
    | None => (test_not_found, s)
    | Some test =>
        let updated := DiagnosticTest.update (test_updateData b) test in
        let s' := with_tests (save DiagnosticTest.id updated) s in
        let updatedTest :=
          test_view s' <$> findTestByPk s' (DiagnosticTest.id test) in
        (json (MessageTest "Diagnostic test updated successfully" updatedTest),
         s')
    end).

(** [PUT /api/diagnostic-tests/:id/review]. *)
Definition put_review (s : Store) (c : credential) (id : Z)
    : Response * Store :=
  authed s c (fun user =>
    match findTest s id (User.id user) with
    | None => (test_not_found, s)
    | Some test =>
        let test' := DiagnosticTest.markAsReviewed test in
        (json (MessageTest "Diagnostic test marked as reviewed"
                 (Some (mkTestView test' None))),
         with_tests (save DiagnosticTest.id test') s)
    end).

(** [DELETE /api/diagnostic-tests/:id]. *)
Definition delete_test (s : Store) (c : credential) (id : Z)
    : Response * Store :=
  authed s c (fun user =>
    match findTest s id (User.id user) with
    | None => (test_not_found, s)
    | Some test =>
        (json (Message "Diagnostic test deleted successfully"),
         with_tests (destroy DiagnosticTest.id test) s)
    end).

(** [GET /api/diagnostic-tests/stats/summary]. *)
Definition tests_summary (s : Store) (c : credential) (now : Z)
    : Response * Store :=
  authed s c (fun user =>
    let uid := User.id user in
    let by_status st :=
      count (test_where (mkTestWhere uid None (Some st) None None None))
        (tests s) in
    let total := count (test_where (owned_by uid)) (tests s) in
    let abnormal :=
      count (test_where (mkTestWhere uid None None (Some true) None None))
        (tests s) in
    let typeStats :=
      group_count DiagnosticTest.testType
        (List.filter (test_where (owned_by uid)) (tests s)) in
    let thirtyDaysAgo := now - 30 * day_ms in
    let recentCount :=
      count (test_where
               (mkTestWhere uid None None None
                  (Some (midnight (DATEONLY thirtyDaysAgo))) None))
        (tests s) in
    (json (TestSummary total abnormal recentCount
             (object [("pending", by_status "pending");
                      ("completed", by_status "completed");
                      ("reviewed", by_status "reviewed")])
             (reduce_counts typeStats)),
     s)).

(** ** User routes (the router mounted at [/api/users]) and the whole API *)

Record ProfileBody := mkProfileBody {
  pb_name : option string;
  pb_email : option string
}.

Record PreferencesBody := mkPreferencesBody {
  pr_notificationThreshold : option string;
  pr_emailNotifications : option bool;
  pr_theme : option string;
  pr_language : option string
}.

Record PasswordBody := mkPasswordBody {
  pw_currentPassword : option string;
  pw_newPassword : option string;
  pw_confirmPassword : option string
}.

(** Every route of the three routers. *)
Inductive Request :=
| GetAlerts (q : AlertQuery)
| GetActiveAlerts
| GetAlert (id : Z)
| PostAlert (b : AlertBody)
| PutAlert (id : Z) (b : AlertBody)
| PutAcknowledge (id : Z)
| PutResolve (id : Z)
| DeleteAlert (id : Z)
| GetAlertsSummary
| GetTests (q : TestQuery)
| GetRecentTests (days : option Z)
| GetAbnormalTests
| GetTest (id : Z)
| PostTest (b : TestBody)
| PutTest (id : Z) (b : TestBody)
| PutReview (id : Z)
| DeleteTest (id : Z)
| GetTestsSummary
| GetProfile
| PutProfile (b : ProfileBody)
| PutPreferences (b : PreferencesBody)
| PutPassword (b : PasswordBody)
| DeleteAccount
| GetUserStats.

(** [...(cond && { key })] inside an object literal. *)
Definition spread_if (key : string) (v : option jvalue) : gmap string jvalue :=
  match v with Some x => {[ key := x ]} | None => ∅ end.

Section Api.
(** Capabilities the routes call and this development does not look into:
    the e-mail validator and normalizer of express-validator, and the
    password hashing hook and comparison of the User model. *)
Variable isEmail : string -> bool.
Variable normalizeEmail : string -> string.
Variable hashPassword : string -> string.
Variable comparePassword : string -> string -> bool.

(** [GET /api/users/profile]. *)
Definition get_profile (s : Store) (c : credential) : Response * Store :=
  authed s c (fun req_user =>
    match findUserByPk s (User.id req_user) with
    | None => (status_json 404 (Message "User not found"), s)
    | Some user =>
        (json (Profile (User.id user) (User.name user) (User.email user)
                 (User.preferences user) (User.isActive user)
                 (User.lastLogin user) (User.createdAt user)), s)
    end).

Definition put_profile_errors (b : ProfileBody) : list string :=
  check (optional (fun n => isLength 2 (Some 100) (trim n)) (pb_name b))
    "Name must be between 2 and 100 characters"
  ++ check (optional isEmail (pb_email b)) "Please provide a valid email".

(** [PUT /api/users/profile]. *)
Definition put_profile (s : Store) (c : credential) (b : ProfileBody)
    : Response * Store :=
  authed s c (fun req_user =>
  validated s (put_profile_errors b)
    (let name := truthy_str (trim <$> pb_name b) in
     let email := truthy_str (normalizeEmail <$> pb_email b) in
     let existingUser :=
       match email with
       | Some e =>
           findOne (fun u => String.eqb (User.email u) e
                             && negb (User.id u =? User.id req_user))
             (users s)
       | None => None
       end in
     match existingUser with
     | Some _ =>
         (status_json 400 (Message "Email is already taken by another user"),
          s)
     | None =>
         let user := User.update_profile name email req_user in
         (json (MessageProfile "Profile updated successfully" (User.id user)
                  (User.name user) (User.email user) (User.preferences user)),
          with_users (save User.id user) s)
     end)).

Definition put_preferences_errors (b : PreferencesBody) : list string :=
  check (optional (isIn ["low"; "medium"; "high"]) (pr_notificationThreshold b))
    "Notification threshold must be low, medium, or high"
  ++ check (optional (isIn ["light"; "dark"]) (pr_theme b))
       "Theme must be light or dark"
  ++ check (optional (isIn ["en"; "es"; "fr"; "de"]) (pr_language b))
       "Language must be en, es, fr, or de".

(** [PUT /api/users/preferences]. *)
Definition put_preferences (s : Store) (c : credential)
    (b : PreferencesBody) : Response * Store :=
  authed s c (fun req_user =>
  validated s (put_preferences_errors b)
    (let currentPreferences :=
       default (JObj ∅) (truthy_json (Some (User.preferences req_user))) in
     let updatedPreferences :=
       JObj (spread_if "language" (JStr <$> truthy_str (pr_language b))
             ∪ spread_if "theme" (JStr <$> truthy_str (pr_theme b))
             ∪ spread_if "emailNotifications"
                 (JBool <$> pr_emailNotifications b)
             ∪ spread_if "notificationThreshold"
                 (JStr <$> truthy_str (pr_notificationThreshold b))
             ∪ spread currentPreferences) in
     (json (MessagePreferences "Preferences updated successfully"
              updatedPreferences),
      with_users
        (save User.id (User.set_preferences updatedPreferences req_user)) s))).

Definition put_password_errors (b : PasswordBody) : list string :=
  check (isLength 1 None (default "" (pw_currentPassword b)))
    "Current password is required"
  ++ check (isLength 6 None (default "" (pw_newPassword b)))
       "New password must be at least 6 characters long"
  ++ check (bool_decide (pw_confirmPassword b = pw_newPassword b))
       "Password confirmation does not match".

(** [PUT /api/users/password]. *)
Definition put_password (s : Store) (c : credential) (b : PasswordBody)
    : Response * Store :=
  authed s c (fun req_user =>
  validated s (put_password_errors b)
    (if comparePassword (default "" (pw_currentPassword b))
          (User.password req_user)
     then
       (json (Message "Password changed successfully"),
        with_users
          (save User.id
             (User.set_password (hashPassword (default "" (pw_newPassword b)))
                req_user)) s)
     else
       (status_json 400 (Message "Current password is incorrect"), s))).

(** [DELETE /api/users/account]. *)
Definition delete_account (s : Store) (c : credential) : Response * Store :=
  authed s c (fun req_user =>
    (json (Message "Account deactivated successfully"),
     with_users (save User.id (User.set_isActive false req_user)) s)).

(** [GET /api/users/stats]. *)
Definition get_user_stats (s : Store) (c : credential) : Response * Store :=
  authed s c (fun req_user =>
    let uid := User.id req_user in
    (json (Stats
             (count (alert_where (mkAlertWhere uid None None None)) (alerts s))
             (count (alert_where (mkAlertWhere uid (Some "active") None None))
                (alerts s))
             (count (test_where (owned_by uid)) (tests s))
             (User.createdAt req_user) (User.lastLogin req_user)),
     s)).

(** One request against the store at time [now]. *)
Definition handle (s : Store) (c : credential) (now : Z) (r : Request)
    : Response * Store :=
  match r with
  | GetAlerts q => get_alerts s c q
  | GetActiveAlerts => get_active_alerts s c
  | GetAlert id => get_alert s c id
  | PostAlert b => post_alert s c now b
  | PutAlert id b => put_alert s c now id b
  | PutAcknowledge id => put_acknowledge s c now id
  | PutResolve id => put_resolve s c now id
  | DeleteAlert id => delete_alert s c id
  | GetAlertsSummary => alerts_summary s c
  | GetTests q => get_tests s c q
  | GetRecentTests days => get_recent_tests s c now days
  | GetAbnormalTests => get_abnormal_tests s c
  | GetTest id => get_test s c id
  | PostTest b => post_test s c now b
  | PutTest id b => put_test s c id b
  | PutReview id => put_review s c id
  | DeleteTest id => delete_test s c id
  | GetTestsSummary => tests_summary s c now
  | GetProfile => get_profile s c
  | PutProfile b => put_profile s c b
  | PutPreferences b => put_preferences s c b
  | PutPassword b => put_password s c b
  | DeleteAccount => delete_account s c
  | GetUserStats => get_user_stats s c
  end.
End Api.

(** ** Projections used in the statements *)

Definition acknowledgedAt_of (s : Store) (id : Z) : option Z :=
  findAlertByPk s id ≫= Alert.acknowledgedAt.

Definition resolvedAt_of (s : Store) (id : Z) : option Z :=
  findAlertByPk s id ≫= Alert.resolvedAt.

Definition status_of (s : Store) (id : Z) : option string :=
  Alert.status <$> findAlertByPk s id.

Definition metadata_of (s : Store) (id : Z) : option jvalue :=
  Alert.metadata <$> findAlertByPk s id.

Definition alert_rows (r : Response) : list AlertView :=
  match body r with AlertPage rows _ => rows | _ => [] end.

Definition test_rows (r : Response) : list TestView :=
  match body r with TestPage rows _ => rows | _ => [] end.

Definition set_page (p : Z) (q : AlertQuery) : AlertQuery :=
  mkAlertQuery (Some p) (q_limit q) (q_status q) (q_priority q) (q_type q).

Definition set_test_page (p : Z) (q : TestQuery) : TestQuery :=
  mkTestQuery (Some p) (tq_limit q) (tq_testType q) (tq_status q)
    (tq_isAbnormal q) (tq_dateFrom q) (tq_dateTo q).

Definition set_owner (o : option Z) (b : AlertBody) : AlertBody :=
  mkAlertBody (b_title b) (b_message b) (b_status b) (b_priority b)
    (b_type b) (b_metadata b) o.

Definition set_test_owner (o : option Z) (b : TestBody) : TestBody :=
  mkTestBody (tb_name b) (tb_result b) (tb_date b) (tb_testType b)
    (tb_status b) (tb_normalRange b) (tb_units b) (tb_notes b)
    (tb_doctorName b) (tb_labName b) (tb_isAbnormal b) (tb_attachments b) o.

(** Primary keys are unique and below the auto-increment counters. *)
Record store_ok (s : Store) : Prop := mk_store_ok {
  user_ids_unique : NoDup (User.id <$> users s);
  alert_ids_unique : NoDup (Alert.id <$> alerts s);
  test_ids_unique : NoDup (DiagnosticTest.id <$> tests s);
  alert_ids_below : ∀ a, a ∈ alerts s → Alert.id a < alert_seq s;
  test_ids_below : ∀ x, x ∈ tests s → DiagnosticTest.id x < test_seq s
}.

(** ** Predicates of the statements *)



(** The rows of a user, and how many of them carry value [k] in a column. *)
Definition owned_alerts (s : Store) (uid : Z) : list Alert.t :=
  List.filter (fun a => Alert.userId a =? uid) (alerts s).

Definition owned_tests (s : Store) (uid : Z) : list DiagnosticTest.t :=
  List.filter (fun x => DiagnosticTest.userId x =? uid) (tests s).

Definition occurrences {A} (key : A → string) (k : string) (rows : list A) : Z :=
  Z.of_nat (List.length (List.filter (fun r => String.eqb (key r) k) rows)).

(** A grouped map is sparse: a value that occurs is mapped to its count, a
    value that does not occur is not a key. *)
Definition sparse {A} (key : A → string) (rows : list A) (m : gmap string Z)
    : Prop :=
  ∀ k, m !! k = if occurrences key k rows =? 0 then None
                else Some (occurrences key k rows).

(** A grouped map is zero-filled over [keys]: exactly these keys, each with
    its count, zero included. *)
Definition zero_filled {A} (key : A → string) (rows : list A)
    (keys : list string) (m : gmap string Z) : Prop :=
  ∀ k, m !! k = if bool_decide (k ∈ keys) then Some (occurrences key k rows)
                else None.

(** [Number.MAX_SAFE_INTEGER]: up to it the numbers of JavaScript are the
    integers. A list route computes [page - 1] and [(page - 1) * limit] in
    them and sends the product as the [OFFSET]; while the offset stays within
    the bound, the page number, the difference and the product are the
    integers they denote. *)
Definition MAX_SAFE_INTEGER : Z := 2 ^ 53 - 1.

Definition exact_offset (page limit : Z) : Prop :=
  (page - 1) * limit <= MAX_SAFE_INTEGER.

(** The instants a [Date] can hold, in milliseconds either side of the
    epoch; [setDate] gives an invalid date outside. [exact_days]: the period
    of a recent-tests request is a number that is exact and leads from [now]
    to a valid date. *)
Definition Date_max : Z := 8640000000000000.

Definition exact_days (now days : Z) : Prop :=
  Z.abs days <= MAX_SAFE_INTEGER
  ∧ - Date_max <= now - days * day_ms <= Date_max.


(** The order clause leaves no two of the rows tied. *)
Definition no_alert_ties (rows : list Alert.t) : Prop :=
  ∀ a b, a ∈ rows → b ∈ rows →
    priority_rank a = priority_rank b →
    Alert.createdAt a = Alert.createdAt b → a = b.

Definition no_test_ties (rows : list DiagnosticTest.t) : Prop :=
  ∀ x y, x ∈ rows → y ∈ rows →
    DiagnosticTest.date x = DiagnosticTest.date y → x = y.

Ltac unfold_handlers :=
  unfold get_alerts, get_active_alerts, get_alert, post_alert, put_alert,
    put_acknowledge, put_resolve, delete_alert, alerts_summary, get_tests,
    get_recent_tests, get_abnormal_tests, get_test, post_test, put_test,
    put_review, delete_test, tests_summary, get_profile, put_profile,
    put_preferences, put_password, delete_account, get_user_stats,
    create_alert, create_test, authed, validated.

(** ** A small store for the concrete cases *)

Definition alice : User.t :=
  User.mk 1 "Test User" "test@example.com" "hash1" (JObj ∅) true None 0.

Definition bob : User.t :=
  User.mk 2 "Other User" "other@example.com" "hash2" (JObj ∅) true None 0.

Definition alert1 : Alert.t :=
  Alert.mk 1 "Test Alert" None "active" "high" "health" 1 (JObj ∅) None None 10.

Definition alert2 : Alert.t :=
  Alert.mk 2 "Other Alert" None "active" "low" "general" 2 (JObj ∅) None None 20.

Definition test1 : DiagnosticTest.t :=
  DiagnosticTest.mk 1 "Blood Test" "Normal" 19700 "blood" "cancelled" None None
    None 1 None None false [] 30.

Definition test2 : DiagnosticTest.t :=
  DiagnosticTest.mk 2 "X-Ray" "Clear" 19701 "imaging" "completed" None None
    None 2 None None false [] 40.

(** An engine that returns tied rows in the order of their primary keys. *)
Definition by_id : Z -> Z := fun id => id.

Definition store0 : Store :=
  mkStore [alice; bob] [alert1; alert2] [test1; test2] 3 3 by_id.

Definition empty_store : Store := mkStore [alice] [] [] 1 1 by_id.

(** A store with several rows of one user, two of them tied under the order
    clause of their table ([alert4] and [alert5]; [test4] and [test5]). *)
Definition alert3 : Alert.t :=
  Alert.mk 3 "Chest pain" None "active" "critical" "health" 1 (JObj ∅) None
    None 30.

Definition alert4 : Alert.t :=
  Alert.mk 4 "Refill due" None "active" "low" "reminder" 1 (JObj ∅) None
    None 40.

Definition alert5 : Alert.t :=
  Alert.mk 5 "Refill sent" None "acknowledged" "low" "reminder" 1 (JObj ∅)
    (Some 45) None 40.

Definition alert6 : Alert.t :=
  Alert.mk 6 "Lab result" None "active" "high" "diagnostic" 1 (JObj ∅) None
    None 50.

Definition test3 : DiagnosticTest.t :=
  DiagnosticTest.mk 3 "ECG" "Irregular" 19710 "cardiac" "pending" None None
    None 1 None None true [] 50.

Definition test4 : DiagnosticTest.t :=
  DiagnosticTest.mk 4 "Lipids" "High" 19705 "blood" "completed" None None
    None 1 None None true [] 60.

Definition test5 : DiagnosticTest.t :=
  DiagnosticTest.mk 5 "Urinalysis" "Normal" 19705 "urine" "reviewed" None None
    None 1 None None false [] 70.

Definition store1 : Store :=
  mkStore [alice; bob] [alert1; alert2; alert3; alert4; alert5; alert6]
    [test1; test2; test3; test4; test5] 7 6 by_id.

(** An engine that returns tied rows by descending primary key. *)
Definition by_id_desc : Z -> Z := fun id => - id.

Definition all_alerts : AlertQuery :=
  mkAlertQuery None None None None None.

Definition active_by_two : AlertQuery :=
  mkAlertQuery None (Some 2) (Some "active") None None.

Definition low_by_one : AlertQuery :=
  mkAlertQuery None (Some 1) None (Some "low") None.

Definition abnormal_by_one : TestQuery :=
  mkTestQuery None (Some 1) None None (Some "true") None None.

(** The no-break space U+00A0 and the letter U+00E9, in UTF-8. *)
Definition nbsp : string :=
  String (ascii_of_nat 194) (String (ascii_of_nat 160) EmptyString).

Definition e_acute : string :=
  String (ascii_of_nat 195) (String (ascii_of_nat 169) EmptyString).

(** U+1F600, a character outside the basic plane: four bytes in UTF-8, a
    surrogate pair in JavaScript. *)
Definition grinning_face : string :=
  String (ascii_of_nat 240)
    (String (ascii_of_nat 159)
       (String (ascii_of_nat 152) (String (ascii_of_nat 128) EmptyString))).




(** Noon of day 19735. *)
Definition noon : Z := 19735 * day_ms + 43200000.

(** An engine that changes its mind after the first page. *)
Definition fickle (k : nat) : Z -> Z :=
  if (k =? 1)%nat then by_id else by_id_desc.

Definition no_alert_body : AlertBody :=
  mkAlertBody None None None None None None None.

Definition status_body (st : string) : AlertBody :=
  mkAlertBody None None (Some st) None None None None.

Definition metadata_body (m : jvalue) : AlertBody :=
  mkAlertBody None None None None None (Some m) None.


Definition all_tests : TestQuery :=
  mkTestQuery None None None None None None None.

Definition alert_with_owner : AlertBody :=
  mkAlertBody (Some "Test Alert") None None (Some "high") (Some "health")
    None (Some 2).

Definition test_with_owner : TestBody :=
  mkTestBody (Some "Blood Test") (Some "Normal") (Some 19700) None None None
    None None None None (Some true) None (Some 2).

(** ** The optional middleware, column domains and the client's session *)

(** [optionalAuth] of [backend/middleware/auth.js]: [req.user] is set when
    the token resolves to an active user; the request goes on either way. *)
Definition optionalAuth (s : Store) (c : credential) : option User.t :=
  match c with
  | Verified id =>
      match findUserByPk s id with
      | Some user => if User.isActive user then Some user else None
      | None => None
      end
  | _ => None
  end.

(** Every enumerated column holds one of its declared values. *)
Definition alert_columns_valid (a : Alert.t) : Prop :=
  Alert.status a ∈ Alert.status_enum
  ∧ Alert.priority a ∈ Alert.priority_enum
  ∧ Alert.type a ∈ Alert.type_values.

Definition test_columns_valid (x : DiagnosticTest.t) : Prop :=
  DiagnosticTest.testType x ∈ DiagnosticTest.testType_values
  ∧ DiagnosticTest.status x ∈ DiagnosticTest.status_enum.

Definition columns_valid (s : Store) : Prop :=
  (∀ a, a ∈ alerts s → alert_columns_valid a)
  ∧ (∀ x, x ∈ tests s → test_columns_valid x).

(** The value a preferences body supplies for a key, if any. *)
Definition supplied_preference (b : PreferencesBody) (k : string)
    : option jvalue :=
  if String.eqb k "notificationThreshold"
  then JStr <$> pr_notificationThreshold b
  else if String.eqb k "emailNotifications"
  then JBool <$> pr_emailNotifications b
  else if String.eqb k "theme" then JStr <$> pr_theme b
  else if String.eqb k "language" then JStr <$> pr_language b
  else None.

(** The routes that only read. *)
Definition is_get (r : Request) : bool :=
  match r with
  | GetAlerts _ | GetActiveAlerts | GetAlert _ | GetAlertsSummary
  | GetTests _ | GetRecentTests _ | GetAbnormalTests | GetTest _
  | GetTestsSummary | GetProfile | GetUserStats => true
  | _ => false
  end.

Definition empty_alert_body : AlertBody :=
  mkAlertBody None None None None None None None.

Definition empty_test_body : TestBody :=
  mkTestBody None None None None None None None None None None None None None.

(** The session reducer of the client ([frontend/src/contexts/AuthContext.js]).
    Beside the React state it touches two things of the browser: the
    [token] item of localStorage and the default [Authorization] header of
    axios. *)
Module AuthContext.
Record state := mkState {
  user : jvalue;
  token : option string;
  isAuthenticated : bool;
  isLoading : bool;
  error : option string
}.

Record browser := mkBrowser {
  localStorage_token : option string;
  axios_Authorization : option string
}.

Inductive action :=
| LOGIN_START
| LOGIN_SUCCESS (payload_user : jvalue) (payload_token : string)
| LOGIN_FAILURE (payload : option string)
| LOGOUT
| REGISTER_START
| REGISTER_SUCCESS (payload_user : jvalue) (payload_token : string)
| REGISTER_FAILURE (payload : option string)
| LOAD_USER_START
| LOAD_USER_SUCCESS (payload_user : jvalue)
| LOAD_USER_FAILURE (payload : option string)
| UPDATE_USER (payload : jvalue)
| CLEAR_ERROR
| UNKNOWN.

Definition initialState (b : browser) : state :=
  mkState JNull (localStorage_token b) false true None.

Definition start (st : state) (b : browser) : state * browser :=
  (mkState (user st) (token st) (isAuthenticated st) true None, b).

Definition signed_in (u : jvalue) (t : string) (st : state) (b : browser)
    : state * browser :=
  (mkState u (Some t) true false None,
   mkBrowser (Some t) (Some (String.append "Bearer " t))).

Definition signed_out (e : option string) (st : state) (b : browser)
    : state * browser :=
  (mkState JNull None false false e, mkBrowser None None).

Definition authReducer (st : state) (b : browser) (a : action)
    : state * browser :=
  match a with
  | LOGIN_START | REGISTER_START | LOAD_USER_START => start st b
  | LOGIN_SUCCESS u t | REGISTER_SUCCESS u t => signed_in u t st b
  | LOAD_USER_SUCCESS u =>
      (mkState u (token st) true false None, b)
  | LOGIN_FAILURE e | REGISTER_FAILURE e | LOAD_USER_FAILURE e =>
      signed_out e st b
  | LOGOUT => signed_out None st b
  | UPDATE_USER payload =>
      (mkState (JObj (spread payload ∪ spread (user st))) (token st)
         (isAuthenticated st) (isLoading st) (error st), b)
  | CLEAR_ERROR =>
      (mkState (user st) (token st) (isAuthenticated st) (isLoading st) None, b)
  | UNKNOWN => (st, b)
  end.

(** The actions dispatched one after the other. *)
Definition dispatch_all (start_ : state * browser) (actions : list action)
    : state * browser :=
  foldl (fun sb a => authReducer sb.1 sb.2 a) start_ actions.

Definition is_success (a : action) : bool :=
  match a with
  | LOGIN_SUCCESS _ _ | REGISTER_SUCCESS _ _ | LOAD_USER_SUCCESS _ => true
  | _ => false
  end.
End AuthContext.

(** The session state and the browser agree on the credential. *)
Definition in_sync (sb : AuthContext.state * AuthContext.browser) : Prop :=
  AuthContext.token sb.1 = AuthContext.localStorage_token sb.2
  ∧ (AuthContext.axios_Authorization sb.2 = None
     ∨ ∃ t, AuthContext.token sb.1 = Some t
            ∧ AuthContext.axios_Authorization sb.2
              = Some (String.append "Bearer " t)).

(** Inputs of the concrete cases. *)
Definition theme_body : PreferencesBody :=
  mkPreferencesBody None None (Some "dark") None.

Definition returning_browser : AuthContext.browser :=
  AuthContext.mkBrowser (Some "stored-token") None.

Definition login_then_logout : list AuthContext.action :=
  [AuthContext.LOAD_USER_START;
   AuthContext.LOGIN_SUCCESS (JObj {[ "name" := JStr "Test User" ]}) "fresh-token";
   AuthContext.UPDATE_USER (JObj {[ "name" := JStr "New Name" ]});
   AuthContext.LOGOUT].

(** * Properties *)

(** ** The embedding on small inputs *)

Example trim_both_ends : trim "  Test Alert 	" = "Test Alert".
Proof. reflexivity. Qed.

Example trim_blank : trim "   " = "".
Proof. reflexivity. Qed.

(** White space beyond ASCII is stripped as well, and a character of
    several bytes counts once. *)
Example trim_no_break_space :
  trim (String.append nbsp (String.append " Chest pain " nbsp)) = "Chest pain"
  ∧ trim nbsp = "".
Proof. split; reflexivity. Qed.

Example strlen_characters :
  strlen "abc" = 3 ∧ strlen e_acute = 1
  ∧ strlen (String.append "caf" e_acute) = 4
  ∧ strlen grinning_face = 1.
Proof. repeat split; reflexivity. Qed.

(** Two hundred letters of two bytes each are a title of two hundred
    characters, which [isLength] lets pass; 256 letters are too many. *)
Example isLength_counts_characters :
  isLength 1 (Some 255) (join (replicate 200 e_acute)) = true
  ∧ isLength 1 (Some 255) (join (replicate 256 e_acute)) = false.
Proof. split; vm_compute; reflexivity. Qed.

(** At any time of day 19735 the day is 19735, and thirty days before is
    day 19705. *)
Example DATEONLY_of_noon :
  DATEONLY noon = 19735 ∧ DATEONLY (19735 * day_ms) = 19735
  ∧ DATEONLY (noon - 30 * day_ms) = 19705.
Proof. repeat split; reflexivity. Qed.

Example index_key_decimal :
  index_key 0 = "0" ∧ index_key 7 = "7" ∧ index_key 10 = "10"
  ∧ index_key 123 = "123".
Proof. repeat split; reflexivity. Qed.

Example spread_of_string :
  spread (JStr "ab") = {[ "0" := JStr "a"; "1" := JStr "b" ]}.
Proof. vm_compute. reflexivity. Qed.

Example enum_index_priority :
  enum_index Alert.priority_enum "low" = 1
  ∧ enum_index Alert.priority_enum "critical" = 4
  ∧ enum_index Alert.priority_enum "urgent" = 0.
Proof. repeat split; reflexivity. Qed.

Example ceil_examples :
  Math_ceil_div 0 10 = 0 ∧ Math_ceil_div 1 10 = 1 ∧ Math_ceil_div 10 10 = 1
  ∧ Math_ceil_div 11 10 = 2.
Proof. repeat split; reflexivity. Qed.

(** A fresh user sees an empty list with [totalItems: 0]. *)
Example empty_list :
  get_alerts empty_store (Verified 1) (mkAlertQuery None None None None None)
  = (json (AlertPage [] (mkPagination 1 0 0 10 false false)), empty_store).
Proof. vm_compute. reflexivity. Qed.

(** The alert of user 1 has priority high: it is the answer to
    [?priority=high], and [?priority=low] has no answer. *)
Example filter_by_priority :
  alert_rows (get_alerts store0 (Verified 1)
                (mkAlertQuery None None None (Some "high") None)).1
  = [mkAlertView alert1 (Some (User.summarize alice))]
  ∧ alert_rows (get_alerts store0 (Verified 1)
                  (mkAlertQuery None None None (Some "low") None)).1
    = [].
Proof. split; vm_compute; reflexivity. Qed.

(** Invalid parameters are rejected before any query. *)
Example limit_out_of_range :
  get_alerts store0 (Verified 1) (mkAlertQuery None (Some 101) None None None)
  = (status_json 400 (ValidationFailed ["Limit must be between 1 and 100"]),
     store0).
Proof. vm_compute. reflexivity. Qed.

(** An inactive or unknown user is turned away. *)
Example unknown_user_denied :
  get_alerts store0 (Verified 7) (mkAlertQuery None None None None None)
  = (status_json 401
       (Message "Access denied. Invalid token or user inactive."), store0).
Proof. vm_compute. reflexivity. Qed.

(** The generic update applied twice: the second
    [PUT {status: "acknowledged"}] leaves [acknowledgedAt] where the first
    put it. *)
Example generic_update_twice :
  let s1 := (put_alert store0 (Verified 1) 1000 1 (status_body "acknowledged")).2 in
  let s2 := (put_alert s1 (Verified 1) 2000 1 (status_body "acknowledged")).2 in
  acknowledgedAt_of s1 1 = Some 1000 ∧ acknowledgedAt_of s2 1 = Some 1000.
Proof. split; vm_compute; reflexivity. Qed.

(** ** Status transitions and their timestamps *)

(** The dedicated transitions write the timestamp whatever it was. *)
Lemma acknowledge_sets_now now a :
  Alert.status (Alert.acknowledge now a) = "acknowledged"
  ∧ Alert.acknowledgedAt (Alert.acknowledge now a) = Some now.
Proof. split; reflexivity. Qed.

Lemma resolve_sets_now now a :
  Alert.status (Alert.resolve now a) = "resolved"
  ∧ Alert.resolvedAt (Alert.resolve now a) = Some now.
Proof. split; reflexivity. Qed.

(** The generic update writes a timestamp only into an empty column. *)
Lemma update_keeps_acknowledgedAt now a b t :
  Alert.acknowledgedAt a = Some t →
  Alert.acknowledgedAt (Alert.update (alert_updateData now a b) a) = Some t.
Proof.
  intros Ht. unfold Alert.update, alert_updateData. cbn.
  rewrite Ht. by destruct (truthy_str (b_status b)).
Qed.

Lemma update_keeps_resolvedAt now a b t :
  Alert.resolvedAt a = Some t →
  Alert.resolvedAt (Alert.update (alert_updateData now a b) a) = Some t.
Proof.
  intros Ht. unfold Alert.update, alert_updateData. cbn.
  rewrite Ht. by destruct (truthy_str (b_status b)).
Qed.

(** On an alert that was never acknowledged the two paths write the same
    status and the same timestamp. *)
Lemma paths_agree_on_first_acknowledge now a :
  Alert.acknowledgedAt a = None →
  Alert.update (alert_updateData now a (status_body "acknowledged")) a
  = Alert.acknowledge now a.
Proof.
  intros Hn. destruct a as [? ? ? ? ? ? ? ? ack res ?]. cbn in Hn. subst ack.
  by destruct res.
Qed.

Lemma paths_agree_on_first_resolve now a :
  Alert.resolvedAt a = None →
  Alert.update (alert_updateData now a (status_body "resolved")) a
  = Alert.resolve now a.
Proof.
  intros Hn. destruct a as [? ? ? ? ? ? ? ? ack res ?]. cbn in Hn. subst res.
  by destruct ack.
Qed.

(** C1. Acknowledging alert 1 at time 1000 and again at time 2000 through
    [PUT /api/alerts/1/acknowledge] leaves [acknowledgedAt] at 2000, not at
    the 1000 of the first call; resolving twice moves [resolvedAt] the same
    way. The property the specification asks for (the second call leaves the
    timestamp where the first put it) fails on this input. *)
Theorem reacknowledge_moves_timestamp :
  let s1 := (put_acknowledge store0 (Verified 1) 1000 1).2 in
  let s2 := (put_acknowledge s1 (Verified 1) 2000 1).2 in
  let r1 := (put_resolve store0 (Verified 1) 1000 1).2 in
  let r2 := (put_resolve r1 (Verified 1) 2000 1).2 in
  acknowledgedAt_of s1 1 = Some 1000
  ∧ acknowledgedAt_of s2 1 = Some 2000
  ∧ resolvedAt_of r1 1 = Some 1000
  ∧ resolvedAt_of r2 1 = Some 2000.
Proof. repeat split; vm_compute; reflexivity. Qed.

(** C2. On alert 1, acknowledged at time 1000, a second acknowledgement at
    time 2000 gives status "acknowledged" on both paths, but the generic
    update [PUT /api/alerts/1 {status: "acknowledged"}] keeps
    [acknowledgedAt] at 1000 while the dedicated
    [PUT /api/alerts/1/acknowledge] moves it to 2000; the same for resolve.
    The two paths are not equivalent for the timestamp rule. *)
Theorem dedicated_and_generic_paths_differ :
  let s1 := (put_alert store0 (Verified 1) 1000 1 (status_body "acknowledged")).2 in
  let generic := (put_alert s1 (Verified 1) 2000 1 (status_body "acknowledged")).2 in
  let dedicated := (put_acknowledge s1 (Verified 1) 2000 1).2 in
  let r1 := (put_alert store0 (Verified 1) 1000 1 (status_body "resolved")).2 in
  let generic_r := (put_alert r1 (Verified 1) 2000 1 (status_body "resolved")).2 in
  let dedicated_r := (put_resolve r1 (Verified 1) 2000 1).2 in
  acknowledgedAt_of s1 1 = Some 1000
  ∧ status_of generic 1 = Some "acknowledged"
  ∧ status_of dedicated 1 = Some "acknowledged"
  ∧ acknowledgedAt_of generic 1 = Some 1000
  ∧ acknowledgedAt_of dedicated 1 = Some 2000
  ∧ resolvedAt_of r1 1 = Some 1000
  ∧ resolvedAt_of generic_r 1 = Some 1000
  ∧ resolvedAt_of dedicated_r 1 = Some 2000.
Proof. repeat split; vm_compute; reflexivity. Qed.

(** ** Middleware, validation and query lemmas *)

Lemma check_app_nil ok msg rest :
  (check ok msg ++ rest)%list = [] ↔ ok = true ∧ rest = [].
Proof.
  destruct ok; cbn; split; try done.
  - by intros [_ ->].
  - by intros [? _].
Qed.

Lemma check_nil ok msg : check ok msg = [] ↔ ok = true.
Proof. destruct ok; cbn; split; done. Qed.

Lemma authed_ok s c user handler :
  auth s c = inl user → authed s c handler = handler user.
Proof. unfold authed. by intros ->. Qed.

Lemma validated_ok s errors handler :
  errors = [] → validated s errors handler = handler.
Proof. by intros ->. Qed.

Lemma findOne_Some {A} (p : A → bool) rows x :
  findOne p rows = Some x → x ∈ rows ∧ p x = true.
Proof.
  unfold findOne. intros H. apply find_some in H as [Hin Hp].
  split; [by apply list_elem_of_In | done].
Qed.

Lemma findOne_None {A} (p : A → bool) rows :
  findOne p rows = None ↔ ∀ x, x ∈ rows → p x = false.
Proof.
  unfold findOne. split.
  - intros H x Hx. apply (find_none _ _ H). by apply list_elem_of_In.
  - intros H. destruct (List.find p rows) as [x|] eqn:E; [|done].
    apply find_some in E as [Hin Hp]. apply list_elem_of_In in Hin.
    rewrite (H x Hin) in Hp. done.
Qed.

(** With unique keys, looking a row up by its key finds that row. *)
Lemma findOne_unique {A} (pk : A → Z) (p : A → bool) rows x :
  NoDup (pk <$> rows) → x ∈ rows → p x = true →
  (∀ y, p y = true → pk y = pk x) →
  findOne p rows = Some x.
Proof.
  intros Hnd Hx Hp Hkey. induction rows as [|r rows IH]; [by inversion Hx|].
  cbn in Hnd. apply NoDup_cons in Hnd as [Hr Hnd]. unfold findOne. cbn.
  destruct (p r) eqn:Er.
  - apply elem_of_cons in Hx as [->|Hx]; [done|].
    exfalso. apply Hr. rewrite (Hkey r Er). by apply list_elem_of_fmap_2.
  - apply elem_of_cons in Hx as [->|Hx]; [congruence|]. by apply IH.
Qed.

(** What a successful [auth] says about the user it resolved. *)
Lemma auth_ok s c user :
  auth s c = inl user →
  c = Verified (User.id user) ∧ user ∈ users s ∧ User.isActive user = true
  ∧ findUserByPk s (User.id user) = Some user.
Proof.
  destruct c; cbn; try done.
  destruct (findUserByPk s id) as [u|] eqn:E; [|done].
  destruct (User.isActive u) eqn:Ea; [|done].
  intros [= <-]. apply findOne_Some in E as Hu. destruct Hu as [Hin Hid].
  apply Z.eqb_eq in Hid. subst id. done.
Qed.

Lemma elem_of_filter_bool {A} (p : A → bool) rows x :
  x ∈ List.filter p rows ↔ x ∈ rows ∧ p x = true.
Proof. rewrite !list_elem_of_In. apply filter_In. Qed.


Lemma length_merge_sort {A} (R : relation A) `{∀ x y, Decision (R x y)} l :
  List.length (merge_sort R l) = List.length l.
Proof. by rewrite merge_sort_Permutation. Qed.


(** Valid values of an enumeration are not the empty string, so a validated
    filter is always taken into the where clause. *)
Lemma truthy_str_isIn allowed v :
  "" ∉ allowed → isIn allowed v = true → truthy_str (Some v) = Some v.
Proof.
  intros Hne Hin. apply bool_decide_eq_true in Hin. cbn.
  destruct (String.eqb v "") eqn:E; [|done].
  apply String.eqb_eq in E. by subst.
Qed.

Lemma truthy_str_optional allowed o :
  "" ∉ allowed → optional (isIn allowed) o = true → truthy_str o = o.
Proof. destruct o; [apply truthy_str_isIn | done]. Qed.


Lemma parseInt_or_valid lo hi x d :
  1 <= lo → lo <= d → (∀ h, hi = Some h → d <= h) →
  optional (isInt lo hi) x = true →
  lo <= parseInt_or x d ∧ (∀ h, hi = Some h → parseInt_or x d <= h).
Proof.
  intros Hlo Hd Hh. destruct x as [n|]; cbn; [|by auto].
  unfold isInt. rewrite andb_true_iff, Z.leb_le. intros [Hn Hhi].
  destruct (Z.eqb_spec n 0); [lia|]. split; [done|].
  intros h ->. by apply Z.leb_le.
Qed.


(** ** Owner scoping and filters of the list endpoints *)

Lemma alert_query_valid q :
  alert_query_errors q = [] →
  optional (isInt 1 None) (q_page q) = true
  ∧ optional (isInt 1 (Some 100)) (q_limit q) = true
  ∧ truthy_str (q_status q) = q_status q
  ∧ truthy_str (q_priority q) = q_priority q
  ∧ truthy_str (q_type q) = q_type q.
Proof.
  unfold alert_query_errors. rewrite !check_app_nil, check_nil.
  intros (Hp & Hl & Hs & Hpr & Ht). repeat split; try done.
  - apply (truthy_str_optional Alert.status_enum); [|done].
    compute_done.
  - apply (truthy_str_optional Alert.priority_enum); [|done].
    compute_done.
  - apply (truthy_str_optional Alert.type_values); [|done].
    compute_done.
Qed.


Lemma test_query_valid q :
  test_query_errors q = [] →
  optional (isInt 1 None) (tq_page q) = true
  ∧ optional (isInt 1 (Some 100)) (tq_limit q) = true
  ∧ truthy_str (tq_testType q) = tq_testType q
  ∧ truthy_str (tq_status q) = tq_status q.
Proof.
  unfold test_query_errors. rewrite !check_app_nil, check_nil.
  intros (Hp & Hl & Ht & Hs & _). repeat split; try done.
  - apply (truthy_str_optional DiagnosticTest.testType_values); [|done].
    compute_done.
  - apply (truthy_str_optional DiagnosticTest.status_enum); [|done].
    compute_done.
Qed.

Lemma midnight_le a b : midnight a <= midnight b ↔ a <= b.
Proof. unfold midnight, day_ms. lia. Qed.


Lemma get_alerts_ok s c user q :
  auth s c = inl user → alert_query_errors q = [] →
  get_alerts s c q =
    (json (AlertPage
             (alert_view s <$>
                limit_offset (parseInt_or (q_limit q) 10)
                  ((parseInt_or (q_page q) 1 - 1) * parseInt_or (q_limit q) 10)
                  (alerts_matching s (alert_whereClause user q)))
             (page_info (parseInt_or (q_page q) 1) (parseInt_or (q_limit q) 10)
                (count (alert_where (alert_whereClause user q)) (alerts s)))),
     s).
Proof.
  intros Ha Hv. unfold get_alerts.
  by rewrite (authed_ok _ _ _ _ Ha), (validated_ok _ _ _ Hv).
Qed.

Lemma get_tests_ok s c user q :
  auth s c = inl user → test_query_errors q = [] →
  get_tests s c q =
    (json (TestPage
             (test_view s <$>
                limit_offset (parseInt_or (tq_limit q) 10)
                  ((parseInt_or (tq_page q) 1 - 1) * parseInt_or (tq_limit q) 10)
                  (tests_matching s (test_whereClause user q)))
             (page_info (parseInt_or (tq_page q) 1) (parseInt_or (tq_limit q) 10)
                (count (test_where (test_whereClause user q)) (tests s)))),
     s).
Proof.
  intros Ha Hv. unfold get_tests.
  by rewrite (authed_ok _ _ _ _ Ha), (validated_ok _ _ _ Hv).
Qed.

Lemma set_page_valid p q :
  1 <= p → alert_query_errors q = [] → alert_query_errors (set_page p q) = [].
Proof.
  unfold alert_query_errors. rewrite !check_app_nil, !check_nil. cbn.
  intros Hp (_ & H). split; [|done]. unfold isInt. rewrite andb_true_r.
  by apply Z.leb_le.
Qed.

Lemma set_test_page_valid p q :
  1 <= p → test_query_errors q = [] → test_query_errors (set_test_page p q) = [].
Proof.
  unfold test_query_errors. rewrite !check_app_nil, !check_nil. cbn.
  intros Hp (_ & H). split; [|done]. unfold isInt. rewrite andb_true_r.
  by apply Z.leb_le.
Qed.

Lemma limit_valid x :
  optional (isInt 1 (Some 100)) x = true → 1 <= parseInt_or x 10 <= 100.
Proof.
  intros H.
  destruct (parseInt_or_valid 1 (Some 100) x 10) as [H1 H2]; try done; try lia.
  - intros h [= <-]. lia.
  - split; [done|]. by apply H2.
Qed.

Lemma page_valid x :
  optional (isInt 1 None) x = true → 1 <= parseInt_or x 1.
Proof.
  intros H.
  destruct (parseInt_or_valid 1 None x 1) as [H1 _]; try done; lia.
Qed.




(** ** Pagination *)

(** [Math.ceil(n / d)] is the least number of pages of size [d] that hold
    [n] rows. *)
Lemma Math_ceil_div_spec n d :
  1 <= d → 0 <= n →
  (Math_ceil_div n d - 1) * d < n <= Math_ceil_div n d * d.
Proof.
  intros Hd Hn. unfold Math_ceil_div.
  pose proof (Z.div_mod (- n) d ltac:(lia)) as Hdm.
  pose proof (Z.mod_pos_bound (- n) d ltac:(lia)) as Hmod.
  lia.
Qed.

Lemma page_info_spec p P N :
  1 <= P → 0 <= N →
  currentPage (page_info p P N) = p
  ∧ itemsPerPage (page_info p P N) = P
  ∧ totalItems (page_info p P N) = N
  ∧ (totalPages (page_info p P N) - 1) * P < N
      <= totalPages (page_info p P N) * P
  ∧ (hasNextPage (page_info p P N) = true ↔ p < totalPages (page_info p P N))
  ∧ (hasPrevPage (page_info p P N) = true ↔ 1 < p).
Proof.
  intros HP HN. cbn. rewrite !Z.ltb_lt.
  pose proof (Math_ceil_div_spec N P HP HN). repeat split; tauto || lia.
Qed.

(** The first [n] pages of size [limit], one after the other, are the first
    [n * limit] rows. *)
Lemma pages_take {A} (l : list A) limit n :
  1 <= limit →
  concat ((fun k => limit_offset limit ((Z.of_nat k - 1) * limit) l)
            <$> seq 1 n)
  = take (n * Z.to_nat limit) l.
Proof.
  intros Hl. induction n as [|n IH]; [done|].
  rewrite seq_S, fmap_app, concat_app, IH. cbn [fmap list_fmap concat].
  rewrite app_nil_r. unfold limit_offset.
  replace (Z.to_nat ((Z.of_nat (1 + n) - 1) * limit))
    with (n * Z.to_nat limit)%nat by lia.
  rewrite take_take_drop. f_equal. lia.
Qed.

Lemma pages_concat {A} (l : list A) limit T :
  1 <= limit → Z.of_nat (List.length l) <= T * limit →
  concat ((fun k => limit_offset limit ((Z.of_nat k - 1) * limit) l)
            <$> seq 1 (Z.to_nat T))
  = l.
Proof.
  intros Hl HT. rewrite pages_take by done. apply take_ge.
  destruct (Z.le_gt_cases 0 T); [|nia].
  apply Nat2Z.inj_le. rewrite Nat2Z.inj_mul, !Z2Nat.id; lia.
Qed.

Lemma count_matching {A} (R : relation A) `{∀ x y, Decision (R x y)}
    {B} (f : A → B) (p : A → bool) rows :
  count p rows = Z.of_nat (List.length (f <$> merge_sort R (List.filter p rows))).
Proof. unfold count. by rewrite length_fmap, length_merge_sort. Qed.

(** The order in which a statement returns its rows refines the order
    clause, whatever the engine does with ties. *)
Lemma alert_order_of_order rank a b : alert_order_of rank a b → alert_order a b.
Proof. unfold alert_order_of, alert_order. lia. Qed.

Lemma test_order_of_order rank x y : test_order_of rank x y → test_order x y.
Proof. unfold test_order_of, test_order. lia. Qed.

#[global] Instance alert_order_of_total rank : Total (alert_order_of rank).
Proof. intros a b. unfold alert_order_of. lia. Qed.

#[global] Instance alert_order_of_trans rank : Transitive (alert_order_of rank).
Proof. intros a b d. unfold alert_order_of. lia. Qed.

#[global] Instance test_order_of_total rank : Total (test_order_of rank).
Proof. intros a b. unfold test_order_of. lia. Qed.

#[global] Instance test_order_of_trans rank : Transitive (test_order_of rank).
Proof. intros a b d. unfold test_order_of. lia. Qed.

Lemma StronglySorted_weaken {A} (R S : relation A) l :
  (∀ x y, R x y → S x y) → StronglySorted R l → StronglySorted S l.
Proof.
  intros HRS. induction 1 as [|x l Hs IH Hf]; constructor; [done|].
  eapply Forall_impl; [exact Hf|]. intros y. apply HRS.
Qed.

Lemma alerts_matching_sorted s w :
  StronglySorted alert_order (alerts_matching s w).
Proof.
  eapply StronglySorted_weaken; [apply (alert_order_of_order (ties s))|].
  apply StronglySorted_merge_sort; apply _.
Qed.

Lemma tests_matching_sorted s w :
  StronglySorted test_order (tests_matching s w).
Proof.
  eapply StronglySorted_weaken; [apply (test_order_of_order (ties s))|].
  apply StronglySorted_merge_sort; apply _.
Qed.

Lemma alerts_matching_perm s w :
  alerts_matching s w ≡ₚ List.filter (alert_where w) (alerts s).
Proof. unfold alerts_matching. apply merge_sort_Permutation. Qed.

Lemma tests_matching_perm s w :
  tests_matching s w ≡ₚ List.filter (test_where w) (tests s).
Proof. unfold tests_matching. apply merge_sort_Permutation. Qed.

(** Rows that an order does not tie have a single sorted arrangement. *)
Lemma sorted_arrangement_unique {A} (R : relation A) (l1 l2 : list A) :
  (∀ x y, x ∈ l1 → y ∈ l1 → R x y → R y x → x = y) →
  StronglySorted R l1 → StronglySorted R l2 → l1 ≡ₚ l2 → l1 = l2.
Proof.
  revert l2. induction l1 as [|x l1 IH]; intros l2 Hanti H1 H2 Hp.
  - by apply Permutation_nil_l in Hp.
  - destruct l2 as [|y l2]; [by apply Permutation_nil_r in Hp|].
    apply StronglySorted_inv in H1 as [H1 Hx].
    apply StronglySorted_inv in H2 as [H2 Hy].
    rewrite Forall_forall in Hx, Hy.
    assert (x = y) as <-.
    { assert (x ∈ y :: l2) as Hxin by (rewrite <- Hp; left).
      assert (y ∈ x :: l1) as Hyin by (rewrite Hp; left).
      apply elem_of_cons in Hxin as [?|Hxin]; [done|].
      apply elem_of_cons in Hyin as [?|Hyin]; [done|].
      apply Hanti; [left | by right | by apply Hx | by apply Hy]. }
    f_equal. apply IH; [|done|done|by apply Permutation_cons_inv in Hp].
    intros a b Ha Hb. apply Hanti; by right.
Qed.

(** When the order clause ties no two matching rows, the engine has no
    choice: every statement returns them in the same order. *)
Lemma alerts_matching_untied rank s w :
  no_alert_ties (List.filter (alert_where w) (alerts s)) →
  alerts_matching (with_ties rank s) w = alerts_matching s w.
Proof.
  intros Hno. apply (sorted_arrangement_unique alert_order).
  - intros a b Ha Hb Hab Hba. rewrite alerts_matching_perm in Ha, Hb.
    apply Hno; [done|done| |]; unfold alert_order in *; lia.
  - apply alerts_matching_sorted.
  - apply alerts_matching_sorted.
  - by rewrite !alerts_matching_perm.
Qed.

Lemma tests_matching_untied rank s w :
  no_test_ties (List.filter (test_where w) (tests s)) →
  tests_matching (with_ties rank s) w = tests_matching s w.
Proof.
  intros Hno. apply (sorted_arrangement_unique test_order).
  - intros a b Ha Hb Hab Hba. rewrite tests_matching_perm in Ha, Hb.
    apply Hno; [done|done|]; unfold test_order in *; lia.
  - apply tests_matching_sorted.
  - apply tests_matching_sorted.
  - by rewrite !tests_matching_perm.
Qed.

Lemma auth_with_ties rank s c : auth (with_ties rank s) c = auth s c.
Proof. done. Qed.

Lemma parseInt_or_Some n d : n ≠ 0 → parseInt_or (Some n) d = n.
Proof. intros Hn. cbn. by destruct (Z.eqb_spec n 0). Qed.

Lemma parseInt_or_default lo hi x d :
  1 <= lo → optional (isInt lo hi) x = true → parseInt_or x d = default d x.
Proof.
  intros Hlo. destruct x as [n|]; [|done]. cbn. unfold isInt.
  intros [H%Z.leb_le _]%andb_true_iff. destruct (Z.eqb_spec n 0); [lia|done].
Qed.

(** The page metadata of one list request. *)
Lemma alerts_page_info s c user q :
  auth s c = inl user → alert_query_errors q = [] →
  let P := parseInt_or (q_limit q) 10 in
  let p := parseInt_or (q_page q) 1 in
  let N := Z.of_nat (List.length
                       (List.filter (alert_where (alert_whereClause user q))
                          (alerts s))) in
  let T := Math_ceil_div N P in
  1 <= P <= 100 ∧ 1 <= p
  ∧ P = default 10 (q_limit q) ∧ p = default 1 (q_page q)
  ∧ ∃ rows pg,
      get_alerts s c q = (json (AlertPage rows pg), s)
      ∧ currentPage pg = p ∧ itemsPerPage pg = P ∧ totalItems pg = N
      ∧ totalPages pg = T ∧ (T - 1) * P < N <= T * P
      ∧ (hasNextPage pg = true ↔ p < T)
      ∧ (hasPrevPage pg = true ↔ 1 < p).
Proof.
  intros Ha Hv P p N T.
  pose proof (alert_query_valid _ Hv) as (Hpg & Hl & _).
  pose proof (limit_valid _ Hl) as HP. pose proof (page_valid _ Hpg) as Hp.
  split; [done|]. split; [done|].
  split; [by apply (parseInt_or_default 1 (Some 100))|].
  split; [by apply (parseInt_or_default 1 None)|].
  rewrite (get_alerts_ok _ _ _ _ Ha Hv). eexists _, _. split; [done|].
  unfold count. fold N. fold P. fold p.
  destruct (page_info_spec p P N) as (H1 & H2 & H3 & H4 & H5 & H6);
    [lia | lia |].
  done.
Qed.

Lemma tests_page_info s c user q :
  auth s c = inl user → test_query_errors q = [] →
  let P := parseInt_or (tq_limit q) 10 in
  let p := parseInt_or (tq_page q) 1 in
  let N := Z.of_nat (List.length
                       (List.filter (test_where (test_whereClause user q))
                          (tests s))) in
  let T := Math_ceil_div N P in
  1 <= P <= 100 ∧ 1 <= p
  ∧ P = default 10 (tq_limit q) ∧ p = default 1 (tq_page q)
  ∧ ∃ rows pg,
      get_tests s c q = (json (TestPage rows pg), s)
      ∧ currentPage pg = p ∧ itemsPerPage pg = P ∧ totalItems pg = N
      ∧ totalPages pg = T ∧ (T - 1) * P < N <= T * P
      ∧ (hasNextPage pg = true ↔ p < T)
      ∧ (hasPrevPage pg = true ↔ 1 < p).
Proof.
  intros Ha Hv P p N T.
  pose proof (test_query_valid _ Hv) as (Hpg & Hl & _).
  pose proof (limit_valid _ Hl) as HP. pose proof (page_valid _ Hpg) as Hp.
  split; [done|]. split; [done|].
  split; [by apply (parseInt_or_default 1 (Some 100))|].
  split; [by apply (parseInt_or_default 1 None)|].
  rewrite (get_tests_ok _ _ _ _ Ha Hv). eexists _, _. split; [done|].
  unfold count. fold N. fold P. fold p.
  destruct (page_info_spec p P N) as (H1 & H2 & H3 & H4 & H5 & H6);
    [lia | lia |].
  done.
Qed.

(** The pages of a query, each asked of an engine of its own. *)
Lemma alerts_pages s c user q (engine : nat → Z → Z) :
  auth s c = inl user → alert_query_errors q = [] →
  let w := alert_whereClause user q in
  let P := parseInt_or (q_limit q) 10 in
  let N := Z.of_nat (List.length (List.filter (alert_where w) (alerts s))) in
  no_alert_ties (List.filter (alert_where w) (alerts s)) →
  concat ((fun k =>
             alert_rows (get_alerts (with_ties (engine k) s) c
                           (set_page (Z.of_nat k) q)).1)
            <$> seq 1 (Z.to_nat (Math_ceil_div N P)))
  = alert_view s <$> alerts_matching s w.
Proof.
  intros Ha Hv w P N Hno.
  pose proof (alert_query_valid _ Hv) as (_ & Hl & _).
  apply limit_valid in Hl. fold P in Hl.
  pose proof (Math_ceil_div_spec N P ltac:(lia) ltac:(lia)) as HT.
  rewrite <- (pages_concat (alert_view s <$> alerts_matching s w) P
                (Math_ceil_div N P)); [|lia|].
  2:{ rewrite length_fmap, alerts_matching_perm. fold N. lia. }
  f_equal. apply list_fmap_ext. intros i k Hk.
  apply lookup_seq in Hk as [-> Hi].
  rewrite (get_alerts_ok (with_ties (engine (1 + i)%nat) s) c user);
    [|done|apply set_page_valid; [lia|done]].
  cbn [fst alert_rows body json set_page q_page q_limit].
  rewrite parseInt_or_Some by lia. fold P.
  change (alert_whereClause user (set_page (Z.of_nat (1 + i)) q)) with w.
  rewrite (alerts_matching_untied _ _ _ Hno).
  unfold limit_offset. by rewrite fmap_take, fmap_drop.
Qed.

Lemma tests_pages s c user q (engine : nat → Z → Z) :
  auth s c = inl user → test_query_errors q = [] →
  let w := test_whereClause user q in
  let P := parseInt_or (tq_limit q) 10 in
  let N := Z.of_nat (List.length (List.filter (test_where w) (tests s))) in
  no_test_ties (List.filter (test_where w) (tests s)) →
  concat ((fun k =>
             test_rows (get_tests (with_ties (engine k) s) c
                          (set_test_page (Z.of_nat k) q)).1)
            <$> seq 1 (Z.to_nat (Math_ceil_div N P)))
  = test_view s <$> tests_matching s w.
Proof.
  intros Ha Hv w P N Hno.
  pose proof (test_query_valid _ Hv) as (_ & Hl & _).
  apply limit_valid in Hl. fold P in Hl.
  pose proof (Math_ceil_div_spec N P ltac:(lia) ltac:(lia)) as HT.
  rewrite <- (pages_concat (test_view s <$> tests_matching s w) P
                (Math_ceil_div N P)); [|lia|].
  2:{ rewrite length_fmap, tests_matching_perm. fold N. lia. }
  f_equal. apply list_fmap_ext. intros i k Hk.
  apply lookup_seq in Hk as [-> Hi].
  rewrite (get_tests_ok (with_ties (engine (1 + i)%nat) s) c user);
    [|done|apply set_test_page_valid; [lia|done]].
  cbn [fst test_rows body json set_test_page tq_page tq_limit].
  rewrite parseInt_or_Some by lia. fold P.
  change (test_whereClause user (set_test_page (Z.of_nat (1 + i)) q)) with w.
  rewrite (tests_matching_untied _ _ _ Hno).
  unfold limit_offset. by rewrite fmap_take, fmap_drop.
Qed.

(** C8, as amended. For a valid list query with page size [P] (1 to 100,
    10 when absent) and page number [p] (at least 1, 1 when absent) over the
    [N] matching rows: when the offset [(p - 1) * P] and [N] are within the
    integers that JavaScript's numbers hold exactly, the response reports
    [totalItems = N], [totalPages = ceil(N/P)] (the least number of pages of
    size [P] that hold [N] rows), [hasNextPage] exactly when
    [p < totalPages] and [hasPrevPage] exactly when [p > 1]; and when the
    order clause leaves no two matching rows tied, the pages 1 to
    [totalPages], each asked in a request of its own (whatever the engine
    would do with ties in it), are one after the other the full ordered
    result, which holds each matching row exactly once. This holds for
    alerts and for diagnostic tests. *)
Theorem pagination_metadata_and_pages s c user :
  auth s c = inl user →
  (∀ q, alert_query_errors q = [] →
     let P := parseInt_or (q_limit q) 10 in
     let p := parseInt_or (q_page q) 1 in
     let matching :=
       List.filter (alert_where (alert_whereClause user q)) (alerts s) in
     let N := Z.of_nat (List.length matching) in
     let T := Math_ceil_div N P in
     1 <= P <= 100 ∧ 1 <= p
     ∧ P = default 10 (q_limit q) ∧ p = default 1 (q_page q)
     ∧ (T - 1) * P < N <= T * P
     ∧ (exact_offset p P → N <= MAX_SAFE_INTEGER →
        ∃ rows pg,
          get_alerts s c q = (json (AlertPage rows pg), s)
          ∧ currentPage pg = p ∧ itemsPerPage pg = P ∧ totalItems pg = N
          ∧ totalPages pg = T
          ∧ (hasNextPage pg = true ↔ p < T)
          ∧ (hasPrevPage pg = true ↔ 1 < p))
     ∧ (no_alert_ties matching → N <= MAX_SAFE_INTEGER →
        ∀ engine : nat → Z → Z,
          concat ((fun k =>
                     alert_rows
                       (get_alerts (with_ties (engine k) s) c
                          (set_page (Z.of_nat k) q)).1)
                    <$> seq 1 (Z.to_nat T))
          = alert_view s <$> alerts_matching s (alert_whereClause user q)
          ∧ alerts_matching s (alert_whereClause user q) ≡ₚ matching))
  ∧ (∀ q, test_query_errors q = [] →
       let P := parseInt_or (tq_limit q) 10 in
       let p := parseInt_or (tq_page q) 1 in
       let matching :=
         List.filter (test_where (test_whereClause user q)) (tests s) in
       let N := Z.of_nat (List.length matching) in
       let T := Math_ceil_div N P in
       1 <= P <= 100 ∧ 1 <= p
       ∧ P = default 10 (tq_limit q) ∧ p = default 1 (tq_page q)
       ∧ (T - 1) * P < N <= T * P
       ∧ (exact_offset p P → N <= MAX_SAFE_INTEGER →
          ∃ rows pg,
            get_tests s c q = (json (TestPage rows pg), s)
            ∧ currentPage pg = p ∧ itemsPerPage pg = P ∧ totalItems pg = N
            ∧ totalPages pg = T
            ∧ (hasNextPage pg = true ↔ p < T)
            ∧ (hasPrevPage pg = true ↔ 1 < p))
       ∧ (no_test_ties matching → N <= MAX_SAFE_INTEGER →
          ∀ engine : nat → Z → Z,
            concat ((fun k =>
                       test_rows
                         (get_tests (with_ties (engine k) s) c
                            (set_test_page (Z.of_nat k) q)).1)
                      <$> seq 1 (Z.to_nat T))
            = test_view s <$> tests_matching s (test_whereClause user q)
            ∧ tests_matching s (test_whereClause user q) ≡ₚ matching)).
Proof.
  intros Ha. split; intros q Hv P p matching N T.
  - destruct (alerts_page_info s c user q Ha Hv)
      as (HP & Hp & HPd & Hpd & rows & pg & E & H1 & H2 & H3 & H4 & H5 & H6).
    do 4 (split; [done|]). split; [exact H5|]. split.
    + intros _ _. exists rows, pg. tauto.
    + intros Hno _ engine. split; [|apply alerts_matching_perm].
      by apply alerts_pages.
  - destruct (tests_page_info s c user q Ha Hv)
      as (HP & Hp & HPd & Hpd & rows & pg & E & H1 & H2 & H3 & H4 & H5 & H6).
    do 4 (split; [done|]). split; [exact H5|]. split.
    + intros _ _. exists rows, pg. tauto.
    + intros Hno _ engine. split; [|apply tests_matching_perm].
      by apply tests_pages.
Qed.

(** ** Ordering *)

#[global] Instance alert_order_total : Total alert_order.
Proof. intros a b. unfold alert_order. lia. Qed.

#[global] Instance alert_order_trans : Transitive alert_order.
Proof. intros a b d. unfold alert_order. lia. Qed.

#[global] Instance test_order_total : Total test_order.
Proof. intros a b. unfold test_order. lia. Qed.

#[global] Instance test_order_trans : Transitive test_order.
Proof. intros a b d. unfold test_order. lia. Qed.

(** In a strongly sorted list an earlier row is related to every later one. *)
Lemma StronglySorted_lookup {A} (R : relation A) l i j x y :
  StronglySorted R l → (i < j)%nat →
  l !! i = Some x → l !! j = Some y → R x y.
Proof.
  intros Hs Hij Hi Hj. rewrite <- (take_drop j l) in Hs.
  apply (StronglySorted_app_1_elem_of _ _ _ _ _ Hs).
  - apply elem_of_take. eauto.
  - apply list_elem_of_lookup. exists 0%nat.
    by rewrite lookup_drop, Nat.add_0_r.
Qed.

Lemma limit_offset_lookup {A} limit offset (l : list A) i x :
  limit_offset limit offset l !! i = Some x →
  l !! (Z.to_nat offset + i)%nat = Some x.
Proof.
  unfold limit_offset. intros [H _]%lookup_take_Some.
  by rewrite lookup_drop in H.
Qed.

(** A page of a sorted result is sorted. *)
Lemma page_sorted {A B} (R : relation A) `{∀ x y, Decision (R x y)}
    `{!Total R, !Transitive R} (f : A → B) limit offset rows i j x y :
  (i < j)%nat →
  (f <$> limit_offset limit offset (merge_sort R rows)) !! i = Some x →
  (f <$> limit_offset limit offset (merge_sort R rows)) !! j = Some y →
  ∃ a b, x = f a ∧ y = f b ∧ R a b.
Proof.
  intros Hij Hi Hj.
  apply list_lookup_fmap_Some in Hi as (a & -> & Hi).
  apply list_lookup_fmap_Some in Hj as (b & -> & Hj).
  exists a, b. do 2 (split; [done|]).
  apply limit_offset_lookup in Hi, Hj.
  eapply (StronglySorted_lookup R); [|  |exact Hi|exact Hj]; [|lia].
  by apply StronglySorted_merge_sort.
Qed.

Lemma enum_rank_of_priority a :
  (Alert.priority a = "critical" → priority_rank a = 4)
  ∧ (Alert.priority a = "high" → priority_rank a = 3)
  ∧ (Alert.priority a = "medium" → priority_rank a = 2)
  ∧ (Alert.priority a = "low" → priority_rank a = 1).
Proof. unfold priority_rank. repeat split; by intros ->. Qed.

(** C9. The rows of an alerts page are ordered by priority descending,
    where the rank of a priority is critical (4) > high (3) > medium (2) >
    low (1), and rows of equal rank by creation time descending: of two rows
    of a page the earlier one has the higher rank, or the same rank and a
    creation time that is not older. The rows of a diagnostic-tests page are
    ordered by test date descending. *)
Theorem list_rows_ordered s c user :
  auth s c = inl user →
  (∀ a,
     (Alert.priority a = "critical" → priority_rank a = 4)
     ∧ (Alert.priority a = "high" → priority_rank a = 3)
     ∧ (Alert.priority a = "medium" → priority_rank a = 2)
     ∧ (Alert.priority a = "low" → priority_rank a = 1))
  ∧ (∀ q, alert_query_errors q = [] →
       (∃ rows pg, get_alerts s c q = (json (AlertPage rows pg), s))
       ∧ ∀ i j x y, (i < j)%nat →
           alert_rows (get_alerts s c q).1 !! i = Some x →
           alert_rows (get_alerts s c q).1 !! j = Some y →
           priority_rank (v_alert y) < priority_rank (v_alert x)
           ∨ (priority_rank (v_alert x) = priority_rank (v_alert y)
              ∧ Alert.createdAt (v_alert y) <= Alert.createdAt (v_alert x)))
  ∧ (∀ q, test_query_errors q = [] →
       (∃ rows pg, get_tests s c q = (json (TestPage rows pg), s))
       ∧ ∀ i j x y, (i < j)%nat →
           test_rows (get_tests s c q).1 !! i = Some x →
           test_rows (get_tests s c q).1 !! j = Some y →
           DiagnosticTest.date (v_test y) <= DiagnosticTest.date (v_test x)).
Proof.
  intros Ha. split; [apply enum_rank_of_priority|]. split; intros q Hv.
  - rewrite (get_alerts_ok _ _ _ _ Ha Hv). split; [eauto|]. cbn.
    intros i j x y Hij Hi Hj. unfold alerts_matching in Hi, Hj.
    destruct (page_sorted (alert_order_of (ties s)) _ _ _ _ _ _ _ _ Hij Hi Hj)
      as (a & b & -> & -> & HR). exact (alert_order_of_order _ _ _ HR).
  - rewrite (get_tests_ok _ _ _ _ Ha Hv). split; [eauto|]. cbn.
    intros i j x y Hij Hi Hj. unfold tests_matching in Hi, Hj.
    destruct (page_sorted (test_order_of (ties s)) _ _ _ _ _ _ _ _ Hij Hi Hj)
      as (a & b & -> & -> & HR). exact (test_order_of_order _ _ _ HR).
Qed.

(** ** Store lemmas: creation, saving, lookup by key *)

Lemma findOne_app_fresh {A} (p : A → bool) rows x :
  (∀ r, r ∈ rows → p r = false) → p x = true →
  findOne p (rows ++ [x]) = Some x.
Proof.
  intros Hrows Hx. unfold findOne. induction rows as [|r rows IH]; cbn.
  - by rewrite Hx.
  - rewrite (Hrows r) by apply list_elem_of_here.
    apply IH. intros r' Hr'. apply Hrows. by apply list_elem_of_further.
Qed.

Lemma save_keys {A} (pk : A → Z) x (rows : list A) :
  pk <$> save pk x rows = pk <$> rows.
Proof.
  unfold save. induction rows as [|r rows IH]; [done|]. cbn.
  rewrite <- IH. f_equal. by destruct (Z.eqb_spec (pk r) (pk x)).
Qed.

Lemma elem_of_save {A} (pk : A → Z) x x0 (rows : list A) :
  x0 ∈ rows → pk x0 = pk x → x ∈ save pk x rows.
Proof.
  intros Hin Hk. unfold save. apply list_elem_of_In, in_map_iff.
  exists x0. split; [|by apply list_elem_of_In].
  by rewrite Hk, Z.eqb_refl.
Qed.

Lemma elem_of_save_inv {A} (pk : A → Z) x y (rows : list A) :
  y ∈ save pk x rows → y = x ∨ (y ∈ rows ∧ pk y ≠ pk x).
Proof.
  unfold save. intros (r & Hy & Hr)%list_elem_of_In%in_map_iff.
  apply list_elem_of_In in Hr.
  destruct (Z.eqb_spec (pk r) (pk x)); [by left|right; by subst].
Qed.

(** After [save] the row is found under its key. *)
Lemma findOne_save {A} (pk : A → Z) x x0 (rows : list A) :
  NoDup (pk <$> rows) → x0 ∈ rows → pk x0 = pk x →
  findOne (fun r => pk r =? pk x) (save pk x rows) = Some x.
Proof.
  intros Hnd Hin Hk. apply (findOne_unique pk).
  - by rewrite save_keys.
  - by apply (elem_of_save pk x x0).
  - apply Z.eqb_refl.
  - by intros y ->%Z.eqb_eq.
Qed.

Lemma findAlert_owner s id uid a :
  findAlert s id uid = Some a →
  a ∈ alerts s ∧ Alert.id a = id ∧ Alert.userId a = uid.
Proof.
  intros [Hin Hp]%findOne_Some.
  apply andb_true_iff in Hp as [->%Z.eqb_eq ->%Z.eqb_eq]. done.
Qed.

Lemma findTest_owner s id uid x :
  findTest s id uid = Some x →
  x ∈ tests s ∧ DiagnosticTest.id x = id ∧ DiagnosticTest.userId x = uid.
Proof.
  intros [Hin Hp]%findOne_Some.
  apply andb_true_iff in Hp as [->%Z.eqb_eq ->%Z.eqb_eq]. done.
Qed.

(** ** Creation assigns the caller as owner *)

(** The handlers never read the owner field of a body. *)
Lemma post_alert_ignores_owner s c now b o :
  post_alert s c now (set_owner o b) = post_alert s c now b.
Proof. reflexivity. Qed.

Lemma post_test_ignores_owner s c now b o :
  post_test s c now (set_test_owner o b) = post_test s c now b.
Proof. reflexivity. Qed.

Lemma post_alert_owner s c user now b :
  auth s c = inl user → store_ok s → post_alert_errors b = [] →
  ∃ a s',
    post_alert s c now b
    = (status_json 201
         (MessageAlert "Alert created successfully"
            (Some (mkAlertView a (Some (User.summarize user))))), s')
    ∧ Alert.userId a = User.id user
    ∧ alerts s' = (alerts s ++ [a])%list
    ∧ findAlertByPk s' (Alert.id a) = Some a.
Proof.
  intros Ha Hok Hv. unfold post_alert.
  rewrite (authed_ok _ _ _ _ Ha), (validated_ok _ _ _ Hv).
  unfold create_alert. cbn zeta.
  set (a := Alert.mk _ _ _ _ _ _ _ _ _ _ _).
  set (s' := mkStore _ _ _ _ _ _).
  assert (findAlertByPk s' (Alert.id a) = Some a) as Hfind.
  { unfold findAlertByPk. subst s'. cbn [alerts]. apply findOne_app_fresh.
    - intros r Hr. apply Z.eqb_neq. pose proof (alert_ids_below s Hok r Hr).
      subst a. cbn. lia.
    - apply Z.eqb_refl. }
  exists a, s'. rewrite Hfind. cbn [fmap option_fmap option_map].
  unfold alert_view, include_user.
  replace (findUserByPk s' (Alert.userId a)) with (Some user)
    by (symmetry; by apply (auth_ok s c)).
  repeat split; try done.
Qed.

Lemma post_test_owner s c user now b :
  auth s c = inl user → store_ok s → post_test_errors b = [] →
  ∃ x s',
    post_test s c now b
    = (status_json 201
         (MessageTest "Diagnostic test created successfully"
            (Some (mkTestView x (Some (User.summarize user))))), s')
    ∧ DiagnosticTest.userId x = User.id user
    ∧ tests s' = (tests s ++ [x])%list
    ∧ findTestByPk s' (DiagnosticTest.id x) = Some x.
Proof.
  intros Ha Hok Hv. unfold post_test.
  rewrite (authed_ok _ _ _ _ Ha), (validated_ok _ _ _ Hv).
  unfold create_test. cbn zeta. cbn [DiagnosticTest.name DiagnosticTest.result
    DiagnosticTest.date DiagnosticTest.testType DiagnosticTest.status
    DiagnosticTest.normalRange DiagnosticTest.units DiagnosticTest.notes
    DiagnosticTest.userId DiagnosticTest.doctorName DiagnosticTest.labName
    DiagnosticTest.isAbnormal DiagnosticTest.attachments].
  set (x := DiagnosticTest.mk _ _ _ _ _ _ _ _ _ _ _ _ _ _ _).
  set (s' := mkStore _ _ _ _ _ _).
  assert (findTestByPk s' (DiagnosticTest.id x) = Some x) as Hfind.
  { unfold findTestByPk. subst s'. cbn [tests]. apply findOne_app_fresh.
    - intros r Hr. apply Z.eqb_neq. pose proof (test_ids_below s Hok r Hr).
      subst x. cbn. lia.
    - apply Z.eqb_refl. }
  exists x, s'. rewrite Hfind. cbn [fmap option_fmap option_map].
  unfold test_view, include_user.
  replace (findUserByPk s' (DiagnosticTest.userId x)) with (Some user)
    by (symmetry; by apply (auth_ok s c)).
  repeat split; try done.
Qed.

(** C4. Every successful [POST /api/alerts] and
    [POST /api/diagnostic-tests] answers 201 with the created row and the
    caller's (id, name, email) summary; the row's [userId] is the id of the
    authenticated caller, the row is the one appended to the table, and the
    whole outcome is the same whatever owner field the body carries. *)
Theorem created_owner_is_caller s c user now :
  auth s c = inl user → store_ok s →
  (∀ b, post_alert_errors b = [] →
     ∃ a s',
       post_alert s c now b
       = (status_json 201
            (MessageAlert "Alert created successfully"
               (Some (mkAlertView a (Some (User.summarize user))))), s')
       ∧ Alert.userId a = User.id user
       ∧ alerts s' = (alerts s ++ [a])%list
       ∧ findAlertByPk s' (Alert.id a) = Some a
       ∧ ∀ o, post_alert s c now (set_owner o b) = post_alert s c now b)
  ∧ (∀ b, post_test_errors b = [] →
       ∃ x s',
         post_test s c now b
         = (status_json 201
              (MessageTest "Diagnostic test created successfully"
                 (Some (mkTestView x (Some (User.summarize user))))), s')
         ∧ DiagnosticTest.userId x = User.id user
         ∧ tests s' = (tests s ++ [x])%list
         ∧ findTestByPk s' (DiagnosticTest.id x) = Some x
         ∧ ∀ o, post_test s c now (set_test_owner o b) = post_test s c now b).
Proof.
  intros Ha Hok. split; intros b Hv.
  - destruct (post_alert_owner s c user now b Ha Hok Hv)
      as (a & s' & E & Ho & Hs & Hf).
    exists a, s'. do 4 (split; [done|]).
    intros o. apply post_alert_ignores_owner.
  - destruct (post_test_owner s c user now b Ha Hok Hv)
      as (x & s' & E & Ho & Hs & Hf).
    exists x, s'. do 4 (split; [done|]).
    intros o. apply post_test_ignores_owner.
Qed.

(** ** Rows of other users look like missing rows *)

(** A row of another user is not found under the caller's id. *)
Lemma findAlert_foreign s uid a :
  NoDup (Alert.id <$> alerts s) → a ∈ alerts s → Alert.userId a ≠ uid →
  findAlert s (Alert.id a) uid = None.
Proof.
  intros Hnd Hin Hne. apply findOne_None. intros r Hr.
  apply andb_false_iff.
  destruct (Z.eqb_spec (Alert.id r) (Alert.id a)) as [Hid|]; [right|by left].
  assert (r = a) as ->; [|by apply Z.eqb_neq].
  apply list_elem_of_lookup in Hr as [i Hi], Hin as [j Hj].
  assert (i = j) as ->; [|congruence].
  apply (NoDup_lookup _ i j (Alert.id a) Hnd);
    rewrite list_lookup_fmap; [rewrite Hi | rewrite Hj]; cbn; congruence.
Qed.

Lemma findAlert_missing s uid id :
  (∀ a, a ∈ alerts s → Alert.id a ≠ id) → findAlert s id uid = None.
Proof.
  intros Hno. apply findOne_None. intros r Hr. apply andb_false_iff. left.
  apply Z.eqb_neq. by apply Hno.
Qed.

Lemma findTest_foreign s uid x :
  NoDup (DiagnosticTest.id <$> tests s) → x ∈ tests s →
  DiagnosticTest.userId x ≠ uid →
  findTest s (DiagnosticTest.id x) uid = None.
Proof.
  intros Hnd Hin Hne. apply findOne_None. intros r Hr.
  apply andb_false_iff.
  destruct (Z.eqb_spec (DiagnosticTest.id r) (DiagnosticTest.id x))
    as [Hid|]; [right|by left].
  assert (r = x) as ->; [|by apply Z.eqb_neq].
  apply list_elem_of_lookup in Hr as [i Hi], Hin as [j Hj].
  assert (i = j) as ->; [|congruence].
  apply (NoDup_lookup _ i j (DiagnosticTest.id x) Hnd);
    rewrite list_lookup_fmap; [rewrite Hi | rewrite Hj]; cbn; congruence.
Qed.

Lemma findTest_missing s uid id :
  (∀ x, x ∈ tests s → DiagnosticTest.id x ≠ id) → findTest s id uid = None.
Proof.
  intros Hno. apply findOne_None. intros r Hr. apply andb_false_iff. left.
  apply Z.eqb_neq. by apply Hno.
Qed.

(** C5. For an authenticated caller, reading or deleting by id an alert or a
    diagnostic test that exists but belongs to another user gives the 404
    "not found" response (not a 403) and leaves the store as it was, and
    that response is equal, status code and body, to the one for an id that
    no row has. *)
Theorem foreign_row_is_not_found s c user :
  auth s c = inl user → store_ok s →
  (∀ a missing,
     a ∈ alerts s → Alert.userId a ≠ User.id user →
     (∀ a', a' ∈ alerts s → Alert.id a' ≠ missing) →
     get_alert s c (Alert.id a)
       = (mkResponse 404 (Message "Alert not found"), s)
     ∧ get_alert s c (Alert.id a) = get_alert s c missing
     ∧ delete_alert s c (Alert.id a)
       = (mkResponse 404 (Message "Alert not found"), s)
     ∧ delete_alert s c (Alert.id a) = delete_alert s c missing)
  ∧ (∀ x missing,
       x ∈ tests s → DiagnosticTest.userId x ≠ User.id user →
       (∀ x', x' ∈ tests s → DiagnosticTest.id x' ≠ missing) →
       get_test s c (DiagnosticTest.id x)
         = (mkResponse 404 (Message "Diagnostic test not found"), s)
       ∧ get_test s c (DiagnosticTest.id x) = get_test s c missing
       ∧ delete_test s c (DiagnosticTest.id x)
         = (mkResponse 404 (Message "Diagnostic test not found"), s)
       ∧ delete_test s c (DiagnosticTest.id x) = delete_test s c missing).
Proof.
  intros Ha Hok. split.
  - intros a missing Hin Hne Hmiss.
    unfold get_alert, delete_alert. rewrite !(authed_ok _ _ _ _ Ha).
    rewrite (findAlert_foreign s _ a (alert_ids_unique s Hok) Hin Hne).
    by rewrite (findAlert_missing s _ missing Hmiss).
  - intros x missing Hin Hne Hmiss.
    unfold get_test, delete_test. rewrite !(authed_ok _ _ _ _ Ha).
    rewrite (findTest_foreign s _ x (test_ids_unique s Hok) Hin Hne).
    by rewrite (findTest_missing s _ missing Hmiss).
Qed.

(** ** Summaries *)

Lemma occurrences_zero {A} (key : A → string) k rows :
  occurrences key k rows = 0 ↔ k ∉ key <$> rows.
Proof.
  unfold occurrences. induction rows as [|r rows IH]; cbn.
  - split; [intros _; by apply not_elem_of_nil | done].
  - rewrite not_elem_of_cons. destruct (String.eqb_spec (key r) k) as [->|Hne].
    + cbn. split; [lia | by intros [? _]].
    + rewrite IH. split; [by intros ?; split; [congruence|] | by intros [_ ?]].
Qed.

Lemma occurrences_nonneg {A} (key : A → string) k rows :
  0 <= occurrences key k rows.
Proof. unfold occurrences. lia. Qed.

Lemma reduce_counts_lookup (f : string → Z) keys k :
  reduce_counts ((fun x => (x, f x)) <$> keys) !! k
  = if bool_decide (k ∈ keys) then Some (f k) else None.
Proof.
  unfold reduce_counts. induction keys as [|x keys IH] using rev_ind.
  - cbn. by rewrite lookup_empty.
  - rewrite fmap_app, foldl_app. cbn.
    destruct (decide (x = k)) as [->|Hne].
    + rewrite lookup_insert_eq, bool_decide_eq_true_2; [done|].
      apply elem_of_app. right. apply list_elem_of_here.
    + rewrite lookup_insert_ne, IH by done.
      rewrite (bool_decide_ext (k ∈ (keys ++ [x])%list) (k ∈ keys)); [done|].
      rewrite elem_of_app, list_elem_of_singleton.
      split; [intros [?|?]; [done|congruence] | by left].
Qed.

(** [GROUP BY] followed by the [reduce] gives a sparse map. *)
Lemma group_count_sparse {A} (key : A → string) rows :
  sparse key rows (reduce_counts (group_count key rows)).
Proof.
  intros k. unfold group_count.
  rewrite (reduce_counts_lookup (fun x => count (fun r => String.eqb (key r) x) rows)).
  change (count (fun r => String.eqb (key r) k) rows)
    with (occurrences key k rows).
  destruct (Z.eqb_spec (occurrences key k rows) 0) as [Hz|Hz].
  - rewrite bool_decide_eq_false_2; [done|]. rewrite elem_of_remove_dups.
    by apply occurrences_zero.
  - rewrite bool_decide_eq_true_2; [done|]. rewrite elem_of_remove_dups.
    destruct (decide (k ∈ key <$> rows)) as [|Hn]; [done|].
    by apply occurrences_zero in Hn.
Qed.

Lemma filter_filter_bool {A} (p q : A → bool) rows :
  List.filter p (List.filter q rows) = List.filter (fun r => q r && p r) rows.
Proof.
  induction rows as [|r rows IH]; [done|]. cbn.
  destruct (q r); cbn; [destruct (p r)|]; by rewrite ?IH.
Qed.

Lemma filter_ext_bool {A} (p q : A → bool) rows :
  (∀ r, p r = q r) → List.filter p rows = List.filter q rows.
Proof. intros H. apply List.filter_ext. exact H. Qed.

Lemma count_status_alerts s uid k :
  count (alert_where (mkAlertWhere uid (Some k) None None)) (alerts s)
  = occurrences Alert.status k (owned_alerts s uid).
Proof.
  unfold count, occurrences, owned_alerts. rewrite filter_filter_bool.
  do 2 f_equal. apply filter_ext_bool. intros r. unfold alert_where. cbn.
  by rewrite !andb_true_r.
Qed.

Lemma count_status_tests s uid k :
  count (test_where (mkTestWhere uid None (Some k) None None None)) (tests s)
  = occurrences DiagnosticTest.status k (owned_tests s uid).
Proof.
  unfold count, occurrences, owned_tests. rewrite filter_filter_bool.
  do 2 f_equal. apply filter_ext_bool. intros r. unfold test_where. cbn.
  by rewrite !andb_true_r.
Qed.

Lemma owned_alerts_where s uid :
  List.filter (alert_where (mkAlertWhere uid None None None)) (alerts s)
  = owned_alerts s uid.
Proof.
  apply filter_ext_bool. intros r. unfold alert_where. cbn.
  by rewrite !andb_true_r.
Qed.

Lemma owned_tests_where s uid :
  List.filter (test_where (owned_by uid)) (tests s) = owned_tests s uid.
Proof.
  apply filter_ext_bool. intros r. unfold test_where. cbn.
  by rewrite !andb_true_r.
Qed.

Lemma alerts_byStatus_zero_filled (f : string → Z) :
  ∀ k,
    object [("active", f "active"); ("acknowledged", f "acknowledged");
            ("resolved", f "resolved"); ("dismissed", f "dismissed")] !! k
    = if bool_decide (k ∈ Alert.status_enum) then Some (f k) else None.
Proof.
  intros k. unfold object. cbn [foldl fst snd].
  destruct (bool_decide (k ∈ Alert.status_enum)) eqn:E.
  - apply bool_decide_eq_true in E. unfold Alert.status_enum in E.
    rewrite !elem_of_cons, elem_of_nil in E.
    destruct E as [->|[->|[->|[->|[]]]]]; reflexivity.
  - apply bool_decide_eq_false in E.
    rewrite !lookup_insert_ne, lookup_empty; [done|..];
      intros <-; apply E; compute_done.
Qed.

Lemma tests_byStatus_counts (f : string → Z) k :
  k ∈ ["pending"; "completed"; "reviewed"] →
  object [("pending", f "pending"); ("completed", f "completed");
          ("reviewed", f "reviewed")] !! k
  = Some (f k).
Proof.
  rewrite !elem_of_cons, elem_of_nil. unfold object. cbn [foldl fst snd].
  intros [->|[->|[->|[]]]]; done.
Qed.

(** C6, as stated, fails: a user without alerts gets a [byStatus] map in
    which "active" is a key with value 0, so that map is not sparse. *)
Lemma byStatus_is_not_sparse :
  ∃ total byStatus byPriority,
    alerts_summary empty_store (Verified 1)
    = (json (AlertSummary total byStatus byPriority), empty_store)
    ∧ occurrences Alert.status "active" (owned_alerts empty_store 1) = 0
    ∧ byStatus !! "active" = Some 0
    ∧ ¬ sparse Alert.status (owned_alerts empty_store 1) byStatus.
Proof.
  eexists _, _, _. split; [reflexivity|]. split; [reflexivity|].
  split; [reflexivity|]. intros H. specialize (H "active"). discriminate H.
Qed.

(** C6, amended. In the summary endpoints the maps built from a GROUP BY
    query, [byPriority] for alerts and [byType] for tests, are sparse: a value
    with matching rows is mapped to its count and a value without is not a
    key. The [byStatus] map of alerts is zero-filled instead: its keys are
    exactly active, acknowledged, resolved and dismissed, each with its
    count, zero included. The [byStatus] map of tests maps pending,
    completed and reviewed to their counts, zero included. *)
Theorem summary_maps s c user now :
  auth s c = inl user →
  (∃ byStatus byPriority,
     alerts_summary s c
     = (json (AlertSummary
                (Z.of_nat (List.length (owned_alerts s (User.id user))))
                byStatus byPriority), s)
     ∧ sparse Alert.priority (owned_alerts s (User.id user)) byPriority
     ∧ zero_filled Alert.status (owned_alerts s (User.id user))
         ["active"; "acknowledged"; "resolved"; "dismissed"] byStatus)
  ∧ (∃ abnormal recent byStatus byType,
       tests_summary s c now
       = (json (TestSummary
                  (Z.of_nat (List.length (owned_tests s (User.id user))))
                  abnormal recent byStatus byType), s)
       ∧ sparse DiagnosticTest.testType (owned_tests s (User.id user)) byType
       ∧ ∀ k, k ∈ ["pending"; "completed"; "reviewed"] →
           byStatus !! k
           = Some (occurrences DiagnosticTest.status k
                     (owned_tests s (User.id user)))).
Proof.
  intros Ha. split.
  - unfold alerts_summary. rewrite (authed_ok _ _ _ _ Ha). cbn zeta.
    eexists _, _. split; [|split].
    + unfold count at 1. rewrite owned_alerts_where. reflexivity.
    + rewrite ?owned_alerts_where. apply group_count_sparse.
    + intros k.
      rewrite (alerts_byStatus_zero_filled
                 (fun st => count (alert_where
                    (mkAlertWhere (User.id user) (Some st) None None)) (alerts s))).
      by rewrite count_status_alerts.
  - unfold tests_summary. rewrite (authed_ok _ _ _ _ Ha). cbn zeta.
    eexists _, _, _, _. split; [|split].
    + unfold count at 1. rewrite owned_tests_where. reflexivity.
    + rewrite ?owned_tests_where. apply group_count_sparse.
    + intros k Hk.
      rewrite (tests_byStatus_counts
                 (fun st => count (test_where
                    (mkTestWhere (User.id user) None (Some st) None None None))
                    (tests s)) k Hk).
      by rewrite count_status_tests.
Qed.

(** The tests summary has no key for cancelled tests, also when there are
    some: user 1 of [store0] has one cancelled test. *)
Example tests_byStatus_omits_cancelled :
  ∃ total abnormal recent byStatus byType,
    tests_summary store0 (Verified 1) 0
    = (json (TestSummary total abnormal recent byStatus byType), store0)
    ∧ occurrences DiagnosticTest.status "cancelled" (owned_tests store0 1) = 1
    ∧ byStatus !! "cancelled" = None.
Proof. eexists _, _, _, _, _. split; [reflexivity|]. split; reflexivity. Qed.

(** ** Updates *)

Lemma put_alert_ok s c user now id b alert :
  auth s c = inl user → store_ok s → put_alert_errors b = [] →
  findAlert s id (User.id user) = Some alert →
  let updated := Alert.update (alert_updateData now alert b) alert in
  let s' := with_alerts (save Alert.id updated) s in
  put_alert s c now id b
  = (json (MessageAlert "Alert updated successfully"
             (Some (alert_view s' updated))), s')
  ∧ findAlert s' id (User.id user) = Some updated.
Proof.
  intros Ha Hok Hv Hf updated s'.
  apply findAlert_owner in Hf as Hal. destruct Hal as (Hin & Hid & Hown).
  assert (findAlertByPk s' (Alert.id alert) = Some updated) as Hpk.
  { unfold findAlertByPk. subst s'. cbn [alerts with_alerts].
    by apply (findOne_save Alert.id updated alert);
      [apply (alert_ids_unique s Hok)|..]. }
  split.
  - unfold put_alert.
    rewrite (authed_ok _ _ _ _ Ha), (validated_ok _ _ _ Hv), Hf.
    fold updated. fold s'. by rewrite Hpk.
  - subst s'. unfold findAlert. cbn [alerts with_alerts].
    apply (findOne_unique Alert.id).
    + rewrite save_keys. apply (alert_ids_unique s Hok).
    + by apply (elem_of_save Alert.id updated alert).
    + subst updated. cbn. by rewrite Hid, Hown, !Z.eqb_refl.
    + intros y [->%Z.eqb_eq _]%andb_true_iff. subst updated. cbn. done.
Qed.

(** C7. An update of the caller's alert whose body carries a metadata
    object [m] answers 200 and leaves the alert with metadata that is an
    object holding, under each key, the value [m] has there and otherwise
    the value the existing metadata had there: keys absent from the request
    are kept, supplied keys overwrite. *)
Theorem update_merges_metadata s c user now id b m alert :
  auth s c = inl user → store_ok s → put_alert_errors b = [] →
  findAlert s id (User.id user) = Some alert →
  b_metadata b = Some (JObj m) →
  ∃ updated s' merged,
    put_alert s c now id b
    = (json (MessageAlert "Alert updated successfully"
               (Some (alert_view s' updated))), s')
    ∧ findAlert s' id (User.id user) = Some updated
    ∧ Alert.metadata updated = JObj merged
    ∧ ∀ k, merged !! k
           = match m !! k with
             | Some v => Some v
             | None => spread (Alert.metadata alert) !! k
             end.
Proof.
  intros Ha Hok Hv Hf Hm.
  destruct (put_alert_ok s c user now id b alert Ha Hok Hv Hf) as [Hput Hfind].
  eexists _, _, (m ∪ spread (Alert.metadata alert)).
  split; [exact Hput|]. split; [exact Hfind|]. split.
  - unfold Alert.update, alert_updateData. cbn. by rewrite Hm.
  - intros k. rewrite lookup_union. by destruct (m !! k), (spread _ !! k).
Qed.

(** The scenario of the specification: on an alert with empty metadata,
    [PUT {metadata: {a: 1}}] and then [PUT {metadata: {b: 2}}] leave
    [{a: 1, b: 2}]. *)
Example metadata_a_then_b :
  let s1 := (put_alert store0 (Verified 1) 100 1
               (metadata_body (JObj {[ "a" := JNum 1 ]}))).2 in
  let s2 := (put_alert s1 (Verified 1) 200 1
               (metadata_body (JObj {[ "b" := JNum 2 ]}))).2 in
  metadata_of s2 1 = Some (JObj {[ "a" := JNum 1; "b" := JNum 2 ]}).
Proof. vm_compute. reflexivity. Qed.

(** ** What a request can do to the tables *)

Lemma elem_of_destroy_inv {A} (pk : A → Z) x y (rows : list A) :
  y ∈ destroy pk x rows → y ∈ rows.
Proof. unfold destroy. by intros [? _]%elem_of_filter_bool. Qed.

Lemma NoDup_keys_destroy {A} (pk : A → Z) x (rows : list A) :
  NoDup (pk <$> rows) → NoDup (pk <$> destroy pk x rows).
Proof.
  induction rows as [|r rows IH]; [done|]. cbn.
  intros [Hr Hnd]%NoDup_cons. destruct (negb (pk r =? pk x)); [|by apply IH].
  cbn. apply NoDup_cons. split; [|by apply IH].
  intros (y & Hk & Hy)%list_elem_of_fmap. apply Hr. rewrite Hk.
  apply list_elem_of_fmap_2. by apply (elem_of_destroy_inv pk x).
Qed.

Lemma NoDup_keys_append {A} (pk : A → Z) x (rows : list A) bound :
  NoDup (pk <$> rows) → (∀ r, r ∈ rows → pk r < bound) → pk x = bound →
  NoDup (pk <$> (rows ++ [x])%list).
Proof.
  intros Hnd Hb Hx. rewrite fmap_app. apply NoDup_app. split; [done|].
  split; [|apply NoDup_singleton].
  intros k (r & -> & Hr)%list_elem_of_fmap Hk.
  apply list_elem_of_singleton in Hk. specialize (Hb r Hr). lia.
Qed.

Lemma keys_below_save {A} (pk : A → Z) x x0 (rows : list A) bound :
  (∀ r, r ∈ rows → pk r < bound) → x0 ∈ rows → pk x = pk x0 →
  ∀ r, r ∈ save pk x rows → pk r < bound.
Proof.
  intros Hb Hx0 Hk r [->|[Hr _]]%elem_of_save_inv; [|by apply Hb].
  rewrite Hk. by apply Hb.
Qed.

Ltac use_lookups :=
  repeat match goal with
  | H : findAlert _ _ _ = Some _ |- _ => apply findAlert_owner in H as (? & ? & ?)
  | H : findTest _ _ _ = Some _ |- _ => apply findTest_owner in H as (? & ? & ?)
  | H : auth _ _ = inl _ |- _ => apply auth_ok in H as (? & ? & ? & ?)
  end.

Section Frame.
Variable isEmail : string -> bool.
Variable normalizeEmail : string -> string.
Variable hashPassword : string -> string.
Variable comparePassword : string -> string -> bool.

Let handle_ := handle isEmail normalizeEmail hashPassword comparePassword.

(** The users table is left alone or one existing row is saved; no row is
    added or removed. *)
Lemma handle_users s c now r :
  users (handle_ s c now r).2 = users s
  ∨ ∃ u u0, u0 ∈ users s ∧ User.id u = User.id u0
            ∧ users (handle_ s c now r).2 = save User.id u (users s).
Proof.
  subst handle_. destruct r; cbn [handle]; unfold_handlers;
    repeat case_match; simplify_eq; cbn; eauto; use_lookups;
    right; eexists _, _; (split; [eassumption|]); (split; [|reflexivity]);
    reflexivity.
Qed.

(** The alerts table is left alone, gets one new row under the next id, has
    one existing row saved, or loses the one row that
    [DELETE /api/alerts/:id] names. *)
Lemma handle_alerts s c now r :
  (alerts (handle_ s c now r).2 = alerts s
   ∧ alert_seq (handle_ s c now r).2 = alert_seq s)
  ∨ (∃ x, alerts (handle_ s c now r).2 = (alerts s ++ [x])%list
          ∧ Alert.id x = alert_seq s
          ∧ alert_seq (handle_ s c now r).2 = alert_seq s + 1)
  ∨ (∃ x x0, x0 ∈ alerts s ∧ Alert.id x = Alert.id x0
             ∧ alerts (handle_ s c now r).2 = save Alert.id x (alerts s)
             ∧ alert_seq (handle_ s c now r).2 = alert_seq s)
  ∨ (∃ x, r = DeleteAlert (Alert.id x)
          ∧ alerts (handle_ s c now r).2 = destroy Alert.id x (alerts s)
          ∧ alert_seq (handle_ s c now r).2 = alert_seq s).
Proof.
  subst handle_. destruct r; cbn [handle]; unfold_handlers;
    repeat case_match; simplify_eq; cbn; eauto 6; use_lookups; subst.
  all: try (right; right; left; eexists _, _; (split; [eassumption|]);
            (split; [|split; reflexivity]); reflexivity).
  all: try (right; right; right; eexists; done).
Qed.

(** The same for the tests table. *)
Lemma handle_tests s c now r :
  (tests (handle_ s c now r).2 = tests s
   ∧ test_seq (handle_ s c now r).2 = test_seq s)
  ∨ (∃ x, tests (handle_ s c now r).2 = (tests s ++ [x])%list
          ∧ DiagnosticTest.id x = test_seq s
          ∧ test_seq (handle_ s c now r).2 = test_seq s + 1)
  ∨ (∃ x x0, x0 ∈ tests s ∧ DiagnosticTest.id x = DiagnosticTest.id x0
             ∧ tests (handle_ s c now r).2
               = save DiagnosticTest.id x (tests s)
             ∧ test_seq (handle_ s c now r).2 = test_seq s)
  ∨ (∃ x, r = DeleteTest (DiagnosticTest.id x)
          ∧ tests (handle_ s c now r).2 = destroy DiagnosticTest.id x (tests s)
          ∧ test_seq (handle_ s c now r).2 = test_seq s).
Proof.
  subst handle_. destruct r; cbn [handle]; unfold_handlers;
    repeat case_match; simplify_eq; cbn; eauto 6; use_lookups; subst.
  all: try (right; right; left; eexists _, _; (split; [eassumption|]);
            (split; [|split; reflexivity]); reflexivity).
  all: try (right; right; right; eexists; done).
Qed.

(** Every request keeps the primary keys unique and below the counters. *)
Lemma handle_preserves_store_ok s c now r :
  store_ok s → store_ok (handle_ s c now r).2.
Proof.
  intros [Hu Ha Ht Hab Htb]. split.
  - destruct (handle_users s c now r) as [->|(u & u0 & _ & _ & ->)]; [done|].
    by rewrite save_keys.
  - destruct (handle_alerts s c now r)
      as [[-> _]|[(x & -> & Hx & _)|[(x & x0 & _ & _ & -> & _)|(x & _ & -> & _)]]].
    + done.
    + by apply (NoDup_keys_append Alert.id x (alerts s) (alert_seq s)).
    + by rewrite save_keys.
    + by apply NoDup_keys_destroy.
  - destruct (handle_tests s c now r)
      as [[-> _]|[(x & -> & Hx & _)|[(x & x0 & _ & _ & -> & _)|(x & _ & -> & _)]]].
    + done.
    + by apply (NoDup_keys_append DiagnosticTest.id x (tests s) (test_seq s)).
    + by rewrite save_keys.
    + by apply NoDup_keys_destroy.
  - destruct (handle_alerts s c now r)
      as [[-> ->]|[(x & -> & Hx & ->)|[(x & x0 & Hx0 & Hk & -> & ->)
                                      |(x & _ & -> & ->)]]].
    + done.
    + intros a [Hin|Hin]%elem_of_app;
        [specialize (Hab a Hin)|apply list_elem_of_singleton in Hin; subst a];
        lia.
    + by apply (keys_below_save Alert.id x x0).
    + intros a Hin%elem_of_destroy_inv. by apply Hab.
  - destruct (handle_tests s c now r)
      as [[-> ->]|[(x & -> & Hx & ->)|[(x & x0 & Hx0 & Hk & -> & ->)
                                      |(x & _ & -> & ->)]]].
    + done.
    + intros a [Hin|Hin]%elem_of_app;
        [specialize (Htb a Hin)|apply list_elem_of_singleton in Hin; subst a];
        lia.
    + by apply (keys_below_save DiagnosticTest.id x x0).
    + intros a Hin%elem_of_destroy_inv. by apply Htb.
Qed.
End Frame.

Lemma elem_of_destroy {A} (pk : A → Z) x y (rows : list A) :
  y ∈ rows → pk y ≠ pk x → y ∈ destroy pk x rows.
Proof.
  intros Hin Hne. unfold destroy. apply elem_of_filter_bool.
  split; [done|]. by apply negb_true_iff, Z.eqb_neq.
Qed.

(** Saving keeps a row under every key. *)
Lemma save_keeps_key {A} (pk : A → Z) x y (rows : list A) :
  y ∈ rows → ∃ y', y' ∈ save pk x rows ∧ pk y' = pk y.
Proof.
  intros Hin. apply (list_elem_of_fmap_2 pk) in Hin.
  rewrite <- (save_keys pk x) in Hin.
  apply list_elem_of_fmap in Hin as (y' & Hk & Hy'). eauto.
Qed.

(** With unique keys, the row that has the key of a stored row is that row. *)
Lemma unique_row {A} (pk : A → Z) (rows : list A) x y :
  NoDup (pk <$> rows) → x ∈ rows → y ∈ rows → pk x = pk y → x = y.
Proof.
  intros Hnd [i Hi]%list_elem_of_lookup [j Hj]%list_elem_of_lookup Hk.
  assert (i = j) as ->; [|congruence].
  apply (NoDup_lookup _ i j (pk x) Hnd);
    rewrite list_lookup_fmap; [rewrite Hi | rewrite Hj]; cbn; congruence.
Qed.

Lemma delete_account_frame s c user :
  auth s c = inl user → store_ok s →
  ∃ s',
    delete_account s c
    = (json (Message "Account deactivated successfully"), s')
    ∧ users s'
      = (fun u => if User.id u =? User.id user
                  then User.set_isActive false u else u) <$> users s
    ∧ alerts s' = alerts s ∧ tests s' = tests s
    ∧ alert_seq s' = alert_seq s ∧ test_seq s' = test_seq s.
Proof.
  intros Ha Hok. unfold delete_account. rewrite (authed_ok _ _ _ _ Ha).
  eexists. split; [done|]. split; [|done]. cbn [users with_users].
  unfold save. apply list_fmap_ext. intros i u Hu. cbn.
  destruct (Z.eqb_spec (User.id u) (User.id user)) as [Hid|]; [|done].
  f_equal. symmetry.
  apply (unique_row User.id (users s)); [apply (user_ids_unique s Hok)| |
    by apply (auth_ok s c) | done].
  apply list_elem_of_lookup. eauto.
Qed.

(** C10. [DELETE /api/users/account] answers 200 and its only effect is
    that the caller's row has [isActive] false: the row is found afterwards
    with [isActive] false and every other column as it was, every other user
    row, the alerts table and the tests table are as before, and no row is
    deleted. No request of the API removes a user row
    (the users' ids are the same after any request), and an alert or test
    row disappears only through the [DELETE] request that names its id, so
    the cascade on user deletion is never set off. *)
Theorem account_deletion_only_deactivates
    (isEmail : string → bool) (normalizeEmail hashPassword : string → string)
    (comparePassword : string → string → bool) s c user :
  auth s c = inl user → store_ok s →
  (∃ s',
     delete_account s c
     = (json (Message "Account deactivated successfully"), s')
     ∧ users s'
       = (fun u => if User.id u =? User.id user
                   then User.mk (User.id u) (User.name u) (User.email u)
                          (User.password u) (User.preferences u) false
                          (User.lastLogin u) (User.createdAt u)
                   else u) <$> users s
     ∧ findUserByPk s' (User.id user)
       = Some (User.mk (User.id user) (User.name user) (User.email user)
                 (User.password user) (User.preferences user) false
                 (User.lastLogin user) (User.createdAt user))
     ∧ alerts s' = alerts s ∧ tests s' = tests s)
  ∧ (∀ now r,
       let s' :=
         (handle isEmail normalizeEmail hashPassword comparePassword
            s c now r).2 in
       User.id <$> users s' = User.id <$> users s
       ∧ (∀ a, a ∈ alerts s →
            (∃ a', a' ∈ alerts s' ∧ Alert.id a' = Alert.id a)
            ∨ r = DeleteAlert (Alert.id a))
       ∧ (∀ x, x ∈ tests s →
            (∃ x', x' ∈ tests s' ∧ DiagnosticTest.id x' = DiagnosticTest.id x)
            ∨ r = DeleteTest (DiagnosticTest.id x))).
Proof.
  intros Ha Hok. split.
  - destruct (delete_account_frame s c user Ha Hok)
      as (s' & E & Hu & Hal & Ht & _).
    exists s'. split; [exact E|]. split; [exact Hu|]. split; [|done].
    unfold delete_account in E. rewrite (authed_ok _ _ _ _ Ha) in E.
    injection E as <-. unfold findUserByPk. cbn [users with_users].
    apply (findOne_save User.id (User.set_isActive false user) user);
      [apply (user_ids_unique s Hok) | by apply (auth_ok s c) | done].
  - intros now r s'. subst s'. split; [|split].
    + destruct (handle_users isEmail normalizeEmail hashPassword
                  comparePassword s c now r) as [->|(u & u0 & _ & _ & ->)];
        [done|].
      apply save_keys.
    + intros a Hin.
      destruct (handle_alerts isEmail normalizeEmail hashPassword
                  comparePassword s c now r)
        as [[-> _]|[(x & -> & _)|[(x & x0 & _ & _ & -> & _)
                                  |(x & Hr & -> & _)]]].
      * left. eauto.
      * left. exists a. split; [|done]. apply elem_of_app. by left.
      * left. by apply save_keeps_key.
      * destruct (decide (Alert.id a = Alert.id x)) as [Hid|Hne].
        -- right. by rewrite Hid.
        -- left. exists a. split; [|done]. by apply elem_of_destroy.
    + intros x Hin.
      destruct (handle_tests isEmail normalizeEmail hashPassword
                  comparePassword s c now r)
        as [[-> _]|[(y & -> & _)|[(y & y0 & _ & _ & -> & _)
                                  |(y & Hr & -> & _)]]].
      * left. eauto.
      * left. exists x. split; [|done]. apply elem_of_app. by left.
      * left. by apply save_keeps_key.
      * destruct (decide (DiagnosticTest.id x = DiagnosticTest.id y))
          as [Hid|Hne].
        -- right. by rewrite Hid.
        -- left. exists x. split; [|done]. by apply elem_of_destroy.
Qed.

(** ** The properties at work on [store0] *)

Lemma store0_ok : store_ok store0.
Proof.
  split; try compute_done.
  - intros a Ha. apply (proj1 (Forall_forall (fun a => Alert.id a < 3) (alerts store0)));
      [compute_done | exact Ha].
  - intros x Hx.
    apply (proj1 (Forall_forall (fun x => DiagnosticTest.id x < 3)
                    (tests store0)));
      [compute_done | exact Hx].
Qed.


Lemma created_owner_is_caller_witness :
  auth store0 (Verified 1) = inl alice
  ∧ store_ok store0
  ∧ post_alert_errors alert_with_owner = []
  ∧ post_test_errors test_with_owner = []
  ∧ (∃ a s',
       post_alert store0 (Verified 1) 50 alert_with_owner
       = (status_json 201
            (MessageAlert "Alert created successfully"
               (Some (mkAlertView a (Some (User.summarize alice))))), s')
       ∧ Alert.userId a = User.id alice)
  ∧ (∃ x s',
       post_test store0 (Verified 1) 50 test_with_owner
       = (status_json 201
            (MessageTest "Diagnostic test created successfully"
               (Some (mkTestView x (Some (User.summarize alice))))), s')
       ∧ DiagnosticTest.userId x = User.id alice).
Proof.
  split; [reflexivity|]. split; [exact store0_ok|].
  split; [reflexivity|]. split; [reflexivity|].
  destruct (created_owner_is_caller store0 (Verified 1) alice 50 eq_refl
              store0_ok) as [HA HT].
  split.
  - destruct (HA alert_with_owner eq_refl) as (a & s' & E & Ho & _).
    exists a, s'. exact (conj E Ho).
  - destruct (HT test_with_owner eq_refl) as (x & s' & E & Ho & _).
    exists x, s'. exact (conj E Ho).
Defined.

Lemma alert2_foreign :
  alert2 ∈ alerts store0 ∧ Alert.userId alert2 ≠ User.id alice
  ∧ ∀ a', a' ∈ alerts store0 → Alert.id a' ≠ 99.
Proof.
  split; [apply list_elem_of_further, list_elem_of_here|].
  split; [compute_done|]. intros a' Ha'.
  apply (proj1 (Forall_forall (fun a => Alert.id a ≠ 99) (alerts store0)));
    [compute_done | exact Ha'].
Qed.

Lemma test2_foreign :
  test2 ∈ tests store0 ∧ DiagnosticTest.userId test2 ≠ User.id alice
  ∧ ∀ x', x' ∈ tests store0 → DiagnosticTest.id x' ≠ 99.
Proof.
  split; [apply list_elem_of_further, list_elem_of_here|].
  split; [compute_done|]. intros x' Hx'.
  apply (proj1 (Forall_forall (fun x => DiagnosticTest.id x ≠ 99)
                  (tests store0)));
    [compute_done | exact Hx'].
Qed.

Lemma foreign_row_is_not_found_witness :
  auth store0 (Verified 1) = inl alice
  ∧ store_ok store0
  ∧ (alert2 ∈ alerts store0 ∧ Alert.userId alert2 ≠ User.id alice
     ∧ ∀ a', a' ∈ alerts store0 → Alert.id a' ≠ 99)
  ∧ (test2 ∈ tests store0 ∧ DiagnosticTest.userId test2 ≠ User.id alice
     ∧ ∀ x', x' ∈ tests store0 → DiagnosticTest.id x' ≠ 99)
  ∧ get_alert store0 (Verified 1) 2 = get_alert store0 (Verified 1) 99
  ∧ delete_alert store0 (Verified 1) 2 = delete_alert store0 (Verified 1) 99
  ∧ get_test store0 (Verified 1) 2 = get_test store0 (Verified 1) 99
  ∧ delete_test store0 (Verified 1) 2 = delete_test store0 (Verified 1) 99.
Proof.
  split; [reflexivity|]. split; [exact store0_ok|].
  split; [exact alert2_foreign|]. split; [exact test2_foreign|].
  destruct (foreign_row_is_not_found store0 (Verified 1) alice eq_refl
              store0_ok) as [HA HT].
  destruct alert2_foreign as (Hin & Hne & Hmiss).
  destruct test2_foreign as (Hin' & Hne' & Hmiss').
  destruct (HA alert2 99 Hin Hne Hmiss) as (_ & Hg & _ & Hd).
  destruct (HT test2 99 Hin' Hne' Hmiss') as (_ & Hg' & _ & Hd').
  exact (conj Hg (conj Hd (conj Hg' Hd'))).
Defined.

Lemma summary_maps_witness :
  auth store0 (Verified 1) = inl alice
  ∧ ∃ byStatus byPriority,
      alerts_summary store0 (Verified 1)
      = (json (AlertSummary
                 (Z.of_nat (List.length (owned_alerts store0 (User.id alice))))
                 byStatus byPriority), store0)
      ∧ sparse Alert.priority (owned_alerts store0 (User.id alice)) byPriority
      ∧ zero_filled Alert.status (owned_alerts store0 (User.id alice))
          ["active"; "acknowledged"; "resolved"; "dismissed"] byStatus.
Proof.
  split; [reflexivity|].
  exact (proj1 (summary_maps store0 (Verified 1) alice 0 eq_refl)).
Defined.

Lemma update_merges_metadata_witness :
  auth store0 (Verified 1) = inl alice
  ∧ store_ok store0
  ∧ put_alert_errors (metadata_body (JObj {[ "a" := JNum 1 ]})) = []
  ∧ findAlert store0 1 (User.id alice) = Some alert1
  ∧ b_metadata (metadata_body (JObj {[ "a" := JNum 1 ]}))
    = Some (JObj {[ "a" := JNum 1 ]})
  ∧ ∃ updated s' merged,
      findAlert s' 1 (User.id alice) = Some updated
      ∧ Alert.metadata updated = JObj merged
      ∧ merged !! "a" = Some (JNum 1).
Proof.
  split; [reflexivity|]. split; [exact store0_ok|]. split; [reflexivity|].
  split; [reflexivity|]. split; [reflexivity|].
  destruct (update_merges_metadata store0 (Verified 1) alice 100 1
              (metadata_body (JObj {[ "a" := JNum 1 ]})) {[ "a" := JNum 1 ]}
              alert1 eq_refl store0_ok eq_refl eq_refl eq_refl)
    as (updated & s' & merged & _ & Hf & Hm & Hk).
  exists updated, s', merged. split; [exact Hf|]. split; [exact Hm|].
  exact (Hk "a").
Defined.

Lemma store1_ok : store_ok store1.
Proof.
  split; try compute_done.
  - intros a Ha.
    apply (proj1 (Forall_forall (fun a => Alert.id a < 7) (alerts store1)));
      [compute_done | exact Ha].
  - intros x Hx.
    apply (proj1 (Forall_forall (fun x => DiagnosticTest.id x < 6)
                    (tests store1)));
      [compute_done | exact Hx].
Qed.

(** Of the six alerts of [store1], four are active alerts of user 1, and no
    two of these are tied. *)
Lemma active_alerts_untied :
  no_alert_ties
    (List.filter (alert_where (alert_whereClause alice active_by_two))
       (alerts store1)).
Proof.
  replace (List.filter (alert_where (alert_whereClause alice active_by_two))
             (alerts store1))
    with [alert1; alert3; alert4; alert6] by (by vm_compute).
  intros a b Ha Hb.
  repeat (apply elem_of_cons in Ha as [->|Ha]);
    try (by apply elem_of_nil in Ha);
    repeat (apply elem_of_cons in Hb as [->|Hb]);
    try (by apply elem_of_nil in Hb);
    intros H1 H2; first [reflexivity | by vm_compute in H1
                        | by vm_compute in H2].
Qed.

(** Two pages of two active alerts each: the second page reports
    [totalPages = 2], no next page and a previous page; and the two pages,
    asked of two engines that rank ties in opposite ways, are the four
    active alerts in order. *)
Lemma pagination_metadata_and_pages_witness :
  auth store1 (Verified 1) = inl alice
  ∧ alert_query_errors (set_page 2 active_by_two) = []
  ∧ exact_offset 2 2
  ∧ (∃ rows pg,
       get_alerts store1 (Verified 1) (set_page 2 active_by_two)
       = (json (AlertPage rows pg), store1)
       ∧ currentPage pg = 2 ∧ itemsPerPage pg = 2 ∧ totalItems pg = 4
       ∧ totalPages pg = 2
       ∧ (hasNextPage pg = true ↔ 2 < 2)
       ∧ (hasPrevPage pg = true ↔ 1 < 2))
  ∧ concat ((fun k =>
               alert_rows
                 (get_alerts (with_ties (fickle k) store1) (Verified 1)
                    (set_page (Z.of_nat k) active_by_two)).1)
              <$> seq 1 2)
    = alert_view store1 <$> [alert3; alert6; alert1; alert4].
Proof.
  split; [reflexivity|]. split; [reflexivity|]. split; [by vm_compute|].
  destruct (pagination_metadata_and_pages store1 (Verified 1) alice eq_refl)
    as [HA _].
  split.
  - destruct (HA (set_page 2 active_by_two) eq_refl)
      as (_ & _ & _ & _ & _ & Hpage & _).
    apply Hpage; by vm_compute.
  - destruct (HA active_by_two eq_refl) as (_ & _ & _ & _ & _ & _ & Hpages).
    destruct (Hpages active_alerts_untied ltac:(by vm_compute) fickle)
      as [Hc _].
    etrans; [exact Hc|]. by vm_compute.
Defined.

(** C8 as the specification states it, for every dataset, fails where the
    order clause ties two rows. The two low alerts of user 1 in [store1] have
    the same priority and the same creation time. Asked for one alert a page,
    an engine that returns tied rows by ascending key in the first request
    and by descending key in the second shows [alert4] on both pages and
    [alert5] on none, while both responses report two pages of two rows. *)
Lemma tied_rows_break_pagination :
  auth store1 (Verified 1) = inl alice
  ∧ alert_query_errors low_by_one = []
  ∧ List.filter (alert_where (alert_whereClause alice low_by_one))
      (alerts store1)
    = [alert4; alert5]
  ∧ (fun k =>
       totalPages
         match body (get_alerts (with_ties (fickle k) store1) (Verified 1)
                       (set_page (Z.of_nat k) low_by_one)).1 with
         | AlertPage _ pg => pg
         | _ => mkPagination 0 0 0 0 false false
         end) <$> seq 1 2
    = [2; 2]
  ∧ concat ((fun k =>
               alert_rows
                 (get_alerts (with_ties (fickle k) store1) (Verified 1)
                    (set_page (Z.of_nat k) low_by_one)).1)
              <$> seq 1 2)
    = [alert_view store1 alert4; alert_view store1 alert4]
  ∧ ¬ (concat ((fun k =>
                  alert_rows
                    (get_alerts (with_ties (fickle k) store1) (Verified 1)
                       (set_page (Z.of_nat k) low_by_one)).1)
                 <$> seq 1 2)
       ≡ₚ alert_view store1 <$> [alert4; alert5]).
Proof.
  assert (concat ((fun k =>
               alert_rows
                 (get_alerts (with_ties (fickle k) store1) (Verified 1)
                    (set_page (Z.of_nat k) low_by_one)).1)
              <$> seq 1 2)
          = [alert_view store1 alert4; alert_view store1 alert4]) as E
    by (by vm_compute).
  split; [reflexivity|]. split; [reflexivity|]. split; [by vm_compute|].
  split; [by vm_compute|]. split; [exact E|].
  rewrite E. intros Hp.
  assert (alert_view store1 alert5
          ∈ [alert_view store1 alert4; alert_view store1 alert4]) as Hin.
  { rewrite Hp. cbn. apply list_elem_of_further, list_elem_of_here. }
  repeat (apply elem_of_cons in Hin as [Hin|Hin]); try discriminate.
  by apply elem_of_nil in Hin.
Qed.

(** Five alerts of one user on one page, four tests on the other: the
    critical alert comes before the high ones, the newer high one before the
    older, the low ones last; the tests by descending date. *)
Lemma list_rows_ordered_witness :
  auth store1 (Verified 1) = inl alice
  ∧ alert_query_errors all_alerts = []
  ∧ test_query_errors all_tests = []
  ∧ v_alert <$> alert_rows (get_alerts store1 (Verified 1) all_alerts).1
    = [alert3; alert6; alert1; alert4; alert5]
  ∧ v_test <$> test_rows (get_tests store1 (Verified 1) all_tests).1
    = [test3; test4; test5; test1]
  ∧ (priority_rank alert6 < priority_rank alert3
     ∨ (priority_rank alert3 = priority_rank alert6
        ∧ Alert.createdAt alert6 <= Alert.createdAt alert3))
  ∧ (priority_rank alert1 < priority_rank alert6
     ∨ (priority_rank alert6 = priority_rank alert1
        ∧ Alert.createdAt alert1 <= Alert.createdAt alert6))
  ∧ DiagnosticTest.date test1 <= DiagnosticTest.date test3.
Proof.
  split; [reflexivity|]. split; [reflexivity|]. split; [reflexivity|].
  split; [by vm_compute|]. split; [by vm_compute|].
  destruct (list_rows_ordered store1 (Verified 1) alice eq_refl)
    as (_ & HA & HT).
  destruct (HA all_alerts eq_refl) as [_ Hord].
  destruct (HT all_tests eq_refl) as [_ Hdate].
  split; [|split].
  - exact (Hord 0%nat 1%nat (alert_view store1 alert3)
             (alert_view store1 alert6) ltac:(lia) eq_refl eq_refl).
  - exact (Hord 1%nat 2%nat (alert_view store1 alert6)
             (alert_view store1 alert1) ltac:(lia) eq_refl eq_refl).
  - exact (Hdate 0%nat 3%nat (test_view store1 test3)
             (test_view store1 test1) ltac:(lia) eq_refl eq_refl).
Defined.

Lemma account_deletion_only_deactivates_witness :
  auth store0 (Verified 1) = inl alice
  ∧ store_ok store0
  ∧ ∃ s',
      delete_account store0 (Verified 1)
      = (json (Message "Account deactivated successfully"), s')
      ∧ users s'
        = [User.mk 1 "Test User" "test@example.com" "hash1" (JObj ∅) false
             None 0; bob]
      ∧ (User.isActive <$> findUserByPk s' 1) = Some false
      ∧ alerts s' = alerts store0 ∧ tests s' = tests store0.
Proof.
  split; [reflexivity|]. split; [exact store0_ok|].
  destruct (proj1 (account_deletion_only_deactivates
                     (fun _ => true) (fun e => e) (fun p => p) String.eqb
                     store0 (Verified 1) alice eq_refl store0_ok))
    as (s' & E & Hu & Hf & Hrest).
  exists s'. split; [exact E|]. split; [exact Hu|].
  split; [|exact Hrest]. change (User.id alice) with 1 in Hf. by rewrite Hf.
Defined.

(** * Further properties of the routes *)

(** ** Denials, errors and reads leave the store alone *)

(** A denial is a 401, but for the token whose verification fails with an
    error the middleware has no case for: that one is a 500. *)
Lemma auth_denied_code s c denied :
  auth s c = inr denied →
  (c ≠ NotBeforeToken ∧ code denied = 401)
  ∨ (c = NotBeforeToken
     ∧ denied = status_json 500
                  (Message "Internal server error during authentication.")).
Proof.
  destruct c as [| | | |id]; cbn; try (by intros [= <-]; left);
    try (by intros [= <-]; right).
  destruct (findUserByPk s id) as [u|]; [destruct (User.isActive u)|];
    by intros [= <-]; left.
Qed.

Lemma auth_inl_iff s c user :
  auth s c = inl user
  ↔ c = Verified (User.id user)
    ∧ findUserByPk s (User.id user) = Some user
    ∧ User.isActive user = true.
Proof.
  split.
  - intros H. apply auth_ok in H as (? & ? & ? & ?). done.
  - intros (-> & Hf & Ha). cbn. by rewrite Hf, Ha.
Qed.

Section Denials.
Variable isEmail : string -> bool.
Variable normalizeEmail : string -> string.
Variable hashPassword : string -> string.
Variable comparePassword : string -> string -> bool.

Let handle_ := handle isEmail normalizeEmail hashPassword comparePassword.

Lemma handle_denied s c now r denied :
  auth s c = inr denied → handle_ s c now r = (denied, s).
Proof.
  intros H. subst handle_. destruct r; cbn [handle]; unfold_handlers;
    by rewrite H.
Qed.



Lemma handle_get_reads s c now r :
  is_get r = true → (handle_ s c now r).2 = s.
Proof.
  subst handle_. destruct r; try discriminate; intros _; cbn [handle];
    unfold_handlers; repeat case_match; simplify_eq; done.
Qed.
End Denials.

(** ** What a request of a user can touch *)

Lemma alert_update_frame now a b :
  let x := Alert.update (alert_updateData now a b) a in
  Alert.id x = Alert.id a ∧ Alert.userId x = Alert.userId a
  ∧ Alert.createdAt x = Alert.createdAt a
  ∧ (is_Some (Alert.acknowledgedAt a) → is_Some (Alert.acknowledgedAt x))
  ∧ (is_Some (Alert.resolvedAt a) → is_Some (Alert.resolvedAt x)).
Proof.
  cbn zeta. do 3 (split; [reflexivity|]). split; intros [t Ht].
  - exists t. by apply update_keeps_acknowledgedAt.
  - exists t. by apply update_keeps_resolvedAt.
Qed.

Section Touch.
Variable isEmail : string -> bool.
Variable normalizeEmail : string -> string.
Variable hashPassword : string -> string.
Variable comparePassword : string -> string -> bool.

Let handle_ := handle isEmail normalizeEmail hashPassword comparePassword.

(** What a request of [user] does to the alerts table, row by row. *)
Lemma handle_alerts_of s c user now r :
  auth s c = inl user →
  alerts (handle_ s c now r).2 = alerts s
  ∨ (∃ x, alerts (handle_ s c now r).2 = (alerts s ++ [x])%list
          ∧ Alert.id x = alert_seq s ∧ Alert.userId x = User.id user)
  ∨ (∃ x x0, alerts (handle_ s c now r).2 = save Alert.id x (alerts s)
             ∧ x0 ∈ alerts s ∧ Alert.userId x0 = User.id user
             ∧ Alert.id x = Alert.id x0 ∧ Alert.userId x = Alert.userId x0
             ∧ Alert.createdAt x = Alert.createdAt x0
             ∧ (is_Some (Alert.acknowledgedAt x0) →
                is_Some (Alert.acknowledgedAt x))
             ∧ (is_Some (Alert.resolvedAt x0) → is_Some (Alert.resolvedAt x)))
  ∨ (∃ x, x ∈ alerts s ∧ Alert.userId x = User.id user
          ∧ r = DeleteAlert (Alert.id x)
          ∧ alerts (handle_ s c now r).2 = destroy Alert.id x (alerts s)).
Proof.
  intros Ha. subst handle_. destruct r; cbn [handle]; unfold_handlers;
    rewrite Ha; repeat case_match; simplify_eq; cbn [snd alerts with_alerts];
    auto; use_lookups; subst.
  all: try (right; left; eexists; split; [reflexivity|]; done).
  all: try (right; right; right; eexists; done).
  all: right; right; left; eexists _, _; (split; [reflexivity|]);
    (split; [eassumption|]); (split; [done|]);
    first
      [ match goal with
        | |- context [Alert.update (alert_updateData ?n ?a ?b) ?a] =>
            destruct (alert_update_frame n a b) as (? & ? & ? & ? & ?)
        end; done
      | do 3 (split; [reflexivity|]);
        split; first [done | intros _; by eexists] ].
Qed.

Lemma handle_tests_of s c user now r :
  auth s c = inl user →
  tests (handle_ s c now r).2 = tests s
  ∨ (∃ x, tests (handle_ s c now r).2 = (tests s ++ [x])%list
          ∧ DiagnosticTest.id x = test_seq s
          ∧ DiagnosticTest.userId x = User.id user)
  ∨ (∃ x x0, tests (handle_ s c now r).2
               = save DiagnosticTest.id x (tests s)
             ∧ x0 ∈ tests s ∧ DiagnosticTest.userId x0 = User.id user
             ∧ DiagnosticTest.id x = DiagnosticTest.id x0
             ∧ DiagnosticTest.userId x = DiagnosticTest.userId x0
             ∧ DiagnosticTest.createdAt x = DiagnosticTest.createdAt x0)
  ∨ (∃ x, x ∈ tests s ∧ DiagnosticTest.userId x = User.id user
          ∧ r = DeleteTest (DiagnosticTest.id x)
          ∧ tests (handle_ s c now r).2
            = destroy DiagnosticTest.id x (tests s)).
Proof.
  intros Ha. subst handle_. destruct r; cbn [handle]; unfold_handlers;
    rewrite Ha; repeat case_match; simplify_eq; cbn [snd tests with_tests];
    auto; use_lookups; subst.
  all: try (right; left; eexists; split; [reflexivity|]; done).
  all: try (right; right; right; eexists; done).
  all: right; right; left; eexists _, _; (split; [reflexivity|]);
    (split; [eassumption|]); done.
Qed.

Lemma handle_users_of s c user now r :
  auth s c = inl user →
  users (handle_ s c now r).2 = users s
  ∨ ∃ u, users (handle_ s c now r).2 = save User.id u (users s)
         ∧ User.id u = User.id user ∧ User.createdAt u = User.createdAt user.
Proof.
  intros Ha. subst handle_. destruct r; cbn [handle]; unfold_handlers;
    rewrite Ha; repeat case_match; simplify_eq; cbn [snd users with_users];
    auto; right; eexists; (split; [reflexivity|]); split; reflexivity.
Qed.
End Touch.

Lemma elem_of_save_other {A} (pk : A → Z) x y (rows : list A) :
  y ∈ rows → pk y ≠ pk x → y ∈ save pk x rows.
Proof.
  intros Hin Hne. unfold save. apply list_elem_of_In, in_map_iff.
  exists y. split; [|by apply list_elem_of_In].
  by destruct (Z.eqb_spec (pk y) (pk x)).
Qed.

Lemma elem_of_destroy_iff {A} (pk : A → Z) x y (rows : list A) :
  y ∈ destroy pk x rows ↔ y ∈ rows ∧ pk y ≠ pk x.
Proof.
  unfold destroy. rewrite elem_of_filter_bool, negb_true_iff, Z.eqb_neq. done.
Qed.

(** Saving a row over the one with its key, or destroying a row, leaves
    the rows of every other owner as they are. *)
Lemma save_other_owner {A} (pk owner : A → Z) x x0 y (rows : list A) :
  NoDup (pk <$> rows) → x0 ∈ rows → pk x = pk x0 → owner x = owner x0 →
  owner y ≠ owner x0 →
  y ∈ save pk x rows ↔ y ∈ rows.
Proof.
  intros Hnd Hx0 Hk Ho Hy. split.
  - intros [->|[? _]]%elem_of_save_inv; [congruence | done].
  - intros Hin. apply elem_of_save_other; [done|].
    intros Hkey. rewrite Hk in Hkey.
    rewrite (unique_row pk rows y x0 Hnd Hin Hx0 Hkey) in Hy. done.
Qed.

Lemma destroy_other_owner {A} (pk owner : A → Z) x y (rows : list A) :
  NoDup (pk <$> rows) → x ∈ rows → owner y ≠ owner x →
  y ∈ destroy pk x rows ↔ y ∈ rows.
Proof.
  intros Hnd Hx Hy. rewrite elem_of_destroy_iff. split; [by intros [? _]|].
  intros Hin. split; [done|]. intros Hkey.
  rewrite (unique_row pk rows y x Hnd Hin Hx Hkey) in Hy. done.
Qed.

Lemma append_other_owner {A} (owner : A → Z) x y (rows : list A) :
  owner y ≠ owner x → y ∈ (rows ++ [x])%list ↔ y ∈ rows.
Proof.
  intros Hy. rewrite elem_of_app, list_elem_of_singleton.
  split; [intros [?| ->]; [done|congruence] | by left].
Qed.

(** X5. A request of an authenticated user leaves every alert, every
    diagnostic test and every user row of anybody else exactly as it was: no
    such row is changed, removed or added, whatever the route and its
    input. *)
Theorem requests_touch_only_own_rows
    (isEmail : string → bool) (normalizeEmail hashPassword : string → string)
    (comparePassword : string → string → bool) s c user now r :
  auth s c = inl user → store_ok s →
  let s' :=
    (handle isEmail normalizeEmail hashPassword comparePassword s c now r).2 in
  (∀ a, Alert.userId a ≠ User.id user → a ∈ alerts s' ↔ a ∈ alerts s)
  ∧ (∀ x, DiagnosticTest.userId x ≠ User.id user →
       x ∈ tests s' ↔ x ∈ tests s)
  ∧ (∀ u, User.id u ≠ User.id user → u ∈ users s' ↔ u ∈ users s).
Proof.
  intros Ha [Hu Hal Ht _ _] s'. subst s'. split; [|split].
  - intros a Hne.
    destruct (handle_alerts_of isEmail normalizeEmail hashPassword
                comparePassword s c user now r Ha)
      as [->|[(x & -> & _ & Hx)|[(x & x0 & -> & Hx0 & Ho & Hk & Hox & _)
                                |(x & Hx & Ho & _ & ->)]]].
    + done.
    + apply (append_other_owner Alert.userId). congruence.
    + apply (save_other_owner Alert.id Alert.userId x x0); try done.
      congruence.
    + apply (destroy_other_owner Alert.id Alert.userId); try done. congruence.
  - intros y Hne.
    destruct (handle_tests_of isEmail normalizeEmail hashPassword
                comparePassword s c user now r Ha)
      as [->|[(x & -> & _ & Hx)|[(x & x0 & -> & Hx0 & Ho & Hk & Hox & _)
                                |(x & Hx & Ho & _ & ->)]]].
    + done.
    + apply (append_other_owner DiagnosticTest.userId). congruence.
    + apply (save_other_owner DiagnosticTest.id DiagnosticTest.userId x x0);
        try done. congruence.
    + apply (destroy_other_owner DiagnosticTest.id DiagnosticTest.userId);
        try done. congruence.
  - intros u Hne.
    destruct (handle_users_of isEmail normalizeEmail hashPassword
                comparePassword s c user now r Ha) as [->|(v & -> & Hv & _)];
      [done|].
    apply (save_other_owner User.id User.id v user); try done.
    by apply (auth_ok s c).
Qed.

(** X6. Whatever the request, a row that is in the alerts or tests table
    afterwards either was created by this request, for the authenticated
    caller and under the next id, or stands for a row that was there before
    with the same id, the same owner and the same creation time; and an
    [acknowledgedAt] or [resolvedAt] that was set before is still set. *)
Theorem owner_and_timestamps_persist
    (isEmail : string → bool) (normalizeEmail hashPassword : string → string)
    (comparePassword : string → string → bool) s c now r :
  let s' :=
    (handle isEmail normalizeEmail hashPassword comparePassword s c now r).2 in
  (∀ a', a' ∈ alerts s' →
     (∃ a, a ∈ alerts s ∧ Alert.id a = Alert.id a'
           ∧ Alert.userId a = Alert.userId a'
           ∧ Alert.createdAt a = Alert.createdAt a'
           ∧ (is_Some (Alert.acknowledgedAt a) →
              is_Some (Alert.acknowledgedAt a'))
           ∧ (is_Some (Alert.resolvedAt a) → is_Some (Alert.resolvedAt a')))
     ∨ (Alert.id a' = alert_seq s
        ∧ ∃ user, auth s c = inl user ∧ Alert.userId a' = User.id user))
  ∧ (∀ x', x' ∈ tests s' →
       (∃ x, x ∈ tests s ∧ DiagnosticTest.id x = DiagnosticTest.id x'
             ∧ DiagnosticTest.userId x = DiagnosticTest.userId x'
             ∧ DiagnosticTest.createdAt x = DiagnosticTest.createdAt x')
       ∨ (DiagnosticTest.id x' = test_seq s
          ∧ ∃ user, auth s c = inl user
                    ∧ DiagnosticTest.userId x' = User.id user)).
Proof.
  intros s'. subst s'. destruct (auth s c) as [user|denied] eqn:Ha.
  - split.
    + intros a' Hin.
      destruct (handle_alerts_of isEmail normalizeEmail hashPassword
                  comparePassword s c user now r Ha)
        as [E|[(x & E & Hid & Hx)|[(x & x0 & E & Hx0 & _ & Hk & Ho & Hc & H1 & H2)
                                  |(x & _ & _ & _ & E)]]];
        rewrite E in Hin.
      * left. exists a'. done.
      * apply elem_of_app in Hin as [Hin| ->%list_elem_of_singleton].
        -- left. exists a'. done.
        -- right. eauto.
      * apply elem_of_save_inv in Hin as [->|[Hin _]].
        -- left. exists x0. done.
        -- left. exists a'. done.
      * apply elem_of_destroy_iff in Hin as [Hin _]. left. exists a'. done.
    + intros x' Hin.
      destruct (handle_tests_of isEmail normalizeEmail hashPassword
                  comparePassword s c user now r Ha)
        as [E|[(x & E & Hid & Hx)|[(x & x0 & E & Hx0 & _ & Hk & Ho & Hc)
                                  |(x & _ & _ & _ & E)]]];
        rewrite E in Hin.
      * left. exists x'. done.
      * apply elem_of_app in Hin as [Hin| ->%list_elem_of_singleton].
        -- left. exists x'. done.
        -- right. eauto.
      * apply elem_of_save_inv in Hin as [->|[Hin _]].
        -- left. exists x0. done.
        -- left. exists x'. done.
      * apply elem_of_destroy_iff in Hin as [Hin _]. left. exists x'. done.
  - rewrite (handle_denied _ _ _ _ _ _ _ _ _ Ha). cbn.
    split; intros y Hin; left; exists y; done.
Qed.

(** ** Deactivation locks the account *)

(** X4. After a successful [DELETE /api/users/account] every request that
    presents the same token, on any route, is answered 401 "Invalid token or
    user inactive" and changes nothing; users with another id are
    authenticated as before. *)
Theorem deactivated_account_is_locked_out
    (isEmail : string → bool) (normalizeEmail hashPassword : string → string)
    (comparePassword : string → string → bool) s c user :
  auth s c = inl user → store_ok s →
  let s' := (delete_account s c).2 in
  (∀ now r,
     handle isEmail normalizeEmail hashPassword comparePassword s' c now r
     = (mkResponse 401
          (Message "Access denied. Invalid token or user inactive."), s'))
  ∧ (∀ c2 u2, auth s c2 = inl u2 → User.id u2 ≠ User.id user →
       auth s' c2 = inl u2).
Proof.
  intros Ha Hok s'. subst s'. unfold delete_account.
  rewrite (authed_ok _ _ _ _ Ha). cbn [snd].
  set (s' := with_users _ s).
  pose proof (auth_ok s c user Ha) as (Hc & Hin & Hact & Hfind).
  split.
  - intros now r. apply handle_denied. rewrite Hc. cbn [auth].
    unfold findUserByPk. subst s'. cbn [users with_users].
    rewrite (findOne_save User.id (User.set_isActive false user) user);
      [done| apply (user_ids_unique s Hok) | done | done].
  - intros c2 u2 Ha2 Hne.
    pose proof (auth_ok s c2 u2 Ha2) as (Hc2 & Hin2 & Hact2 & _).
    rewrite Hc2. cbn [auth]. unfold findUserByPk. subst s'.
    cbn [users with_users].
    rewrite (findOne_unique User.id _ _ u2).
    + by rewrite Hact2.
    + rewrite save_keys. apply (user_ids_unique s Hok).
    + by apply elem_of_save_other.
    + apply Z.eqb_refl.
    + by intros y ->%Z.eqb_eq.
Qed.

(** ** The generic update applied twice *)

Lemma auth_same_users s s' c : users s' = users s → auth s' c = auth s c.
Proof. intros E. destruct c; cbn; try done. unfold findUserByPk. by rewrite E. Qed.

Lemma save_save {A} (pk : A → Z) x (rows : list A) :
  save pk x (save pk x rows) = save pk x rows.
Proof.
  unfold save. rewrite List.map_map. apply List.map_ext. intros r.
  destruct (Z.eqb_spec (pk r) (pk x)) as [|Hne]; [by rewrite Z.eqb_refl|].
  by destruct (Z.eqb_spec (pk r) (pk x)).
Qed.

(** With unique keys, saving a stored row over itself changes nothing. *)
Lemma save_same {A} (pk : A → Z) x (rows : list A) :
  NoDup (pk <$> rows) → x ∈ rows → save pk x rows = rows.
Proof.
  intros Hnd Hx. unfold save. rewrite <- (List.map_id rows) at 2.
  apply List.map_ext_in. intros r Hr%list_elem_of_In.
  destruct (Z.eqb_spec (pk r) (pk x)) as [Hk|]; [|done].
  symmetry. by apply (unique_row pk rows).
Qed.

Lemma alert_update_twice now1 now2 a b :
  let x := Alert.update (alert_updateData now1 a b) a in
  Alert.update (alert_updateData now2 x b) x = x.
Proof.
  cbn zeta. destruct a as [i ti me st pr ty u md ack res cr].
  unfold Alert.update, alert_updateData. cbn.
  destruct (truthy_str (trim <$> b_title b)),
    (b_message b), (truthy_str (b_status b)) as [newst|],
    (truthy_str (b_priority b)), (truthy_str (b_type b)),
    (truthy_json (b_metadata b)) as [m|], ack, res; cbn;
    try destruct (String.eqb newst "acknowledged");
    try destruct (String.eqb newst "resolved"); cbn;
    rewrite ?(assoc_L (∪)), ?(idemp_L (∪)); reflexivity.
Qed.

Lemma put_alert_denied s c now id b denied :
  auth s c = inr denied → put_alert s c now id b = (denied, s).
Proof. intros Ha. unfold put_alert, authed. by rewrite Ha. Qed.

Lemma put_alert_invalid s c user now id b e errs :
  auth s c = inl user → put_alert_errors b = e :: errs →
  put_alert s c now id b
  = (status_json 400 (ValidationFailed (e :: errs)), s).
Proof. intros Ha Hv. unfold put_alert, authed, validated. by rewrite Ha, Hv. Qed.

Lemma put_alert_missing s c user now id b :
  auth s c = inl user → put_alert_errors b = [] →
  findAlert s id (User.id user) = None →
  put_alert s c now id b = (alert_not_found, s).
Proof.
  intros Ha Hv Hf. unfold put_alert, authed, validated. by rewrite Ha, Hv, Hf.
Qed.

(** X7. [PUT /api/alerts/:id] is idempotent: sending the same body a second
    time, at any later moment, gives the same response and leaves the store
    as the first call left it. In particular the timestamps written by the
    first call are not moved and the merged metadata is not changed. (This is
    about the columns of the embedding; the ORM stamps its own [updatedAt]
    at every save.) *)
Theorem generic_update_is_idempotent s c now1 now2 id b :
  store_ok s →
  put_alert (put_alert s c now1 id b).2 c now2 id b = put_alert s c now1 id b.
Proof.
  intros Hok.
  destruct (auth s c) as [user|denied] eqn:Ha;
    [|by rewrite !(put_alert_denied _ _ _ _ _ _ Ha)].
  destruct (put_alert_errors b) as [|e errs] eqn:Hv;
    [|by rewrite !(put_alert_invalid _ _ _ _ _ _ _ _ Ha Hv)].
  destruct (findAlert s id (User.id user)) as [alert|] eqn:Hf;
    [|by rewrite !(put_alert_missing _ _ _ _ _ _ Ha Hv Hf)].
  destruct (put_alert_ok s c user now1 id b alert Ha Hok Hv Hf) as [E1 Hf1].
  set (x := Alert.update (alert_updateData now1 alert b) alert) in *.
  set (s1 := with_alerts (save Alert.id x) s) in *.
  rewrite E1. cbn [snd].
  assert (store_ok s1) as Hok1.
  { pose proof (handle_preserves_store_ok (fun _ => true) (fun e => e)
                  (fun p => p) String.eqb s c now1 (PutAlert id b) Hok) as H.
    cbn [handle] in H. by rewrite E1 in H. }
  assert (auth s1 c = inl user) as Ha1 by (by rewrite (auth_same_users s s1)).
  destruct (put_alert_ok s1 c user now2 id b x Ha1 Hok1 Hv Hf1) as [E2 _].
  pose proof (alert_update_twice now1 now2 alert b) as Ht. cbn zeta in Ht.
  fold x in Ht. rewrite E2, Ht.
  assert (with_alerts (save Alert.id x) s1 = s1) as ->; [|done].
  subst s1. unfold with_alerts. cbn [users alerts tests alert_seq test_seq].
  by rewrite save_save.
Qed.


(** ** Create, read, delete *)

Lemma destroy_append_fresh {A} (pk : A → Z) x (rows : list A) :
  (∀ r, r ∈ rows → pk r ≠ pk x) → destroy pk x (rows ++ [x]) = rows.
Proof.
  intros Hfresh. unfold destroy. rewrite List.filter_app. cbn.
  rewrite Z.eqb_refl. cbn. rewrite app_nil_r.
  induction rows as [|r rows IH]; [done|]. cbn.
  destruct (Z.eqb_spec (pk r) (pk x)) as [Hk|_].
  - exfalso. by apply (Hfresh r); [apply list_elem_of_here|].
  - cbn. f_equal. apply IH. intros r' Hr'. apply Hfresh.
    by apply list_elem_of_further.
Qed.

Lemma get_alert_found s c user id a :
  auth s c = inl user → findAlert s id (User.id user) = Some a →
  get_alert s c id = (json (OneAlert (alert_view s a)), s).
Proof. intros Ha Hf. unfold get_alert, authed. by rewrite Ha, Hf. Qed.

Lemma get_alert_missing s c user id :
  auth s c = inl user → findAlert s id (User.id user) = None →
  get_alert s c id = (alert_not_found, s).
Proof. intros Ha Hf. unfold get_alert, authed. by rewrite Ha, Hf. Qed.

Lemma delete_alert_found s c user id a :
  auth s c = inl user → findAlert s id (User.id user) = Some a →
  delete_alert s c id
  = (json (Message "Alert deleted successfully"),
     with_alerts (destroy Alert.id a) s).
Proof. intros Ha Hf. unfold delete_alert, authed. by rewrite Ha, Hf. Qed.

(** X8. A created alert can be read back and deleted by its creator: after
    a valid [POST /api/alerts], [GET /api/alerts/:id] with the new id answers
    200 with the created row; [DELETE] answers 200 and puts the alerts table
    back to what it was before the creation; after that the id answers 404,
    and it is not handed out again (the counter stays advanced). *)
Theorem create_read_delete_round_trip s c user now b :
  auth s c = inl user → store_ok s → post_alert_errors b = [] →
  ∃ a s1 s2,
    (post_alert s c now b).2 = s1
    ∧ get_alert s1 c (Alert.id a)
      = (json (OneAlert (mkAlertView a (Some (User.summarize user)))), s1)
    ∧ delete_alert s1 c (Alert.id a)
      = (json (Message "Alert deleted successfully"), s2)
    ∧ alerts s2 = alerts s ∧ tests s2 = tests s ∧ users s2 = users s
    ∧ alert_seq s2 = Alert.id a + 1
    ∧ get_alert s2 c (Alert.id a)
      = (mkResponse 404 (Message "Alert not found"), s2).
Proof.
  intros Ha Hok Hv.
  destruct (post_alert_owner s c user now b Ha Hok Hv)
    as (a & s1 & E & Ho & Hrows & Hpk).
  assert (Alert.id a = alert_seq s ∧ users s1 = users s ∧ tests s1 = tests s
          ∧ alert_seq s1 = alert_seq s + 1) as (Hid & Hu & Ht & Hseq).
  { unfold post_alert, authed, validated in E. rewrite Ha, Hv in E.
    cbv beta iota zeta delta [create_alert] in E. injection E as _ Es1.
    subst s1. cbn [alerts] in Hrows. apply app_inv_head in Hrows.
    injection Hrows as <-. done. }
  assert (∀ r, r ∈ alerts s → Alert.id r ≠ Alert.id a) as Hfresh.
  { intros r Hr. pose proof (alert_ids_below s Hok r Hr). lia. }
  assert (auth s1 c = inl user) as Ha1 by (by rewrite (auth_same_users s s1)).
  assert (findAlert s1 (Alert.id a) (User.id user) = Some a) as Hf1.
  { unfold findAlert. rewrite Hrows. apply findOne_app_fresh.
    - intros r Hr. apply andb_false_iff. left. apply Z.eqb_neq. by apply Hfresh.
    - by rewrite Ho, !Z.eqb_refl. }
  exists a, s1, (with_alerts (destroy Alert.id a) s1).
  split; [by rewrite E|]. split.
  { rewrite (get_alert_found s1 c user _ a Ha1 Hf1). unfold alert_view,
      include_user, findUserByPk. rewrite Hu, Ho.
    pose proof (auth_ok s c user Ha) as (_ & _ & _ & Hfu).
    unfold findUserByPk in Hfu. by rewrite Hfu. }
  split; [by apply (delete_alert_found s1 c user)|].
  cbn [alerts tests users alert_seq with_alerts].
  rewrite Hrows, (destroy_append_fresh Alert.id a (alerts s) Hfresh).
  do 3 (split; [done|]). split; [lia|].
  apply (get_alert_missing _ c user).
  - by rewrite (auth_same_users s).
  - apply findAlert_missing. cbn [alerts with_alerts].
    by rewrite Hrows, (destroy_append_fresh Alert.id a (alerts s) Hfresh).
Qed.

Lemma findTest_own s uid x :
  NoDup (DiagnosticTest.id <$> tests s) → x ∈ tests s →
  DiagnosticTest.userId x = uid →
  findTest s (DiagnosticTest.id x) uid = Some x.
Proof.
  intros Hnd Hin Ho. unfold findTest. apply (findOne_unique DiagnosticTest.id);
    [done | done | by rewrite Ho, !Z.eqb_refl |].
  by intros y [->%Z.eqb_eq _]%andb_true_iff.
Qed.

Lemma findAlert_own s uid a :
  NoDup (Alert.id <$> alerts s) → a ∈ alerts s → Alert.userId a = uid →
  findAlert s (Alert.id a) uid = Some a.
Proof.
  intros Hnd Hin Ho. unfold findAlert. apply (findOne_unique Alert.id);
    [done | done | by rewrite Ho, !Z.eqb_refl |].
  by intros y [->%Z.eqb_eq _]%andb_true_iff.
Qed.

(** X9. Deleting one's own diagnostic test answers 200 and removes exactly
    that row: every other test, every alert and every user row stays. From
    then on each route that names the id ([GET], [PUT], [PUT .../review],
    [DELETE]) answers 404 "Diagnostic test not found" and changes nothing. *)
Theorem deleted_test_is_gone s c user x :
  auth s c = inl user → store_ok s →
  x ∈ tests s → DiagnosticTest.userId x = User.id user →
  ∃ s',
    delete_test s c (DiagnosticTest.id x)
    = (json (Message "Diagnostic test deleted successfully"), s')
    ∧ (∀ y, y ∈ tests s' ↔ y ∈ tests s ∧ y ≠ x)
    ∧ alerts s' = alerts s ∧ users s' = users s
    ∧ get_test s' c (DiagnosticTest.id x) = (test_not_found, s')
    ∧ delete_test s' c (DiagnosticTest.id x) = (test_not_found, s')
    ∧ put_review s' c (DiagnosticTest.id x) = (test_not_found, s')
    ∧ ∀ b, put_test_errors b = [] →
        put_test s' c (DiagnosticTest.id x) b = (test_not_found, s').
Proof.
  intros Ha Hok Hin Ho.
  pose proof (test_ids_unique s Hok) as Hnd.
  pose proof (findTest_own s (User.id user) x Hnd Hin Ho) as Hf.
  exists (with_tests (destroy DiagnosticTest.id x) s).
  set (s' := with_tests _ s).
  assert (auth s' c = inl user) as Ha' by (by rewrite (auth_same_users s s')).
  assert (findTest s' (DiagnosticTest.id x) (User.id user) = None) as Hgone.
  { apply findTest_missing. subst s'. cbn [tests with_tests].
    by intros y [_ ?]%elem_of_destroy_iff. }
  split; [unfold delete_test, authed; by rewrite Ha, Hf|].
  split.
  { intros y. subst s'. cbn [tests with_tests]. rewrite elem_of_destroy_iff.
    split; intros [Hy Hne]; (split; [done|]).
    - by intros ->.
    - intros Hk. apply Hne. by apply (unique_row DiagnosticTest.id (tests s)). }
  do 2 (split; [done|]).
  unfold get_test, delete_test, put_review, put_test, authed, validated.
  rewrite Ha', Hgone. do 3 (split; [done|]). by intros b ->.
Qed.

(** ** Partial updates and creation defaults *)

Lemma save_alert_same s a :
  store_ok s → a ∈ alerts s → with_alerts (save Alert.id a) s = s.
Proof.
  intros Hok Hin. unfold with_alerts.
  rewrite (save_same Alert.id a (alerts s) (alert_ids_unique s Hok) Hin).
  by destruct s.
Qed.

Lemma save_test_same s x :
  store_ok s → x ∈ tests s → with_tests (save DiagnosticTest.id x) s = s.
Proof.
  intros Hok Hin. unfold with_tests.
  rewrite (save_same DiagnosticTest.id x (tests s) (test_ids_unique s Hok) Hin).
  by destruct s.
Qed.

Lemma findAlertByPk_own s a :
  NoDup (Alert.id <$> alerts s) → a ∈ alerts s →
  findAlertByPk s (Alert.id a) = Some a.
Proof.
  intros Hnd Hin. unfold findAlertByPk. apply (findOne_unique Alert.id);
    [done | done | apply Z.eqb_refl | by intros y ->%Z.eqb_eq].
Qed.

Lemma findTestByPk_own s x :
  NoDup (DiagnosticTest.id <$> tests s) → x ∈ tests s →
  findTestByPk s (DiagnosticTest.id x) = Some x.
Proof.
  intros Hnd Hin. unfold findTestByPk.
  apply (findOne_unique DiagnosticTest.id);
    [done | done | apply Z.eqb_refl | by intros y ->%Z.eqb_eq].
Qed.

(** X18. Omitted is not cleared: a [PUT] with an empty body on one's own
    alert or diagnostic test answers 200 with the row as it is and leaves
    the whole store unchanged: the [updateData] the route builds is empty. *)
Theorem empty_update_changes_nothing s c user now :
  auth s c = inl user → store_ok s →
  (∀ a, a ∈ alerts s → Alert.userId a = User.id user →
     put_alert s c now (Alert.id a) empty_alert_body
     = (json (MessageAlert "Alert updated successfully"
                (Some (alert_view s a))), s))
  ∧ (∀ x, x ∈ tests s → DiagnosticTest.userId x = User.id user →
       put_test s c (DiagnosticTest.id x) empty_test_body
       = (json (MessageTest "Diagnostic test updated successfully"
                  (Some (test_view s x))), s)).
Proof.
  intros Ha Hok. split.
  - intros a Hin Ho.
    pose proof (findAlert_own s _ a (alert_ids_unique s Hok) Hin Ho) as Hf.
    destruct (put_alert_ok s c user now (Alert.id a) empty_alert_body a
                Ha Hok eq_refl Hf) as [E _].
    assert (Alert.update (alert_updateData now a empty_alert_body) a = a)
      as Hsame by (by destruct a).
    rewrite Hsame in E. by rewrite (save_alert_same s a Hok Hin) in E.
  - intros x Hin Ho.
    pose proof (findTest_own s _ x (test_ids_unique s Hok) Hin Ho) as Hf.
    unfold put_test, authed, validated. rewrite Ha, Hf.
    change (put_test_errors empty_test_body) with (@nil string).
    assert (DiagnosticTest.update (test_updateData empty_test_body) x = x)
      as -> by (by destruct x).
    rewrite (save_test_same s x Hok Hin).
    by rewrite (findTestByPk_own s x (test_ids_unique s Hok) Hin).
Qed.




(** ** The shortcut listings *)

Lemma get_active_alerts_ok s c user :
  auth s c = inl user →
  get_active_alerts s c
  = (json (AlertList (findActiveByUser s (User.id user))
             (Z.of_nat (List.length (findActiveByUser s (User.id user))))), s).
Proof. intros Ha. unfold get_active_alerts, authed. by rewrite Ha. Qed.

(** X10. [GET /api/alerts/active] answers with exactly the caller's alerts
    whose status is "active", each once, in priority-then-recency order, and
    with their number as [count]. When the order clause ties no two of them,
    they are the rows, in the same order, that the pages of
    [GET /api/alerts?status=active] give one after the other, each page asked
    in a request of its own. *)
Theorem active_alerts_listing s c user :
  auth s c = inl user →
  ∃ rows,
    get_active_alerts s c
    = (json (AlertList rows (Z.of_nat (List.length rows))), s)
    ∧ rows ≡ₚ List.filter
                (fun a => (Alert.userId a =? User.id user)
                          && String.eqb (Alert.status a) "active")
                (alerts s)
    ∧ (∀ a, a ∈ rows ↔
            a ∈ alerts s ∧ Alert.userId a = User.id user
            ∧ Alert.status a = "active")
    ∧ (∀ i j x y, (i < j)%nat → rows !! i = Some x → rows !! j = Some y →
         priority_rank y < priority_rank x
         ∨ (priority_rank x = priority_rank y
            ∧ Alert.createdAt y <= Alert.createdAt x))
    ∧ (no_alert_ties rows →
       Z.of_nat (List.length rows) <= MAX_SAFE_INTEGER →
       ∀ limit (engine : nat → Z → Z), 1 <= limit <= 100 →
         let q := mkAlertQuery None (Some limit) (Some "active") None None in
         concat ((fun k =>
                    alert_rows
                      (get_alerts (with_ties (engine k) s) c
                         (set_page (Z.of_nat k) q)).1)
                   <$> seq 1 (Z.to_nat (Math_ceil_div
                                           (Z.of_nat (List.length rows))
                                           limit)))
         = alert_view s <$> rows).
Proof.
  intros Ha. exists (findActiveByUser s (User.id user)).
  split; [by apply get_active_alerts_ok|].
  assert (∀ a, alert_where (mkAlertWhere (User.id user) (Some "active")
                              None None) a
               = (Alert.userId a =? User.id user)
                 && String.eqb (Alert.status a) "active") as Hw.
  { intros a. unfold alert_where. cbn. by rewrite !andb_true_r. }
  split; [|split; [|split]].
  - unfold findActiveByUser. rewrite alerts_matching_perm.
    by rewrite (filter_ext_bool _ _ _ Hw).
  - intros a. unfold findActiveByUser.
    rewrite alerts_matching_perm, elem_of_filter_bool, Hw, andb_true_iff,
      Z.eqb_eq, String.eqb_eq. tauto.
  - intros i j x y Hij Hi Hj. unfold findActiveByUser in *.
    eapply (StronglySorted_lookup alert_order); [|exact Hij|exact Hi|exact Hj].
    apply alerts_matching_sorted.
  - intros Hno _ limit engine Hl q.
    assert (alert_query_errors q = []) as Hv.
    { unfold alert_query_errors. rewrite !check_app_nil, check_nil. cbn.
      repeat split; try done. unfold isInt. apply andb_true_iff.
      split; apply Z.leb_le; lia. }
    assert (no_alert_ties
              (List.filter (alert_where (alert_whereClause user q))
                 (alerts s))) as Hno'.
    { intros a b Hin1 Hin2. apply Hno; unfold findActiveByUser;
        by rewrite alerts_matching_perm. }
    pose proof (alerts_pages s c user q engine Ha Hv Hno') as Hcat.
    cbn zeta in Hcat. cbn [q_limit q] in Hcat.
    rewrite parseInt_or_Some in Hcat by lia.
    etransitivity; [|exact Hcat]. do 4 f_equal.
    unfold findActiveByUser. by rewrite alerts_matching_perm.
Qed.


Lemma get_abnormal_tests_ok s c user :
  auth s c = inl user →
  get_abnormal_tests s c
  = (json (TestList (findAbnormalByUser s (User.id user))
             (Z.of_nat (List.length (findAbnormalByUser s (User.id user))))
             None), s).
Proof. intros Ha. unfold get_abnormal_tests, authed. by rewrite Ha. Qed.

Lemma get_recent_tests_ok s c user now days :
  auth s c = inl user →
  get_recent_tests s c now days
  = (json (TestList
             (findRecentByUser s now (User.id user) (parseInt_or days 30))
             (Z.of_nat (List.length
                (findRecentByUser s now (User.id user) (parseInt_or days 30))))
             (Some (parseInt_or days 30))), s).
Proof. intros Ha. unfold get_recent_tests, authed. by rewrite Ha. Qed.

Lemma DATEONLY_days_ago now days :
  DATEONLY (now - days * day_ms) = DATEONLY now - days.
Proof.
  unfold DATEONLY.
  replace (now - days * day_ms) with (now + (- days) * day_ms) by lia.
  rewrite Z.div_add by done. lia.
Qed.

Lemma elem_of_findRecentByUser s now uid days x :
  x ∈ findRecentByUser s now uid days
  ↔ x ∈ tests s ∧ DiagnosticTest.userId x = uid
    ∧ DATEONLY now - days <= DiagnosticTest.date x.
Proof.
  unfold findRecentByUser. rewrite tests_matching_perm, elem_of_filter_bool.
  unfold test_where. cbn.
  rewrite !andb_true_r, andb_true_iff, Z.eqb_eq, Z.leb_le, midnight_le,
    DATEONLY_days_ago. tauto.
Qed.

(** X11. [GET /api/diagnostic-tests/abnormal] answers with exactly the
    caller's tests that are flagged abnormal, newest date first.
    [GET /api/diagnostic-tests/recent], for a period [days] that leads from
    now to a valid date, answers with exactly the caller's tests whose date
    is not before the calendar day that lies [days] days before today (the
    time of day does not count, so a test of that very day is in), newest
    first; an absent [days], or 0, means 30; the period is echoed; and a
    longer period never loses a test that a shorter one shows. *)
Theorem abnormal_and_recent_listings s c user now :
  auth s c = inl user →
  (∃ rows,
     get_abnormal_tests s c
     = (json (TestList rows (Z.of_nat (List.length rows)) None), s)
     ∧ (∀ x, x ∈ rows ↔
             x ∈ tests s ∧ DiagnosticTest.userId x = User.id user
             ∧ DiagnosticTest.isAbnormal x = true)
     ∧ ∀ i j x y, (i < j)%nat → rows !! i = Some x → rows !! j = Some y →
         DiagnosticTest.date y <= DiagnosticTest.date x)
  ∧ (∀ days, exact_days now (parseInt_or days 30) →
       ∃ rows,
         get_recent_tests s c now days
         = (json (TestList rows (Z.of_nat (List.length rows))
                    (Some (parseInt_or days 30))), s)
         ∧ (∀ x, x ∈ rows ↔
                 x ∈ tests s ∧ DiagnosticTest.userId x = User.id user
                 ∧ DATEONLY now - parseInt_or days 30
                   <= DiagnosticTest.date x)
         ∧ ∀ i j x y, (i < j)%nat → rows !! i = Some x → rows !! j = Some y →
             DiagnosticTest.date y <= DiagnosticTest.date x)
  ∧ get_recent_tests s c now None = get_recent_tests s c now (Some 30)
  ∧ get_recent_tests s c now (Some 0) = get_recent_tests s c now (Some 30)
  ∧ (∀ d1 d2 x, exact_days now d1 → exact_days now d2 → d1 <= d2 →
       x ∈ findRecentByUser s now (User.id user) d1 →
       x ∈ findRecentByUser s now (User.id user) d2).
Proof.
  intros Ha. split; [|split; [|split; [|split]]].
  - exists (findAbnormalByUser s (User.id user)).
    split; [by apply get_abnormal_tests_ok|]. split.
    + intros x. unfold findAbnormalByUser.
      rewrite tests_matching_perm, elem_of_filter_bool. unfold test_where.
      cbn.
      rewrite !andb_true_r, andb_true_iff, Z.eqb_eq, Bool.eqb_true_iff. tauto.
    + intros i j x y Hij Hi Hj. unfold findAbnormalByUser in *.
      eapply (StronglySorted_lookup test_order); [|exact Hij|exact Hi|exact Hj].
      apply tests_matching_sorted.
  - intros days _. eexists. split; [by apply get_recent_tests_ok|]. split.
    + intros x. apply elem_of_findRecentByUser.
    + intros i j x y Hij Hi Hj. unfold findRecentByUser in *.
      eapply (StronglySorted_lookup test_order); [|exact Hij|exact Hi|exact Hj].
      apply tests_matching_sorted.
  - reflexivity.
  - reflexivity.
  - intros d1 d2 x _ _ Hd. rewrite !elem_of_findRecentByUser.
    intros (? & ? & ?). do 2 (split; [done|]). lia.
Qed.

(** ** Page sizes *)

Lemma length_limit_offset {A} limit offset (rows : list A) :
  0 <= limit → 0 <= offset →
  Z.of_nat (List.length (limit_offset limit offset rows))
  = Z.max 0 (Z.min limit (Z.of_nat (List.length rows) - offset)).
Proof.
  intros Hl Ho. unfold limit_offset. rewrite length_take, length_drop. lia.
Qed.

Lemma page_sizes p P N (n : Z) :
  1 <= P → 1 <= p → 0 <= N →
  n = Z.max 0 (Z.min P (N - (p - 1) * P)) →
  let T := Math_ceil_div N P in
  0 <= n <= P
  ∧ (p < T → n = P)
  ∧ (p = T → n = N - (T - 1) * P ∧ 1 <= n)
  ∧ (T < p → n = 0).
Proof.
  intros HP Hp HN -> T. pose proof (Math_ceil_div_spec N P HP HN) as Hc.
  fold T in Hc. repeat split; try nia.
Qed.

(** X17. For a list request whose offset and table are within the integers
    that JavaScript's numbers hold exactly: a page never holds more rows than
    the page size; every page before the last one is full; the last page
    holds the remaining rows and at least one; a page past the last one is
    empty (and is still answered with 200). This holds for the alerts list
    and the diagnostic-tests list. *)
Theorem page_lengths s c user :
  auth s c = inl user →
  (∀ q, alert_query_errors q = [] →
     exact_offset (parseInt_or (q_page q) 1) (parseInt_or (q_limit q) 10) →
     Z.of_nat (List.length (alerts s)) <= MAX_SAFE_INTEGER →
     ∃ rows pg,
       get_alerts s c q = (json (AlertPage rows pg), s)
       ∧ 0 <= Z.of_nat (List.length rows) <= itemsPerPage pg
       ∧ (currentPage pg < totalPages pg →
          Z.of_nat (List.length rows) = itemsPerPage pg)
       ∧ (currentPage pg = totalPages pg →
          Z.of_nat (List.length rows)
          = totalItems pg - (totalPages pg - 1) * itemsPerPage pg
          ∧ 1 <= Z.of_nat (List.length rows))
       ∧ (totalPages pg < currentPage pg → rows = []))
  ∧ (∀ q, test_query_errors q = [] →
       exact_offset (parseInt_or (tq_page q) 1) (parseInt_or (tq_limit q) 10) →
       Z.of_nat (List.length (tests s)) <= MAX_SAFE_INTEGER →
       ∃ rows pg,
         get_tests s c q = (json (TestPage rows pg), s)
         ∧ 0 <= Z.of_nat (List.length rows) <= itemsPerPage pg
         ∧ (currentPage pg < totalPages pg →
            Z.of_nat (List.length rows) = itemsPerPage pg)
         ∧ (currentPage pg = totalPages pg →
            Z.of_nat (List.length rows)
            = totalItems pg - (totalPages pg - 1) * itemsPerPage pg
            ∧ 1 <= Z.of_nat (List.length rows))
         ∧ (totalPages pg < currentPage pg → rows = [])).
Proof.
  intros Ha. split; intros q Hv _ _.
  - rewrite (get_alerts_ok s c user q Ha Hv). eexists _, _. split; [done|].
    pose proof (alert_query_valid _ Hv) as (Hpg%page_valid & Hl%limit_valid & _).
    cbn [currentPage totalPages totalItems itemsPerPage page_info].
    set (P := parseInt_or (q_limit q) 10) in *.
    set (p := parseInt_or (q_page q) 1) in *.
    set (w := alert_whereClause user q).
    rewrite length_fmap.
    assert (count (alert_where w) (alerts s)
            = Z.of_nat (List.length (alerts_matching s w))) as ->.
    { unfold count, alerts_matching. by rewrite length_merge_sort. }
    set (N := Z.of_nat (List.length (alerts_matching s w))).
    destruct (page_sizes p P N
                (Z.of_nat (List.length
                   (limit_offset P ((p - 1) * P) (alerts_matching s w)))))
      as (H1 & H2 & H3 & H4); [lia | lia | lia | | ].
    { apply length_limit_offset; nia. }
    do 3 (split; [done|]). intros Hlt. specialize (H4 Hlt).
    destruct (limit_offset P ((p - 1) * P) (alerts_matching s w));
      [done | cbn in H4; lia].
  - rewrite (get_tests_ok s c user q Ha Hv). eexists _, _. split; [done|].
    pose proof (test_query_valid _ Hv) as (Hpg%page_valid & Hl%limit_valid & _).
    cbn [currentPage totalPages totalItems itemsPerPage page_info].
    set (P := parseInt_or (tq_limit q) 10) in *.
    set (p := parseInt_or (tq_page q) 1) in *.
    set (w := test_whereClause user q).
    rewrite length_fmap.
    assert (count (test_where w) (tests s)
            = Z.of_nat (List.length (tests_matching s w))) as ->.
    { unfold count, tests_matching. by rewrite length_merge_sort. }
    set (N := Z.of_nat (List.length (tests_matching s w))).
    destruct (page_sizes p P N
                (Z.of_nat (List.length
                   (limit_offset P ((p - 1) * P) (tests_matching s w)))))
      as (H1 & H2 & H3 & H4); [lia | lia | lia | | ].
    { apply length_limit_offset; nia. }
    do 3 (split; [done|]). intros Hlt. specialize (H4 Hlt).
    destruct (limit_offset P ((p - 1) * P) (tests_matching s w));
      [done | cbn in H4; lia].
Qed.


(** ** Enumerated columns stay inside their declarations *)

Lemma str_or_in allowed o d :
  optional (isIn allowed) o = true → d ∈ allowed →
  str_or o d ∈ allowed.
Proof.
  intros Hv Hd. unfold str_or. destruct o as [v|]; cbn; [|done].
  destruct (String.eqb v ""); [done|]. by apply bool_decide_eq_true in Hv.
Qed.

Lemma default_truthy_in allowed o d :
  optional (isIn allowed) o = true → d ∈ allowed →
  default d (truthy_str o) ∈ allowed.
Proof. apply str_or_in. Qed.

Lemma alert_update_valid now a b :
  put_alert_errors b = [] → alert_columns_valid a →
  alert_columns_valid (Alert.update (alert_updateData now a b) a).
Proof.
  unfold put_alert_errors. rewrite !check_app_nil, check_nil.
  intros (_ & _ & Hs & Hp & Ht) (Vs & Vp & Vt).
  unfold alert_columns_valid, Alert.update, alert_updateData. cbn.
  repeat split; by apply default_truthy_in.
Qed.

Lemma test_update_valid x b :
  put_test_errors b = [] → test_columns_valid x →
  test_columns_valid (DiagnosticTest.update (test_updateData b) x).
Proof.
  unfold put_test_errors, test_optional_errors.
  rewrite !check_app_nil, check_nil.
  intros (_ & _ & Ht & Hs & _) (Vt & Vs).
  unfold test_columns_valid, DiagnosticTest.update, test_updateData. cbn.
  split; by apply default_truthy_in.
Qed.

Section Columns.
Variable isEmail : string -> bool.
Variable normalizeEmail : string -> string.
Variable hashPassword : string -> string.
Variable comparePassword : string -> string -> bool.

Let handle_ := handle isEmail normalizeEmail hashPassword comparePassword.

Lemma handle_alert_columns s c now r :
  (∀ a, a ∈ alerts s → alert_columns_valid a) →
  ∀ a, a ∈ alerts (handle_ s c now r).2 → alert_columns_valid a.
Proof.
  intros Hs. subst handle_. destruct r; cbn [handle]; unfold_handlers;
    repeat case_match; simplify_eq; cbn [snd alerts with_alerts]; try done;
    use_lookups; subst.
  - intros a [Hin| ->%list_elem_of_singleton]%elem_of_app; [by apply Hs|].
    match goal with H : post_alert_errors _ = [] |- _ =>
      unfold post_alert_errors in H; rewrite !check_app_nil, check_nil in H;
      destruct H as (_ & _ & Hp & Ht & _) end.
    unfold alert_columns_valid. cbn. split; [compute_done|].
    split; apply str_or_in; try done; compute_done.
  - intros a [->|[Hin _]]%elem_of_save_inv; [|by apply Hs].
    apply alert_update_valid; [done|]. by apply Hs.
  - intros a [->|[Hin _]]%elem_of_save_inv; [|by apply Hs].
    match goal with H : _ ∈ alerts s |- _ =>
      destruct (Hs _ H) as (_ & ? & ?) end.
    unfold alert_columns_valid. cbn. split; [compute_done|done].
  - intros a [->|[Hin _]]%elem_of_save_inv; [|by apply Hs].
    match goal with H : _ ∈ alerts s |- _ =>
      destruct (Hs _ H) as (_ & ? & ?) end.
    unfold alert_columns_valid. cbn. split; [compute_done|done].
  - intros a [Hin _]%elem_of_destroy_iff. by apply Hs.
Qed.

Lemma handle_test_columns s c now r :
  (∀ x, x ∈ tests s → test_columns_valid x) →
  ∀ x, x ∈ tests (handle_ s c now r).2 → test_columns_valid x.
Proof.
  intros Hs. subst handle_. destruct r; cbn [handle]; unfold_handlers;
    repeat case_match; simplify_eq; cbn [snd tests with_tests]; try done;
    use_lookups; subst.
  - intros x [Hin| ->%list_elem_of_singleton]%elem_of_app; [by apply Hs|].
    match goal with H : post_test_errors _ = [] |- _ =>
      unfold post_test_errors, test_optional_errors in H;
      rewrite !check_app_nil, check_nil in H;
      destruct H as (_ & _ & _ & Ht & Hst & _) end.
    unfold test_columns_valid. cbn.
    split; apply str_or_in; try done; compute_done.
  - intros x [->|[Hin _]]%elem_of_save_inv; [|by apply Hs].
    apply test_update_valid; [done|]. by apply Hs.
  - intros x [->|[Hin _]]%elem_of_save_inv; [|by apply Hs].
    match goal with H : _ ∈ tests s |- _ =>
      destruct (Hs _ H) as (? & _) end.
    unfold test_columns_valid. cbn. split; [done|compute_done].
  - intros x [Hin _]%elem_of_destroy_iff. by apply Hs.
Qed.
End Columns.

(** X12. The request validators keep the enumerated columns inside their
    declarations: if every alert has a declared status, priority and type and
    every test a declared test type and status, the same holds after any
    request, whatever its input. *)
Theorem requests_keep_columns_valid
    (isEmail : string → bool) (normalizeEmail hashPassword : string → string)
    (comparePassword : string → string → bool) s c now r :
  columns_valid s →
  columns_valid
    (handle isEmail normalizeEmail hashPassword comparePassword s c now r).2.
Proof.
  intros [Ha Ht]. split.
  - by apply handle_alert_columns.
  - by apply handle_test_columns.
Qed.


(** ** The summary counts add up *)

Lemma occurrences_cons {A} (key : A → string) k r rows :
  occurrences key k (r :: rows)
  = (if String.eqb (key r) k then 1 else 0) + occurrences key k rows.
Proof. unfold occurrences. cbn. destruct (String.eqb (key r) k); cbn; lia. Qed.

Lemma foldr_sum_add (f g : string → Z) keys :
  foldr (fun k acc => (f k + g k) + acc) 0 keys
  = foldr (fun k acc => f k + acc) 0 keys
    + foldr (fun k acc => g k + acc) 0 keys.
Proof. induction keys as [|k keys IH]; cbn; lia. Qed.

Lemma sum_indicator v keys :
  NoDup keys → v ∈ keys →
  foldr (fun k acc => (if String.eqb v k then 1 else 0) + acc) 0 keys = 1.
Proof.
  induction keys as [|k keys IH]; [by intros _ ?%elem_of_nil|].
  intros [Hk Hnd]%NoDup_cons Hin. cbn.
  destruct (String.eqb_spec v k) as [->|Hne].
  - assert (foldr (fun k0 acc => (if String.eqb k k0 then 1 else 0) + acc)
              0 keys = 0) as ->; [|done].
    clear IH Hin Hnd. induction keys as [|k' keys IH]; [done|]. cbn.
    apply not_elem_of_cons in Hk as [Hne Hk].
    destruct (String.eqb_spec k k'); [done|]. by rewrite IH.
  - apply elem_of_cons in Hin as [?|Hin]; [done|]. by rewrite IH.
Qed.

(** When every row carries one of the keys, the per-key counts add up to
    the number of rows. *)
Lemma occurrences_total {A} (key : A → string) keys rows :
  NoDup keys → (∀ r, r ∈ rows → key r ∈ keys) →
  foldr (fun k acc => occurrences key k rows + acc) 0 keys
  = Z.of_nat (List.length rows).
Proof.
  intros Hnd. induction rows as [|r rows IH]; intros Hkeys.
  - cbn. clear. induction keys as [|k keys IH]; [done|]. cbn. by rewrite IH.
  - rewrite (foldr_ext _ (fun k acc =>
               ((if String.eqb (key r) k then 1 else 0)
                + occurrences key k rows) + acc) 0 0 keys keys);
      [|by intros; rewrite occurrences_cons|done|done].
    rewrite foldr_sum_add, sum_indicator, IH; cbn [List.length]; try done.
    + lia.
    + intros r' Hr'. apply Hkeys. by apply list_elem_of_further.
    + apply Hkeys, list_elem_of_here.
Qed.

Lemma elem_of_owned_alerts s uid a :
  a ∈ owned_alerts s uid ↔ a ∈ alerts s ∧ Alert.userId a = uid.
Proof. unfold owned_alerts. by rewrite elem_of_filter_bool, Z.eqb_eq. Qed.

Lemma elem_of_owned_tests s uid x :
  x ∈ owned_tests s uid ↔ x ∈ tests s ∧ DiagnosticTest.userId x = uid.
Proof. unfold owned_tests. by rewrite elem_of_filter_bool, Z.eqb_eq. Qed.

Lemma count_le_owned_tests s w :
  count (test_where w) (tests s)
  <= Z.of_nat (List.length (owned_tests s (tw_userId w))).
Proof.
  unfold count, owned_tests. apply inj_le.
  induction (tests s) as [|x rows IH]; [done|]. cbn. unfold test_where at 1.
  destruct (DiagnosticTest.userId x =? tw_userId w); cbn;
    [|exact IH].
  match goal with |- context [if ?b then _ else _] => destruct b end; cbn; lia.
Qed.

(** X13. In a store whose status columns hold declared values, the alerts
    summary adds up: [total] is the sum of the four [byStatus] counts. The
    tests summary does not: its [total] is the sum of its three [byStatus]
    counts plus the number of the caller's cancelled tests, which the summary
    leaves out; [abnormal] and [recent] never exceed [total]. *)
Theorem summary_counts_add_up s c user now :
  auth s c = inl user → columns_valid s →
  (∃ total byStatus byPriority active acknowledged resolved dismissed,
     alerts_summary s c = (json (AlertSummary total byStatus byPriority), s)
     ∧ byStatus !! "active" = Some active
     ∧ byStatus !! "acknowledged" = Some acknowledged
     ∧ byStatus !! "resolved" = Some resolved
     ∧ byStatus !! "dismissed" = Some dismissed
     ∧ total = active + acknowledged + resolved + dismissed)
  ∧ (∃ total abnormal recent byStatus byType pending completed reviewed,
       tests_summary s c now
       = (json (TestSummary total abnormal recent byStatus byType), s)
       ∧ byStatus !! "pending" = Some pending
       ∧ byStatus !! "completed" = Some completed
       ∧ byStatus !! "reviewed" = Some reviewed
       ∧ total
         = pending + completed + reviewed
           + occurrences DiagnosticTest.status "cancelled"
               (owned_tests s (User.id user))
       ∧ 0 <= abnormal <= total ∧ 0 <= recent <= total).
Proof.
  intros Ha [Hva Hvt]. split.
  - unfold alerts_summary, authed. rewrite Ha. cbn zeta.
    eexists _, _, _, _, _, _, _. split; [reflexivity|].
    do 4 (split; [reflexivity|]).
    rewrite !count_status_alerts. unfold count. rewrite owned_alerts_where.
    rewrite <- (occurrences_total Alert.status Alert.status_enum).
    + cbn. lia.
    + compute_done.
    + intros a [Hin _]%elem_of_owned_alerts. by destruct (Hva a Hin).
  - unfold tests_summary, authed. rewrite Ha. cbn zeta.
    eexists _, _, _, _, _, _, _, _. split; [reflexivity|].
    do 3 (split; [reflexivity|]).
    rewrite !count_status_tests. split; [|split].
    + unfold count. rewrite owned_tests_where.
      rewrite <- (occurrences_total DiagnosticTest.status
                    DiagnosticTest.status_enum).
      * cbn. lia.
      * compute_done.
      * intros x [Hin _]%elem_of_owned_tests. by destruct (Hvt x Hin).
    + split; [unfold count; lia|].
      unfold count at 2. rewrite owned_tests_where.
      apply (count_le_owned_tests s
               (mkTestWhere (User.id user) None None (Some true) None None)).
    + split; [unfold count; lia|].
      unfold count at 2. rewrite owned_tests_where.
      apply (count_le_owned_tests s
               (mkTestWhere (User.id user) None None None
                  (Some (midnight (DATEONLY (now - 30 * day_ms)))) None)).
Qed.

(** X14. The counters of the different endpoints agree on one store:
    [GET /api/users/stats] reports as [totalAlerts], [activeAlerts] and
    [totalTests] the [total] and the [byStatus.active] of the alerts summary
    and the [total] of the tests summary; [activeAlerts] is the [count] of
    [GET /api/alerts/active]; and the [abnormal] and [recent] of the tests
    summary are the [count]s of [GET /api/diagnostic-tests/abnormal] and of
    [GET /api/diagnostic-tests/recent] without [days] at the same moment. *)
Theorem endpoint_counters_agree s c user now :
  auth s c = inl user →
  ∃ totalAlerts activeAlerts totalTests abnormal recent byStatus byPriority
    tbyStatus byType actives abnormals recents,
    get_user_stats s c
    = (json (Stats totalAlerts activeAlerts totalTests (User.createdAt user)
               (User.lastLogin user)), s)
    ∧ alerts_summary s c
      = (json (AlertSummary totalAlerts byStatus byPriority), s)
    ∧ byStatus !! "active" = Some activeAlerts
    ∧ tests_summary s c now
      = (json (TestSummary totalTests abnormal recent tbyStatus byType), s)
    ∧ get_active_alerts s c = (json (AlertList actives activeAlerts), s)
    ∧ get_abnormal_tests s c = (json (TestList abnormals abnormal None), s)
    ∧ get_recent_tests s c now None
      = (json (TestList recents recent (Some 30)), s).
Proof.
  intros Ha.
  unfold get_user_stats, alerts_summary, tests_summary, authed. rewrite Ha.
  rewrite (get_active_alerts_ok s c user Ha),
    (get_abnormal_tests_ok s c user Ha),
    (get_recent_tests_ok s c user now None Ha). cbn zeta.
  eexists _, _, _, _, _, _, _, _, _, _, _, _.
  split; [reflexivity|]. split; [reflexivity|]. split; [reflexivity|].
  split; [reflexivity|].
  unfold findActiveByUser, findAbnormalByUser, findRecentByUser,
    alerts_matching, tests_matching, count.
  rewrite !length_merge_sort. done.
Qed.


(** ** Authentication *)

(** X1. The middleware lets a request through exactly when its token
    verifies to the id of a stored user that is active, and hands that user
    to the route. Every other outcome is a denial, with which every route of
    the three routers answers without touching the store: a 401, except for a
    token whose verification fails with an error that is neither a
    [JsonWebTokenError] nor a [TokenExpiredError], which is answered 500.
    [optionalAuth] resolves a user in exactly the cases in which [auth] lets
    the request through, and the same user. *)
Theorem auth_resolves_active_users
    (isEmail : string → bool) (normalizeEmail hashPassword : string → string)
    (comparePassword : string → string → bool) s c :
  (∀ user,
     auth s c = inl user
     ↔ ∃ id, c = Verified id ∧ findUserByPk s id = Some user
             ∧ User.isActive user = true)
  ∧ (∀ denied, auth s c = inr denied →
       ((c ≠ NotBeforeToken ∧ code denied = 401)
        ∨ (c = NotBeforeToken
           ∧ denied
             = status_json 500
                 (Message "Internal server error during authentication.")))
       ∧ ∀ now r,
           handle isEmail normalizeEmail hashPassword comparePassword
             s c now r = (denied, s))
  ∧ (∀ user, optionalAuth s c = Some user ↔ auth s c = inl user).
Proof.
  split; [|split].
  - intros user. split.
    + intros H. apply auth_ok in H as (? & ? & ? & ?). eauto.
    + intros (id & -> & Hf & Ha). cbn. by rewrite Hf, Ha.
  - intros denied Hd. split; [by eapply auth_denied_code|].
    intros now r. by apply handle_denied.
  - intros user. destruct c as [| | | |id]; cbn; try done.
    destruct (findUserByPk s id) as [u|]; [|done].
    destruct (User.isActive u); [|done]. split; by intros [= ->].
Qed.

(** The five outcomes of the middleware on [store0], where user 7 is not
    stored. *)
Example auth_outcomes :
  auth store0 (Verified 1) = inl alice
  ∧ (fun c => match auth store0 c with
               | inl _ => 200
               | inr denied => code denied
               end)
      <$> [NoToken; InvalidToken; ExpiredToken; NotBeforeToken; Verified 7]
    = [401; 401; 401; 500; 401].
Proof. split; reflexivity. Qed.

(** ** Preferences *)

Lemma spread_or_empty v :
  spread (default (JObj ∅) (truthy_json (Some v))) = spread v.
Proof.
  destruct v as [|[]|n|str|l|m]; cbn; try done.
  - by destruct (Z.eqb_spec n 0).
  - by destruct str.
Qed.

Lemma preferences_lookup (t e th la : option jvalue)
    (old : gmap string jvalue) k :
  (spread_if "language" la ∪ spread_if "theme" th
   ∪ spread_if "emailNotifications" e ∪ spread_if "notificationThreshold" t
   ∪ old) !! k
  = match (if String.eqb k "notificationThreshold" then t
           else if String.eqb k "emailNotifications" then e
           else if String.eqb k "theme" then th
           else if String.eqb k "language" then la else None) with
    | Some v => Some v
    | None => old !! k
    end.
Proof.
  rewrite !lookup_union. unfold spread_if.
  destruct (String.eqb_spec k "notificationThreshold") as [->|H1];
    [|destruct (String.eqb_spec k "emailNotifications") as [->|H2];
      [|destruct (String.eqb_spec k "theme") as [->|H3];
        [|destruct (String.eqb_spec k "language") as [->|H4]]]];
    destruct t, e, th, la;
    rewrite ?lookup_singleton_eq, ?lookup_singleton_ne, ?lookup_empty by done;
    by destruct (old !! _).
Qed.

(** X15. [PUT /api/users/preferences] merges: with a valid body it answers
    200 with the merged preferences, in which a key the body supplies has the
    supplied value and every other key, also one outside the four known
    preferences, has the value it had; the merged object is what the profile
    shows afterwards, no other field of the profile that the embedding
    carries changes (the ORM's [updatedAt] is not among them), and alerts
    and tests are untouched. *)
Theorem preferences_update_merges s c user b :
  auth s c = inl user → store_ok s → put_preferences_errors b = [] →
  ∃ merged s',
    put_preferences s c b
    = (json (MessagePreferences "Preferences updated successfully"
               (JObj merged)), s')
    ∧ (∀ k, merged !! k
            = match supplied_preference b k with
              | Some v => Some v
              | None => spread (User.preferences user) !! k
              end)
    ∧ get_profile s' c
      = (json (Profile (User.id user) (User.name user) (User.email user)
                 (JObj merged) (User.isActive user) (User.lastLogin user)
                 (User.createdAt user)), s')
    ∧ alerts s' = alerts s ∧ tests s' = tests s.
Proof.
  intros Ha Hok Hv. unfold put_preferences, authed, validated.
  rewrite Ha, Hv. eexists _, _. split; [reflexivity|].
  unfold put_preferences_errors in Hv. rewrite !check_app_nil, check_nil in Hv.
  destruct Hv as (Ht & Hth & Hla).
  pose proof (auth_ok s c user Ha) as (Hc & Hin & Hact & _).
  split; [|split].
  - intros k. rewrite spread_or_empty, preferences_lookup.
    unfold supplied_preference.
    rewrite (truthy_str_optional ["low"; "medium"; "high"] _ ltac:(compute_done) Ht),
      (truthy_str_optional ["light"; "dark"] _ ltac:(compute_done) Hth),
      (truthy_str_optional ["en"; "es"; "fr"; "de"] _ ltac:(compute_done) Hla).
    done.
  - set (u' := User.set_preferences _ user).
    assert (findUserByPk (with_users (save User.id u') s) (User.id user)
            = Some u') as Hf.
    { unfold findUserByPk. cbn [users with_users].
      by apply (findOne_save User.id u' user);
        [apply (user_ids_unique s Hok)|..]. }
    unfold get_profile, authed. rewrite Hc. cbn [auth]. rewrite Hf.
    change (User.isActive u') with (User.isActive user). rewrite Hact.
    change (User.id u') with (User.id user). rewrite Hf.
    subst u'. unfold User.set_preferences at 1 2 3 4 5 6 7.
    cbn [User.id User.name User.email User.preferences User.isActive
         User.lastLogin User.createdAt]. by rewrite Hact.
  - done.
Qed.

(** ** The client's session *)

Lemma authReducer_in_sync st b a :
  in_sync (st, b) → in_sync (AuthContext.authReducer st b a).
Proof.
  intros [Ht Hh]. destruct a; cbn; split; cbn; try done; eauto.
Qed.

Lemma dispatch_all_in_sync sb actions :
  in_sync sb → in_sync (AuthContext.dispatch_all sb actions).
Proof.
  revert sb. induction actions as [|a actions IH]; intros [st b] H; [done|].
  cbn. apply IH. by apply authReducer_in_sync.
Qed.

Lemma dispatch_all_snoc sb actions a :
  AuthContext.dispatch_all sb (actions ++ [a])
  = AuthContext.authReducer (AuthContext.dispatch_all sb actions).1 (AuthContext.dispatch_all sb actions).2 a.
Proof. unfold AuthContext.dispatch_all. by rewrite foldl_app. Qed.

Lemma dispatch_all_authenticated sb actions :
  AuthContext.isAuthenticated (AuthContext.dispatch_all sb actions).1 = true →
  AuthContext.isAuthenticated sb.1 = true ∨ ∃ a, a ∈ actions ∧ AuthContext.is_success a = true.
Proof.
  induction actions as [|a actions IH] using rev_ind; [by left|].
  rewrite dispatch_all_snoc. intros H.
  destruct (AuthContext.is_success a) eqn:Hs.
  - right. exists a. split; [|done]. apply elem_of_app. right.
    apply list_elem_of_here.
  - destruct IH as [?|(a' & Hin & Hs')].
    + destruct a; try discriminate; exact H.
    + by left.
    + right. exists a'. split; [|done]. apply elem_of_app. by left.
Qed.

(** X16. About [authReducer] alone: starting from the initial state of a
    page whose axios has no default Authorization header, after any sequence
    of dispatched actions (and no other write to localStorage or the header)
    the [token] of the session state is the [token] item of localStorage,
    an Authorization header, when there is one, is "Bearer " followed by that
    token, and the session is authenticated only if one of the actions was a
    login, register or load-user success. *)
Theorem session_token_stays_in_sync b0 actions :
  AuthContext.axios_Authorization b0 = None →
  let sb := AuthContext.dispatch_all (AuthContext.initialState b0, b0) actions in
  AuthContext.token sb.1 = AuthContext.localStorage_token sb.2
  ∧ (AuthContext.axios_Authorization sb.2 = None
     ∨ ∃ t, AuthContext.token sb.1 = Some t
            ∧ AuthContext.axios_Authorization sb.2 = Some (String.append "Bearer " t))
  ∧ (AuthContext.isAuthenticated sb.1 = true →
     ∃ a, a ∈ actions ∧ AuthContext.is_success a = true).
Proof.
  intros Hh sb.
  assert (in_sync sb) as [Ht Ha].
  { apply dispatch_all_in_sync. split; [done|by left]. }
  split; [done|]. split; [done|]. intros Hauth.
  by destruct (dispatch_all_authenticated _ _ Hauth) as [?|?].
Qed.


(** ** The dedicated transitions, row by row *)





(** ** Errors, reads and keys, for every route *)


(** X3. No [GET] route writes: whatever it answers, the store is the same
    afterwards. *)
Theorem get_requests_read_only
    (isEmail : string → bool) (normalizeEmail hashPassword : string → string)
    (comparePassword : string → string → bool) s c now r :
  is_get r = true →
  (handle isEmail normalizeEmail hashPassword comparePassword s c now r).2 = s.
Proof. apply handle_get_reads. Qed.

(** X20. Every request keeps the primary keys in order: if the ids of
    users, alerts and tests are unique and the ids of alerts and tests lie
    below their auto-increment counters, the same holds afterwards; created
    rows get fresh ids and saved rows keep theirs. *)
Theorem requests_keep_primary_keys
    (isEmail : string → bool) (normalizeEmail hashPassword : string → string)
    (comparePassword : string → string → bool) s c now r :
  store_ok s →
  store_ok
    (handle isEmail normalizeEmail hashPassword comparePassword s c now r).2.
Proof. apply handle_preserves_store_ok. Qed.

(** ** The further properties at work on [store0] *)

Lemma store0_columns_valid : columns_valid store0.
Proof.
  split.
  - intros a Ha.
    apply (proj1 (Forall_forall
             (fun a => Alert.status a ∈ Alert.status_enum
                       ∧ Alert.priority a ∈ Alert.priority_enum
                       ∧ Alert.type a ∈ Alert.type_values) (alerts store0)));
      [compute_done | exact Ha].
  - intros x Hx.
    apply (proj1 (Forall_forall
             (fun x => DiagnosticTest.testType x
                         ∈ DiagnosticTest.testType_values
                       ∧ DiagnosticTest.status x ∈ DiagnosticTest.status_enum)
             (tests store0))); [compute_done | exact Hx].
Qed.

Lemma alert1_own :
  alert1 ∈ alerts store0 ∧ Alert.userId alert1 = User.id alice.
Proof. split; [apply list_elem_of_here | reflexivity]. Qed.

Lemma test1_own :
  test1 ∈ tests store0 ∧ DiagnosticTest.userId test1 = User.id alice.
Proof. split; [apply list_elem_of_here | reflexivity]. Qed.

Lemma get_requests_read_only_witness :
  is_get GetActiveAlerts = true
  ∧ (handle (fun _ => true) (fun e => e) (fun p => p) String.eqb
       store0 (Verified 1) 0 GetActiveAlerts).2 = store0.
Proof.
  split; [reflexivity|].
  exact (get_requests_read_only (fun _ => true) (fun e => e) (fun p => p)
           String.eqb store0 (Verified 1) 0 GetActiveAlerts eq_refl).
Defined.

Lemma deactivated_account_is_locked_out_witness :
  auth store0 (Verified 1) = inl alice
  ∧ store_ok store0
  ∧ handle (fun _ => true) (fun e => e) (fun p => p) String.eqb
      (delete_account store0 (Verified 1)).2 (Verified 1) 0 GetActiveAlerts
    = (mkResponse 401
         (Message "Access denied. Invalid token or user inactive."),
       (delete_account store0 (Verified 1)).2).
Proof.
  split; [reflexivity|]. split; [exact store0_ok|].
  exact (proj1 (deactivated_account_is_locked_out (fun _ => true)
                  (fun e => e) (fun p => p) String.eqb store0 (Verified 1)
                  alice eq_refl store0_ok) 0 GetActiveAlerts).
Defined.

Lemma requests_touch_only_own_rows_witness :
  auth store0 (Verified 1) = inl alice
  ∧ store_ok store0
  ∧ ∀ a, Alert.userId a ≠ User.id alice →
      a ∈ alerts (handle (fun _ => true) (fun e => e) (fun p => p) String.eqb
                    store0 (Verified 1) 5 (DeleteAlert 2)).2
      ↔ a ∈ alerts store0.
Proof.
  split; [reflexivity|]. split; [exact store0_ok|].
  exact (proj1 (requests_touch_only_own_rows (fun _ => true) (fun e => e)
                  (fun p => p) String.eqb store0 (Verified 1) alice 5
                  (DeleteAlert 2) eq_refl store0_ok)).
Defined.

Lemma generic_update_is_idempotent_witness :
  store_ok store0
  ∧ put_alert (put_alert store0 (Verified 1) 1000 1
                 (status_body "acknowledged")).2
      (Verified 1) 2000 1 (status_body "acknowledged")
    = put_alert store0 (Verified 1) 1000 1 (status_body "acknowledged").
Proof.
  split; [exact store0_ok|].
  exact (generic_update_is_idempotent store0 (Verified 1) 1000 2000 1
           (status_body "acknowledged") store0_ok).
Defined.

Lemma create_read_delete_round_trip_witness :
  auth store0 (Verified 1) = inl alice
  ∧ store_ok store0
  ∧ post_alert_errors alert_with_owner = []
  ∧ ∃ a s1 s2,
      (post_alert store0 (Verified 1) 50 alert_with_owner).2 = s1
      ∧ delete_alert s1 (Verified 1) (Alert.id a)
        = (json (Message "Alert deleted successfully"), s2)
      ∧ alerts s2 = alerts store0.
Proof.
  split; [reflexivity|]. split; [exact store0_ok|]. split; [reflexivity|].
  destruct (create_read_delete_round_trip store0 (Verified 1) alice 50
              alert_with_owner eq_refl store0_ok eq_refl)
    as (a & s1 & s2 & E & _ & Hd & Hrows & _).
  exists a, s1, s2. exact (conj E (conj Hd Hrows)).
Defined.

Lemma deleted_test_is_gone_witness :
  auth store0 (Verified 1) = inl alice
  ∧ store_ok store0
  ∧ test1 ∈ tests store0
  ∧ DiagnosticTest.userId test1 = User.id alice
  ∧ ∃ s',
      delete_test store0 (Verified 1) (DiagnosticTest.id test1)
      = (json (Message "Diagnostic test deleted successfully"), s')
      ∧ get_test s' (Verified 1) (DiagnosticTest.id test1)
        = (test_not_found, s').
Proof.
  split; [reflexivity|]. split; [exact store0_ok|].
  split; [exact (proj1 test1_own)|]. split; [reflexivity|].
  destruct (deleted_test_is_gone store0 (Verified 1) alice test1 eq_refl
              store0_ok (proj1 test1_own) eq_refl)
    as (s' & E & _ & _ & _ & Hg & _).
  exists s'. exact (conj E Hg).
Defined.

Lemma active_rows_untied : no_alert_ties [alert3; alert6; alert1; alert4].
Proof.
  intros a b Ha Hb.
  repeat (apply elem_of_cons in Ha as [->|Ha]);
    try (by apply elem_of_nil in Ha);
    repeat (apply elem_of_cons in Hb as [->|Hb]);
    try (by apply elem_of_nil in Hb);
    intros H1 H2; first [reflexivity | by vm_compute in H1
                        | by vm_compute in H2].
Qed.

(** The four active alerts of user 1 in [store1], and the same four from two
    pages of three asked of two engines. *)
Lemma active_alerts_listing_witness :
  auth store1 (Verified 1) = inl alice
  ∧ get_active_alerts store1 (Verified 1)
    = (json (AlertList [alert3; alert6; alert1; alert4] 4), store1)
  ∧ concat ((fun k =>
               alert_rows
                 (get_alerts (with_ties (fickle k) store1) (Verified 1)
                    (set_page (Z.of_nat k)
                       (mkAlertQuery None (Some 3) (Some "active") None
                          None))).1)
              <$> seq 1 2)
    = alert_view store1 <$> [alert3; alert6; alert1; alert4].
Proof.
  split; [reflexivity|].
  destruct (active_alerts_listing store1 (Verified 1) alice eq_refl)
    as (rows & E & _ & _ & _ & Hpages).
  rewrite (get_active_alerts_ok store1 (Verified 1) alice eq_refl) in E.
  injection E as Hrows _.
  assert (rows = [alert3; alert6; alert1; alert4]) as ->
    by (rewrite <- Hrows; by vm_compute).
  split; [by vm_compute|].
  exact (Hpages active_rows_untied ltac:(by vm_compute) 3 fickle
           ltac:(lia)).
Defined.

(** At noon of day 19735 the last 30 days begin with day 19705: the two
    tests of that day are in, the test of day 19700 is not. *)
Lemma abnormal_and_recent_listings_witness :
  auth store1 (Verified 1) = inl alice
  ∧ exact_days noon (parseInt_or None 30)
  ∧ get_abnormal_tests store1 (Verified 1)
    = (json (TestList [test3; test4] 2 None), store1)
  ∧ ∃ rows,
      get_recent_tests store1 (Verified 1) noon None
      = (json (TestList rows (Z.of_nat (List.length rows)) (Some 30)), store1)
      ∧ DiagnosticTest.id <$> rows = [3; 4; 5]
      ∧ (test4 ∈ rows ↔
         test4 ∈ tests store1
         ∧ DiagnosticTest.userId test4 = User.id alice
         ∧ DATEONLY noon - 30 <= DiagnosticTest.date test4).
Proof.
  split; [reflexivity|]. split; [by vm_compute|]. split; [by vm_compute|].
  destruct (proj1 (proj2 (abnormal_and_recent_listings store1 (Verified 1)
                            alice noon eq_refl)) None ltac:(by vm_compute))
    as (rows & E & Hm & _).
  exists rows. split; [exact E|]. split; [|exact (Hm test4)].
  rewrite (get_recent_tests_ok store1 (Verified 1) alice noon None eq_refl)
    in E.
  injection E as Hrows _. rewrite <- Hrows. by vm_compute.
Defined.

Lemma requests_keep_columns_valid_witness :
  columns_valid store0
  ∧ columns_valid
      (handle (fun _ => true) (fun e => e) (fun p => p) String.eqb
         store0 (Verified 1) 5 (PutAlert 1 (status_body "dismissed"))).2.
Proof.
  split; [exact store0_columns_valid|].
  exact (requests_keep_columns_valid (fun _ => true) (fun e => e)
           (fun p => p) String.eqb store0 (Verified 1) 5
           (PutAlert 1 (status_body "dismissed")) store0_columns_valid).
Defined.

Lemma store1_columns_valid : columns_valid store1.
Proof.
  split.
  - intros a Ha.
    apply (proj1 (Forall_forall
             (fun a => Alert.status a ∈ Alert.status_enum
                       ∧ Alert.priority a ∈ Alert.priority_enum
                       ∧ Alert.type a ∈ Alert.type_values) (alerts store1)));
      [compute_done | exact Ha].
  - intros x Hx.
    apply (proj1 (Forall_forall
             (fun x => DiagnosticTest.testType x
                         ∈ DiagnosticTest.testType_values
                       ∧ DiagnosticTest.status x ∈ DiagnosticTest.status_enum)
             (tests store1))); [compute_done | exact Hx].
Qed.

(** User 1 of [store1] has five alerts, four of them active and one
    acknowledged, and four tests, one of each status: the three the summary
    lists and a cancelled one. *)
Lemma summary_counts_add_up_witness :
  auth store1 (Verified 1) = inl alice
  ∧ columns_valid store1
  ∧ (∃ total byStatus byPriority active acknowledged resolved dismissed,
       alerts_summary store1 (Verified 1)
       = (json (AlertSummary total byStatus byPriority), store1)
       ∧ byStatus !! "active" = Some active
       ∧ byStatus !! "acknowledged" = Some acknowledged
       ∧ byStatus !! "resolved" = Some resolved
       ∧ byStatus !! "dismissed" = Some dismissed
       ∧ total = active + acknowledged + resolved + dismissed)
  ∧ (∃ total abnormal recent byStatus byType pending completed reviewed,
       tests_summary store1 (Verified 1) noon
       = (json (TestSummary total abnormal recent byStatus byType), store1)
       ∧ byStatus !! "pending" = Some pending
       ∧ byStatus !! "completed" = Some completed
       ∧ byStatus !! "reviewed" = Some reviewed
       ∧ total
         = pending + completed + reviewed
           + occurrences DiagnosticTest.status "cancelled"
               (owned_tests store1 (User.id alice))
       ∧ 0 <= abnormal <= total ∧ 0 <= recent <= total)
  ∧ (alerts_summary store1 (Verified 1)).1
    = json (AlertSummary 5
              {[ "active" := 4; "acknowledged" := 1; "resolved" := 0;
                 "dismissed" := 0 ]}
              {[ "critical" := 1; "high" := 2; "low" := 2 ]})
  ∧ (tests_summary store1 (Verified 1) noon).1
    = json (TestSummary 4 2 3
              {[ "pending" := 1; "completed" := 1; "reviewed" := 1 ]}
              {[ "blood" := 2; "cardiac" := 1; "urine" := 1 ]}).
Proof.
  split; [reflexivity|]. split; [exact store1_columns_valid|].
  destruct (summary_counts_add_up store1 (Verified 1) alice noon eq_refl
              store1_columns_valid) as [HA HT].
  split; [exact HA|]. split; [exact HT|].
  split; vm_compute; reflexivity.
Defined.

Lemma endpoint_counters_agree_witness :
  auth store0 (Verified 1) = inl alice
  ∧ ∃ totalAlerts activeAlerts totalTests actives,
      get_user_stats store0 (Verified 1)
      = (json (Stats totalAlerts activeAlerts totalTests
                 (User.createdAt alice) (User.lastLogin alice)), store0)
      ∧ get_active_alerts store0 (Verified 1)
        = (json (AlertList actives activeAlerts), store0).
Proof.
  split; [reflexivity|].
  destruct (endpoint_counters_agree store0 (Verified 1) alice 0 eq_refl)
    as (ta & aa & tt & ab & re & bs & bp & tbs & bt & act & abn & rec
        & E1 & _ & _ & _ & E2 & _).
  exists ta, aa, tt, act. exact (conj E1 E2).
Defined.

Lemma preferences_update_merges_witness :
  auth store0 (Verified 1) = inl alice
  ∧ store_ok store0
  ∧ put_preferences_errors theme_body = []
  ∧ ∃ merged s',
      put_preferences store0 (Verified 1) theme_body
      = (json (MessagePreferences "Preferences updated successfully"
                 (JObj merged)), s')
      ∧ merged !! "theme" = Some (JStr "dark").
Proof.
  split; [reflexivity|]. split; [exact store0_ok|]. split; [reflexivity|].
  destruct (preferences_update_merges store0 (Verified 1) alice theme_body
              eq_refl store0_ok eq_refl) as (merged & s' & E & Hk & _).
  exists merged, s'. exact (conj E (Hk "theme")).
Defined.

Lemma session_token_stays_in_sync_witness :
  AuthContext.axios_Authorization returning_browser = None
  ∧ AuthContext.token
      (AuthContext.dispatch_all
         (AuthContext.initialState returning_browser, returning_browser)
         login_then_logout).1
    = AuthContext.localStorage_token
        (AuthContext.dispatch_all
           (AuthContext.initialState returning_browser, returning_browser)
           login_then_logout).2.
Proof.
  split; [reflexivity|].
  exact (proj1 (session_token_stays_in_sync returning_browser
                  login_then_logout eq_refl)).
Defined.

(** The two pages of two active alerts are full, and a third page is
    answered 200 with no rows. *)
Lemma page_lengths_witness :
  auth store1 (Verified 1) = inl alice
  ∧ alert_query_errors (set_page 3 active_by_two) = []
  ∧ exact_offset 3 2
  ∧ Z.of_nat (List.length (alerts store1)) <= MAX_SAFE_INTEGER
  ∧ List.length (alert_rows (get_alerts store1 (Verified 1) active_by_two).1)
    = 2%nat
  ∧ ∃ rows pg,
      get_alerts store1 (Verified 1) (set_page 3 active_by_two)
      = (json (AlertPage rows pg), store1)
      ∧ totalPages pg = 2 ∧ currentPage pg = 3
      ∧ (totalPages pg < currentPage pg → rows = []).
Proof.
  split; [reflexivity|]. split; [reflexivity|]. split; [by vm_compute|].
  split; [by vm_compute|]. split; [by vm_compute|].
  destruct (proj1 (page_lengths store1 (Verified 1) alice eq_refl)
              (set_page 3 active_by_two) eq_refl ltac:(by vm_compute)
              ltac:(by vm_compute)) as (rows & pg & E & _ & _ & _ & Hpast).
  exists rows, pg. split; [exact E|].
  pose proof E as E'.
  rewrite (get_alerts_ok store1 (Verified 1) alice
             (set_page 3 active_by_two) eq_refl eq_refl) in E'.
  injection E' as _ Hpg. rewrite <- Hpg.
  split; [by vm_compute|]. split; [by vm_compute|]. by rewrite Hpg.
Defined.

Lemma empty_update_changes_nothing_witness :
  auth store0 (Verified 1) = inl alice
  ∧ store_ok store0
  ∧ alert1 ∈ alerts store0
  ∧ Alert.userId alert1 = User.id alice
  ∧ put_alert store0 (Verified 1) 77 (Alert.id alert1) empty_alert_body
    = (json (MessageAlert "Alert updated successfully"
               (Some (alert_view store0 alert1))), store0).
Proof.
  split; [reflexivity|]. split; [exact store0_ok|].
  split; [exact (proj1 alert1_own)|]. split; [reflexivity|].
  exact (proj1 (empty_update_changes_nothing store0 (Verified 1) alice 77
                  eq_refl store0_ok) alert1 (proj1 alert1_own) eq_refl).
Defined.


Lemma requests_keep_primary_keys_witness :
  store_ok store0
  ∧ store_ok
      (handle (fun _ => true) (fun e => e) (fun p => p) String.eqb
         store0 (Verified 1) 50 (PostAlert alert_with_owner)).2.
Proof.
  split; [exact store0_ok|].
  exact (requests_keep_primary_keys (fun _ => true) (fun e => e) (fun p => p)
           String.eqb store0 (Verified 1) 50 (PostAlert alert_with_owner)
           store0_ok).
Defined.




(** The token that is not active yet, on [store0]: the denial is the 500,
    and it is the answer of a route. *)
Lemma auth_resolves_active_users_witness :
  ∃ denied,
    auth store0 NotBeforeToken = inr denied
    ∧ code denied = 500
    ∧ handle (fun _ => true) (fun e => e) (fun p => p) String.eqb
        store0 NotBeforeToken 0 GetProfile
      = (denied, store0).
Proof.
  exists (status_json 500
            (Message "Internal server error during authentication.")).
  split; [reflexivity|]. split; [reflexivity|].
  exact (proj2 (proj1 (proj2 (auth_resolves_active_users (fun _ => true)
                                (fun e => e) (fun p => p) String.eqb store0
                                NotBeforeToken)) _ eq_refl) 0 GetProfile).
Defined.
